(** * SSH session relay (server.js): the WebSocket connection handler

    A shallow embedding of the relay of [server.js]: the handler installed by
    [wss.on('connection', ...)], the host allow-list ([ALLOWED],
    [assertAllowedHost]) and the [USE_AUTH] switch, together with the pieces
    of the JavaScript runtime the handler calls ([JSON.parse], property
    reads, [===], [||], truthiness, [String.prototype.trim]/[split]).

    Conventions.
    - A frame ([raw]) is its payload, a [string] of bytes, and so is the
      content of a file.  A JavaScript string is held as the UTF-8 bytes of
      its characters: [raw.toString()] and reading a file as 'utf8' keep
      the bytes that are UTF-8 and put U+FFFD for the others
      ([Utf8.decode]).  A [\uXXXX] escape is turned into the bytes of its
      character, a surrogate pair of two escapes into the four bytes of the
      one character they make, a surrogate without its pair into three
      bytes of its own.
    - A number is the rational it stands for ([Q]), and a JavaScript number
      is a binary64 value: a literal, in JSON or in the text given to
      [Number], is rounded to the nearest one, ties to even, and so is a
      product; beyond the range it is [Infinity].  The zero with a minus
      sign is not told from zero: [===], [||], [<], [Number.isInteger] and
      the conversion to a string, which is all the program does with a
      number, do not tell them apart either.
    - The calls the handler makes on its collaborators ([ws], the ssh2
      client, the shell stream) are recorded as a list of [Effect]s, in
      program order.  [console.log]/[console.error] are left out.
    - A callback is an [Event]; the locals its closure captured ([cfg],
      [srv]) travel with the event. *)

From Stdlib Require Import Bool List Arith ZArith QArith Lia.
From Stdlib Require Import Strings.Ascii Strings.String.
From Stdlib Require Import Floats.SpecFloat Numbers.DecimalString.
Import ListNotations.

Local Open Scope string_scope.
Local Open Scope Z_scope.
Local Set Warnings "-register-all".

(** ** JavaScript values produced by [JSON.parse] (plus [undefined]) *)

Inductive value : Type :=
| VUndef
| VNull
| VBool (b : bool)
| VNum (q : Q)
| VStr (s : string)
| VArr (elems : list value)
| VObj (members : list (string * value))
| VInf (negative : bool).
  (* Infinity and -Infinity: what a literal beyond the range of binary64
     reads as *)

(** A number that a conversion or a product makes. *)
Inductive number : Type :=
| Num (q : Q)
| NaN
| Infinity (negative : bool).

(** ** Binary64 *)

Module Binary64.

Definition prec : Z := 53.
Definition emax : Z := 1024.

(** The rational a binary64 value stands for, in lowest terms. *)
Definition of_float (x : spec_float) : number :=
  match x with
  | S754_zero _ => Num 0
  | S754_finite s m e =>
      let v := if 0 <=? e then (Zpos m * 2 ^ e) # 1
               else Zpos m # Z.to_pos (2 ^ (- e)) in
      Num (Qred (if s then - v else v))
  | S754_infinity s => Infinity s
  | S754_nan => NaN
  end.

(** The binary64 value nearest to [q], ties to even: the quotient of the
    numerator by the denominator, rounded once. *)
Definition to_float (q : Q) : spec_float :=
  match Qnum q with
  | Z0 => S754_zero false
  | Zpos n =>
      SFdiv prec emax (S754_finite false n 0) (S754_finite false (Qden q) 0)
  | Zneg n =>
      SFdiv prec emax (S754_finite true n 0) (S754_finite false (Qden q) 0)
  end.

(** The Number value for the real number [q]. *)
Definition round (q : Q) : number := of_float (to_float q).

(** [mant * 10 ^ e] *)
Definition decimal (mant e : Z) : Q :=
  if 0 <=? e then (mant * 10 ^ e) # 1
  else mant # Z.to_pos (10 ^ (- e)).

(** *** Number::toString: the text of a number

    For [q > 0], a binary64 value, the digits that are printed are those
    of the integer [s] with [k] digits, [k] as small as can be, for which
    [s * 10 ^ (n - k)] reads back as [q]; of two such [s] the one nearer
    to [q] is taken. *)

(** [10 ^ e <= q] *)
Definition pow10_le (e : Z) (q : Q) : bool :=
  if 0 <=? e then 10 ^ e * Zpos (Qden q) <=? Qnum q
  else Zpos (Qden q) <=? Qnum q * 10 ^ (- e).

(** The [n] with [10 ^ (n - 1) <= q < 10 ^ n], counted up from an
    estimate that is below it by at most a few units. *)
Fixpoint magnitude_from (fuel : nat) (n : Z) (q : Q) : Z :=
  match fuel with
  | O => n
  | S fuel' => if pow10_le n q then magnitude_from fuel' (n + 1) q else n
  end.

Definition magnitude (q : Q) : Z :=
  let bits := Z.log2 (Qnum q) - Z.log2 (Zpos (Qden q)) in
  magnitude_from 8 ((bits - 1) * 1233 / 4096 - 1) q.

(** Whether the decimal [s * 10 ^ e] reads back as [q]. *)
Definition reads_back (q : Q) (s e : Z) : bool :=
  match round (decimal s e) with
  | Num r => Qeq_bool r q
  | _ => false
  end.

(** [floor (q / 10 ^ e)] *)
Definition floor_scaled (q : Q) (e : Z) : Z :=
  if 0 <=? e then Qnum q / (Zpos (Qden q) * 10 ^ e)
  else (Qnum q * 10 ^ (- e)) / Zpos (Qden q).

(** The digits of [q] when [k] of them are enough: of the two decimals of
    [k] digits around [q], the one that reads back as [q]; the nearer one
    when both do, the even one when they are as near. *)
Definition digits_at (q : Q) (n k : Z) : option Z :=
  let e := n - k in
  let lo := floor_scaled q e in
  let hi := lo + 1 in
  match reads_back q lo e, reads_back q hi e with
  | true, false => Some lo
  | false, true => Some hi
  | false, false => None
  | true, true =>
      match Qcompare (q - decimal lo e) (decimal hi e - q) with
      | Lt => Some lo
      | Gt => Some hi
      | Eq => Some (if Z.even lo then lo else hi)
      end
  end.

(** Seventeen digits are enough for every binary64 value. *)
Fixpoint shortest_from (fuel : nat) (q : Q) (n k : Z) : Z * Z :=
  match fuel with
  | O => (floor_scaled q (n - k), k)
  | S fuel' =>
      match digits_at q n k with
      | Some s => (s, k)
      | None => shortest_from fuel' q n (k + 1)
      end
  end.

(** [n], [k] and [s]. *)
Definition shortest (q : Q) : Z * Z * Z :=
  let n := magnitude q in
  let '(s, k) := shortest_from 17 q n 1 in
  if s =? 10 ^ k then (n + 1, 1, 1) else (n, k, s).

Definition digits_of (z : Z) : string :=
  NilZero.string_of_uint (N.to_uint (Z.to_N z)).

Fixpoint zeros (n : nat) : string :=
  match n with
  | O => ""
  | S n' => String "0" (zeros n')
  end.

Definition positive_text (q : Q) : string :=
  let '(n, k, s) := shortest q in
  let ds := digits_of s in
  if (k <=? n) && (n <=? 21) then ds ++ zeros (Z.to_nat (n - k))
  else if (0 <? n) && (n <=? 21) then
    substring 0 (Z.to_nat n) ds ++ "."
    ++ substring (Z.to_nat n) (Z.to_nat (k - n)) ds
  else if (-6 <? n) && (n <=? 0) then "0." ++ zeros (Z.to_nat (- n)) ++ ds
  else
    let e := n - 1 in
    let exponent := (if 0 <=? e then "e+" else "e-") ++ digits_of (Z.abs e) in
    if k =? 1 then ds ++ exponent
    else substring 0 1 ds ++ "." ++ substring 1 (Z.to_nat (k - 1)) ds
         ++ exponent.

(** [String(q)] *)
Definition text (q : Q) : string :=
  match Qnum q with
  | Z0 => "0"
  | Zpos _ => positive_text q
  | Zneg _ => "-" ++ positive_text (- q)
  end.

End Binary64.

Module JS.

(** [!!v] *)
Definition truthy (v : value) : bool :=
  match v with
  | VUndef | VNull => false
  | VBool b => b
  | VNum q => negb (Qnum q =? 0)
  | VStr s => negb (String.eqb s "")
  | VArr _ | VObj _ | VInf _ => true
  end.

(** [a || b] *)
Definition or (a b : value) : value := if truthy a then a else b.

(** The own property [k] of an object literal read back by [JSON.parse]:
    a repeated member name keeps its last value. *)
Fixpoint lookup (k : string) (members : list (string * value)) : option value :=
  match members with
  | [] => None
  | (k', v) :: rest =>
      match lookup k rest with
      | Some w => Some w
      | None => if String.eqb k k' then Some v else None
      end
  end.

(** [v.k] for the property names the handler reads ([type], [rows], [cols],
    [token], [serverId], [id], [host], [port], [username], [auth],
    [password], [privateKey]), none of which is inherited from a prototype.
    [None] is the [TypeError] of reading a property of [undefined] or
    [null]. *)
Definition get (v : value) (k : string) : option value :=
  match v with
  | VUndef | VNull => None
  | VObj members =>
      Some (match lookup k members with Some w => w | None => VUndef end)
  | VBool _ | VNum _ | VStr _ | VArr _ | VInf _ => Some VUndef
  end.

(** [v?.k] *)
Definition get_opt (v : value) (k : string) : value :=
  match get v k with Some w => w | None => VUndef end.

(** [a === b] for two values that do not share an object: objects and
    arrays compare by identity, and the operands here always come from
    different [JSON.parse] results or from a literal. *)
Definition strict_eq (a b : value) : bool :=
  match a, b with
  | VUndef, VUndef => true
  | VNull, VNull => true
  | VBool x, VBool y => Bool.eqb x y
  | VNum x, VNum y => Qeq_bool x y
  | VStr x, VStr y => String.eqb x y
  | VInf x, VInf y => Bool.eqb x y
  | _, _ => false
  end.

(** The value a number is, when it is one that a text can stand for. *)
Definition of_number (n : number) : option value :=
  match n with
  | Num q => Some (VNum q)
  | Infinity s => Some (VInf s)
  | NaN => None
  end.

End JS.

(** ** The own properties of an object, in their order

    An object lists the properties whose name is an array index (a
    canonical numeral below 2^32 - 1) first, in ascending order, and then
    the others in the order they were made. *)

Module Obj.

Fixpoint numeral (acc : Z) (s : string) : option Z :=
  match s with
  | EmptyString => Some acc
  | String c rest =>
      let n := Z.of_nat (nat_of_ascii c) in
      if (48 <=? n) && (n <=? 57) then numeral (10 * acc + (n - 48)) rest
      else None
  end.

Definition array_index (k : string) : option Z :=
  match k with
  | EmptyString => None
  | String "0" (String _ _) => None
  | _ =>
      match numeral 0 k with
      | Some i => if i <=? 4294967294 then Some i else None
      | None => None
      end
  end.

(** Where a new property with the array index [i] goes. *)
Fixpoint insert_index (i : Z) (kv : string * value)
    (members : list (string * value)) : list (string * value) :=
  match members with
  | [] => [kv]
  | m :: rest =>
      match array_index (fst m) with
      | Some j => if j <? i then m :: insert_index i kv rest else kv :: members
      | None => kv :: members
      end
  end.

(** CreateDataProperty: the property [fst kv] takes the value [snd kv]
    where it stands, or is added in its place. *)
Definition define (members : list (string * value)) (kv : string * value)
  : list (string * value) :=
  match JS.lookup (fst kv) members with
  | Some _ =>
      map (fun m => if String.eqb (fst m) (fst kv) then (fst m, snd kv) else m)
          members
  | None =>
      match array_index (fst kv) with
      | Some i => insert_index i kv members
      | None => (members ++ [kv])%list
      end
  end.

End Obj.

(** ** [JSON.parse] *)

Module Json.

Inductive token : Type :=
| TLBrace | TRBrace | TLBracket | TRBracket | TColon | TComma
| TString (s : string)
| TAtom (v : value).                (* number, true, false, null *)

(** The double quote. *)
Definition quote : ascii := ascii_of_nat 34.

Definition is_digit (c : ascii) : bool :=
  let n := nat_of_ascii c in ((48 <=? n) && (n <=? 57))%nat.

Definition digit_val (c : ascii) : Z := Z.of_nat (nat_of_ascii c) - 48.

Definition hex_val (c : ascii) : option Z :=
  let n := Z.of_nat (nat_of_ascii c) in
  if (48 <=? n) && (n <=? 57) then Some (n - 48)
  else if (65 <=? n) && (n <=? 70) then Some (n - 55)
  else if (97 <=? n) && (n <=? 102) then Some (n - 87)
  else None.

Definition byte (n : Z) : ascii := ascii_of_nat (Z.to_nat n).

Fixpoint rev_string (acc s : string) : string :=
  match s with
  | EmptyString => acc
  | String c r => rev_string (String c acc) r
  end.

(** The UTF-8 bytes of the character [u]; a surrogate that stands alone
    is written the same way, in three bytes. *)
Definition utf8 (u : Z) : string :=
  if u <? 128 then String (byte u) ""
  else if u <? 2048 then
    String (byte (192 + u / 64)) (String (byte (128 + u mod 64)) "")
  else if u <? 65536 then
    String (byte (224 + u / 4096))
      (String (byte (128 + (u / 64) mod 64))
         (String (byte (128 + u mod 64)) ""))
  else
    String (byte (240 + u / 262144))
      (String (byte (128 + (u / 4096) mod 64))
         (String (byte (128 + (u / 64) mod 64))
            (String (byte (128 + u mod 64)) ""))).

(** The high surrogate that the three bytes [b1 b2 b3] are. *)
Definition high_surrogate (b1 b2 b3 : ascii) : option Z :=
  let '(x, y, z) :=
    (Z.of_nat (nat_of_ascii b1), Z.of_nat (nat_of_ascii b2),
     Z.of_nat (nat_of_ascii b3)) in
  if (x =? 237) && (160 <=? y) && (y <=? 175) && (128 <=? z) && (z <=? 191)
  then Some (53248 + (y - 128) * 64 + (z - 128))
  else None.

(** The code unit [u] of an escape after the characters [acc] (last one
    first): a low surrogate that comes right after a high one makes one
    character with it. *)
Definition after_escape (acc : string) (u : Z) : string :=
  match acc with
  | String b3 (String b2 (String b1 before)) =>
      match high_surrogate b1 b2 b3 with
      | Some h =>
          if (56320 <=? u) && (u <=? 57343)
          then rev_string before (utf8 (65536 + (h - 55296) * 1024 + (u - 56320)))
          else rev_string acc (utf8 u)
      | None => rev_string acc (utf8 u)
      end
  | _ => rev_string acc (utf8 u)
  end.

(** Digits at the head of [s]: their value appended to [acc], how many
    there were, and what follows them. *)
Fixpoint digits (acc : Z) (n : Z) (s : string) : Z * Z * string :=
  match s with
  | String c rest =>
      if is_digit c then digits (10 * acc + digit_val c) (n + 1) rest
      else (acc, n, s)
  | EmptyString => (acc, n, s)
  end.

Definition decimal : Z -> Z -> Q := Binary64.decimal.

(** The text of a number token: an optional minus sign; an integer part,
    which is 0 alone or starts with a nonzero digit; an optional fraction,
    a dot and at least one digit; an optional exponent, e or E, an optional
    sign and at least one digit.  The real number it stands for. *)
Definition literal (s : string) : option Q :=
  let '(neg, s1) :=
    match s with
    | String "-" r => (true, r)
    | _ => (false, s)
    end in
  let '(ip, ni, s2) := digits 0 0 s1 in
  let leading_zero :=
    match s1 with String "0" _ => 1 <? ni | _ => false end in
  if (ni =? 0) || leading_zero then None else
  let frac :=
    match s2 with
    | String "." r =>
        let '(m, nf, s3) := digits ip 0 r in
        if nf =? 0 then None else Some (m, nf, s3)
    | _ => Some (ip, 0, s2)
    end in
  match frac with
  | None => None
  | Some (m, nf, s3) =>
      let mant := if neg then - m else m in
      match s3 with
      | EmptyString => Some (decimal mant (- nf))
      | String e r =>
          if (Ascii.eqb e "e" || Ascii.eqb e "E")%bool then
            let '(eneg, r1) :=
              match r with
              | String "-" r' => (true, r')
              | String "+" r' => (false, r')
              | _ => (false, r)
              end in
            let '(ev, ne, r2) := digits 0 0 r1 in
            if (ne =? 0) || negb (String.eqb r2 "") then None
            else Some (decimal mant ((if eneg then - ev else ev) - nf))
          else None
      end
  end.

(** The value of a number token: the binary64 value nearest to the
    number its text stands for. *)
Definition number_of_string (s : string) : option value :=
  match literal s with
  | Some q => JS.of_number (Binary64.round q)
  | None => None
  end.

Definition word_of_string (s : string) : option value :=
  if String.eqb s "true" then Some (VBool true)
  else if String.eqb s "false" then Some (VBool false)
  else if String.eqb s "null" then Some VNull
  else None.

Definition is_number_char (c : ascii) : bool :=
  is_digit c || Ascii.eqb c "-" || Ascii.eqb c "+" || Ascii.eqb c "."
  || Ascii.eqb c "e" || Ascii.eqb c "E".

Definition is_letter (c : ascii) : bool :=
  let n := nat_of_ascii c in ((97 <=? n) && (n <=? 122))%nat.

Definition is_ws (c : ascii) : bool :=
  let n := nat_of_ascii c in
  ((n =? 32) || (n =? 9) || (n =? 10) || (n =? 13))%nat.

(** The scanner reads one character at a time.  Accumulators hold the
    characters read so far, last one first. *)
Inductive mode : Type :=
| Between
| InString (acc : string)
| InEscape (acc : string)
| InUnicode (acc : string) (n : nat) (u : Z)   (* n hex digits read *)
| InNumber (acc : string)
| InWord (acc : string).

Definition punct (c : ascii) : option token :=
  if Ascii.eqb c "{" then Some TLBrace
  else if Ascii.eqb c "}" then Some TRBrace
  else if Ascii.eqb c "[" then Some TLBracket
  else if Ascii.eqb c "]" then Some TRBracket
  else if Ascii.eqb c ":" then Some TColon
  else if Ascii.eqb c "," then Some TComma
  else None.

(** A character met between tokens. *)
Definition start (c : ascii) (out : list token) : option (mode * list token) :=
  if is_ws c then Some (Between, out)
  else if Ascii.eqb c quote then Some (InString "", out)
  else if is_digit c || Ascii.eqb c "-" then Some (InNumber (String c ""), out)
  else if is_letter c then Some (InWord (String c ""), out)
  else match punct c with
       | Some t => Some (Between, t :: out)
       | None => None
       end.

Definition escape (c : ascii) : option ascii :=
  if Ascii.eqb c quote then Some c
  else if Ascii.eqb c "\" then Some c
  else if Ascii.eqb c "/" then Some c
  else if Ascii.eqb c "b" then Some (ascii_of_nat 8)
  else if Ascii.eqb c "f" then Some (ascii_of_nat 12)
  else if Ascii.eqb c "n" then Some (ascii_of_nat 10)
  else if Ascii.eqb c "r" then Some (ascii_of_nat 13)
  else if Ascii.eqb c "t" then Some (ascii_of_nat 9)
  else None.

Definition scan_char (m : mode) (out : list token) (c : ascii)
  : option (mode * list token) :=
  match m with
  | Between => start c out
  | InString acc =>
      if Ascii.eqb c quote then Some (Between, TString (rev_string "" acc) :: out)
      else if Ascii.eqb c "\" then Some (InEscape acc, out)
      else if (nat_of_ascii c <? 32)%nat then None
      else Some (InString (String c acc), out)
  | InEscape acc =>
      if Ascii.eqb c "u" then Some (InUnicode acc 0 0, out)
      else match escape c with
           | Some e => Some (InString (String e acc), out)
           | None => None
           end
  | InUnicode acc n u =>
      match hex_val c with
      | None => None
      | Some h =>
          let u' := 16 * u + h in
          if (n =? 3)%nat
          then Some (InString (after_escape acc u'), out)
          else Some (InUnicode acc (S n) u', out)
      end
  | InNumber acc =>
      if is_number_char c then Some (InNumber (String c acc), out)
      else match number_of_string (rev_string "" acc) with
           | Some v => start c (TAtom v :: out)
           | None => None
           end
  | InWord acc =>
      if is_letter c then Some (InWord (String c acc), out)
      else match word_of_string (rev_string "" acc) with
           | Some v => start c (TAtom v :: out)
           | None => None
           end
  end.

Definition finish (m : mode) (out : list token) : option (list token) :=
  match m with
  | Between => Some (rev out)
  | InNumber acc =>
      match number_of_string (rev_string "" acc) with
      | Some v => Some (rev (TAtom v :: out))
      | None => None
      end
  | InWord acc =>
      match word_of_string (rev_string "" acc) with
      | Some v => Some (rev (TAtom v :: out))
      | None => None
      end
  | InString _ | InEscape _ | InUnicode _ _ _ => None
  end.

Fixpoint scan (m : mode) (out : list token) (s : string) : option (list token) :=
  match s with
  | EmptyString => finish m out
  | String c rest =>
      match scan_char m out c with
      | Some (m', out') => scan m' out' rest
      | None => None
      end
  end.

(** The parser keeps the containers that are still open on a stack. *)
Inductive frame : Type :=
| FArr (done : list value)                       (* elements, last first *)
| FObj (done : list (string * value))            (* members, in their order *)
| FMember (done : list (string * value)) (key : string).
                                                 (* a member name was read *)

Inductive expect : Type :=
| EValue                 (* a value *)
| EValueOrClose          (* just after [: a value or ] *)
| EKeyOrClose            (* just after {: a member name or } *)
| EKey                   (* after , in an object *)
| EColon
| EAfter (v : value).    (* a value is complete *)

Record pstate : Type := { want : expect; stack : list frame }.

Definition complete (v : value) (st : list frame) : pstate :=
  {| want := EAfter v; stack := st |}.

Definition value_start (t : token) (st : list frame) : option pstate :=
  match t with
  | TAtom v => Some (complete v st)
  | TString s => Some (complete (VStr s) st)
  | TLBracket => Some {| want := EValueOrClose; stack := FArr [] :: st |}
  | TLBrace => Some {| want := EKeyOrClose; stack := FObj [] :: st |}
  | _ => None
  end.

Definition member_name (t : token) (st : list frame) : option pstate :=
  match t, st with
  | TString k, FObj done :: st' =>
      Some {| want := EColon; stack := FMember done k :: st' |}
  | _, _ => None
  end.

Definition parse_token (p : pstate) (t : token) : option pstate :=
  let st := stack p in
  match want p with
  | EValue => value_start t st
  | EValueOrClose =>
      match t, st with
      | TRBracket, FArr done :: st' => Some (complete (VArr (rev done)) st')
      | TRBracket, _ => None
      | _, _ => value_start t st
      end
  | EKeyOrClose =>
      match t, st with
      | TRBrace, FObj done :: st' => Some (complete (VObj done) st')
      | _, _ => member_name t st
      end
  | EKey => member_name t st
  | EColon =>
      match t with
      | TColon => Some {| want := EValue; stack := st |}
      | _ => None
      end
  | EAfter v =>
      match st with
      | FArr done :: st' =>
          match t with
          | TComma => Some {| want := EValue; stack := FArr (v :: done) :: st' |}
          | TRBracket => Some (complete (VArr (rev (v :: done))) st')
          | _ => None
          end
      | FMember done k :: st' =>
          match t with
          | TComma =>
              Some {| want := EKey; stack := FObj (Obj.define done (k, v)) :: st' |}
          | TRBrace => Some (complete (VObj (Obj.define done (k, v))) st')
          | _ => None
          end
      | _ => None
      end
  end.

Fixpoint parse_tokens (p : pstate) (ts : list token) : option value :=
  match ts with
  | [] =>
      match want p, stack p with
      | EAfter v, [] => Some v
      | _, _ => None
      end
  | t :: rest =>
      match parse_token p t with
      | Some p' => parse_tokens p' rest
      | None => None
      end
  end.

(** [JSON.parse(text)]; [None] is the [SyntaxError]. *)
Definition parse (text : string) : option value :=
  match scan Between [] text with
  | Some ts => parse_tokens {| want := EValue; stack := [] |} ts
  | None => None
  end.

End Json.

(** ** [raw.toString()]: the text that bytes decode to *)

Module Utf8.

(** U+FFFD, which is put for bytes that are not UTF-8. *)
Definition replacement : string :=
  String (ascii_of_nat 239) (String (ascii_of_nat 191) (String (ascii_of_nat 189) "")).

(** Where the decoder is: between two characters, or inside one, with the
    bytes [seen] of it, the number of bytes still to come and the range
    the next one has to lie in. *)
Inductive state : Type :=
| Start
| Inside (seen : string) (more : nat) (lo hi : nat).

(** The first byte of a character.  A byte below 0x80 is a character;
    0xC2..0xDF, 0xE0..0xEF and 0xF0..0xF4 open one of two, three and four
    bytes; any other byte is replaced. *)
Definition lead (a : ascii) : string * state :=
  let n := nat_of_ascii a in
  if (n <? 128)%nat then (String a "", Start)
  else if ((194 <=? n) && (n <=? 223))%nat then
    ("", Inside (String a "") 1 128 191)
  else if ((224 <=? n) && (n <=? 239))%nat then
    ("", Inside (String a "") 2
           (if (n =? 224)%nat then 160%nat else 128%nat)
           (if (n =? 237)%nat then 159%nat else 191%nat))
  else if ((240 <=? n) && (n <=? 244))%nat then
    ("", Inside (String a "") 3
           (if (n =? 240)%nat then 144%nat else 128%nat)
           (if (n =? 244)%nat then 143%nat else 191%nat))
  else (replacement, Start).

(** One byte more.  Inside a character, a byte out of the range ends it:
    what was seen of it is replaced by one U+FFFD and the byte is read as
    a first byte. *)
Definition feed (st : state) (a : ascii) : string * state :=
  match st with
  | Start => lead a
  | Inside seen more lo hi =>
      let n := nat_of_ascii a in
      if ((lo <=? n) && (n <=? hi))%nat then
        match more with
        | S (S k) => ("", Inside (seen ++ String a "") (S k) 128 191)
        | _ => (seen ++ String a "", Start)
        end
      else let (out, st') := lead a in (replacement ++ out, st')
  end.

(** The text from [st] on; a character cut by the end is replaced. *)
Fixpoint run (st : state) (s : string) : string :=
  match s with
  | EmptyString =>
      match st with
      | Start => ""
      | Inside _ _ _ _ => replacement
      end
  | String a r => let (out, st') := feed st a in out ++ run st' r
  end.

(** [Buffer.prototype.toString()], in UTF-8. *)
Definition decode (s : string) : string := run Start s.

End Utf8.

(** [JSON.parse(raw.toString())], and [JSON.parse] of the text of a file
    read as 'utf8'. *)
Definition JSON_parse (raw : string) : option value :=
  Json.parse (Utf8.decode raw).

(** ** Strings: [split(',')] and [trim] *)

Module Str.

(** [s.split(',')]; [cur] holds the current piece, last character first. *)
Fixpoint split_comma (cur s : string) : list string :=
  match s with
  | EmptyString => [Json.rev_string "" cur]
  | String c rest =>
      if Ascii.eqb c ","
      then Json.rev_string "" cur :: split_comma "" rest
      else split_comma (String c cur) rest
  end.

Definition code (c : ascii) : nat := nat_of_ascii c.

(** White space and line terminators of one byte: TAB, LF, VT, FF, CR, SP. *)
Definition ws1 (a : ascii) : bool :=
  let n := code a in (((9 <=? n) && (n <=? 13)) || (n =? 32))%nat.

(** U+00A0 in UTF-8. *)
Definition ws2 (a b : ascii) : bool :=
  ((code a =? 194) && (code b =? 160))%nat.

(** U+1680, U+2000..U+200A, U+2028, U+2029, U+202F, U+205F, U+3000 and
    U+FEFF in UTF-8. *)
Definition ws3 (a b c : ascii) : bool :=
  let '(x, y, z) := (code a, code b, code c) in
  (((x =? 225) && (y =? 154) && (z =? 128))
   || ((x =? 226) && (y =? 128)
       && (((128 <=? z) && (z <=? 138)) || (z =? 168) || (z =? 169) || (z =? 175)))
   || ((x =? 226) && (y =? 129) && (z =? 159))
   || ((x =? 227) && (y =? 128) && (z =? 128))
   || ((x =? 239) && (y =? 187) && (z =? 191)))%nat.

(** Drops the white space at the head of [s]; with [back], [s] is read
    from its last byte. *)
Fixpoint strip (back : bool) (s : string) : string :=
  match s with
  | EmptyString => s
  | String a r1 =>
      if ws1 a then strip back r1 else
      match r1 with
      | EmptyString => s
      | String b r2 =>
          if (if back then ws2 b a else ws2 a b) then strip back r2 else
          match r2 with
          | EmptyString => s
          | String c r3 =>
              if (if back then ws3 c b a else ws3 a b c) then strip back r3
              else s
          end
      end
  end.

(** [s.trim()] *)
Definition trim (s : string) : string :=
  Json.rev_string "" (strip true (Json.rev_string "" (strip false s))).

Definition nonempty (s : string) : bool := negb (String.eqb s "").

(** [s] begins with white space (ends with it, when [s] is given from its
    last byte with [back]). *)
Definition leading_ws (back : bool) (s : string) : bool :=
  match s with
  | String a (String b (String c _)) =>
      ws1 a || (if back then ws2 b a else ws2 a b)
      || (if back then ws3 c b a else ws3 a b c)
  | String a (String b EmptyString) =>
      ws1 a || (if back then ws2 b a else ws2 a b)
  | String a EmptyString => ws1 a
  | EmptyString => false
  end.

Fixpoint contains (c : ascii) (s : string) : bool :=
  match s with
  | EmptyString => false
  | String a r => Ascii.eqb a c || contains c r
  end.

Definition crlf : string := String (ascii_of_nat 13) (String (ascii_of_nat 10) "").


End Str.

(** ** The process environment and the constants read from it *)

Record Env : Type := {
  env_USE_AUTH : option string;           (* process.env.USE_AUTH *)
  env_ALLOWED_SSH_HOSTS : option string   (* process.env.ALLOWED_SSH_HOSTS *)
}.

(** What a thrown [Error] or a close frame says. *)
Inductive message : Type :=
| Text (s : string).

Inductive result (A : Type) : Type :=
| Ok (a : A)
| Throw (m : message).
Arguments Ok {A} a.
Arguments Throw {A} m.

(** ** Conversions *)

Module Coerce.

(** Whether converting [v] to a primitive throws a TypeError: an object
    read by [JSON.parse] with a member called [toString] has no callable
    [toString] left, and an array converts each of its elements. *)
Fixpoint throws (v : value) : bool :=
  match v with
  | VObj members =>
      match JS.lookup "toString" members with Some _ => true | None => false end
  | VArr elems => existsb throws elems
  | _ => false
  end.

(** [String(v)], as a template literal makes it; [None] is the TypeError.
    An array is the texts of its elements with commas between them, where
    [null] and [undefined] are the empty text. *)
Fixpoint to_string (v : value) : option string :=
  match v with
  | VUndef => Some "undefined"
  | VNull => Some "null"
  | VBool b => Some (if b then "true" else "false")
  | VNum q => Some (Binary64.text q)
  | VInf s => Some (if s then "-Infinity" else "Infinity")
  | VStr s => Some s
  | VObj members =>
      match JS.lookup "toString" members with
      | Some _ => None
      | None => Some "[object Object]"
      end
  | VArr elems =>
      (fix join (es : list value) : option string :=
         match es with
         | [] => Some ""
         | e :: rest =>
             match (match e with
                    | VUndef | VNull => Some ""
                    | _ => to_string e
                    end), join rest with
             | Some a, Some b =>
                 Some (a ++ match rest with [] => "" | _ :: _ => "," end ++ b)
             | _, _ => None
             end
         end) elems
  end.

End Coerce.

(** ** [Number(v)] *)

Module ToNumber.

Definition negate (n : number) : number :=
  match n with
  | Num q => Num (- q)
  | Infinity s => Infinity (negb s)
  | NaN => NaN
  end.

(** The digits of a literal in base [radix], to the end of the text:
    their value and how many there were. *)
Fixpoint radix_digits (radix acc n : Z) (s : string) : option (Z * Z) :=
  match s with
  | EmptyString => Some (acc, n)
  | String c rest =>
      match Json.hex_val c with
      | Some d =>
          if d <? radix then radix_digits radix (radix * acc + d) (n + 1) rest
          else None
      | None => None
      end
  end.

(** [0x], [0o] or [0b] at the head of a literal, in either case. *)
Definition radix_prefix (s : string) : option (Z * string) :=
  match s with
  | String z (String x rest) =>
      if negb (Ascii.eqb z "0") then None
      else if Ascii.eqb x "x" || Ascii.eqb x "X" then Some (16, rest)
      else if Ascii.eqb x "o" || Ascii.eqb x "O" then Some (8, rest)
      else if Ascii.eqb x "b" || Ascii.eqb x "B" then Some (2, rest)
      else None
  | _ => None
  end.

(** An exponent that ends the literal: nothing, or [e] or [E], an optional
    sign and at least one digit. *)
Definition exponent_part (s : string) : option Z :=
  match s with
  | EmptyString => Some 0
  | String e r =>
      if Ascii.eqb e "e" || Ascii.eqb e "E" then
        let '(neg, r1) :=
          match r with
          | String "-" r' => (true, r')
          | String "+" r' => (false, r')
          | _ => (false, r)
          end in
        let '(ev, ne, r2) := Json.digits 0 0 r1 in
        if (ne =? 0) || negb (String.eqb r2 "") then None
        else Some (if neg then - ev else ev)
      else None
  end.

(** A decimal literal without its sign: [Infinity]; digits, with an
    optional dot and more digits; or a dot and digits; then the exponent.
    The binary64 value nearest to the number it stands for. *)
Definition unsigned_decimal (s : string) : number :=
  if String.eqb s "Infinity" then Infinity false else
  let '(ip, ni, r1) := Json.digits 0 0 s in
  match r1 with
  | String "." r2 =>
      let '(m, nf, r3) := Json.digits ip 0 r2 in
      if ni + nf =? 0 then NaN
      else match exponent_part r3 with
           | Some e => Binary64.round (Json.decimal m (e - nf))
           | None => NaN
           end
  | _ =>
      if ni =? 0 then NaN
      else match exponent_part r1 with
           | Some e => Binary64.round (Json.decimal ip e)
           | None => NaN
           end
  end.

(** [Number(s)] for a string: white space around the literal is dropped,
    and the empty text is zero. *)
Definition of_string (s : string) : number :=
  let t := Str.trim s in
  if String.eqb t "" then Num 0
  else match radix_prefix t with
       | Some (radix, rest) =>
           match radix_digits radix 0 0 rest with
           | Some (v, n) => if n =? 0 then NaN else Binary64.round (v # 1)
           | None => NaN
           end
       | None =>
           match t with
           | String "+" r => unsigned_decimal r
           | String "-" r => negate (unsigned_decimal r)
           | _ => unsigned_decimal t
           end
       end.

(** [Number(v)] when the conversion does not throw.  An array converts
    through the text of its elements joined by commas: an empty array is
    the empty text, one element is its own text (a number prints to a
    text that reads back as itself), and two or more make a text with a
    comma, which is no number. *)
Fixpoint of_value (v : value) : number :=
  match v with
  | VUndef => NaN
  | VNull => Num 0
  | VBool b => Num (if b then 1 else 0)
  | VNum q => Num q
  | VInf s => Infinity s
  | VStr s => of_string s
  | VObj _ => NaN
  | VArr [] => Num 0
  | VArr [e] =>
      match e with
      | VUndef | VNull => Num 0
      | VBool _ | VObj _ => NaN
      | VNum _ | VInf _ | VStr _ | VArr _ => of_value e
      end
  | VArr (_ :: _ :: _) => NaN
  end.

(** [Number(v)]; [None] is the TypeError. *)
Definition Number (v : value) : option number :=
  if Coerce.throws v then None else Some (of_value v).

(** [v * k] for a positive [k]: the product of [Number(v)] and [k],
    rounded; [None] is the TypeError. *)
Definition times (v : value) (k : Q) : option number :=
  match Number v with
  | None => None
  | Some (Num q) => Some (Binary64.round (q * k))
  | Some other => Some other
  end.

(** [Number.isInteger] *)
Definition isInteger (n : number) : bool :=
  match n with
  | Num q => Qnum q mod Zpos (Qden q) =? 0
  | _ => false
  end.

(** [p < 1 || p > 65535] is false. *)
Definition in_port_range (n : number) : bool :=
  match n with
  | Num q => Qle_bool 1 q && Qle_bool q 65535
  | _ => false
  end.

End ToNumber.

(** ** The connection *)

(** The options of [ssh.connect]. *)
Record ConnectOptions : Type := {
  host : value;
  port : value;
  username : value;
  password : value;
  privateKey : value;
  tryKeyboard : bool
}.

(** Calls on the collaborators, and the points where the message handler
    waits ([AwaitJwtVerify], [AwaitReadServers]).  A call of [ws.close]
    with a reason of more than 123 bytes is a call apart
    ([WsCloseTooLong]): ws sends no close frame for it; when the socket is
    open it throws a RangeError, which nothing in the callback catches,
    and otherwise it returns as for any other close. *)
Inductive Effect : Type :=
| WsClose (code : option Z) (reason : option message)  (* ws.close(code, reason) *)
| WsCloseTooLong (code : Z) (reason : message)         (* ws.close(code, reason) *)
| WsSend (data : string)                               (* ws.send(data) *)
| AwaitJwtVerify (cfg t : value)
    (* await import('jsonwebtoken').then(m => m.default.verify(t, JWT_SECRET)) *)
| AwaitReadServers (cfg : value)                       (* await readServers() *)
| SshConnect (c : nat) (options : ConnectOptions)      (* ssh.connect({...}) *)
| KeyboardFinish (answers : list value)                (* finish(answers) *)
| SshShell (c : nat) (term : string) (cols rows : value)
                                                       (* ssh.shell({...}, cb) *)
| StreamSetWindow (s : nat) (rows cols : value) (height width : number)
                                                       (* stream.setWindow(...) *)
| StreamWrite (s : nat) (raw : string)                 (* stream.write(raw) *)
| StreamClose (s : nat)                                (* stream.close() *)
| SshEnd (c : nat)                                     (* ssh.end() *)
| Uncaught.                       (* a TypeError leaves the callback *)

(** The variables of one connection: [let ssh, stream; let alive = true;].
    [clients] counts the [SSHClient] objects made so far and names the
    next one. *)
Record Session : Type := {
  ssh : option nat;
  stream : option nat;
  alive : bool;
  clients : nat
}.

Definition connection : Session :=
  {| ssh := None; stream := None; alive := true; clients := 0 |}.

Definition close1008 (s : string) : Effect := WsClose (Some 1008) (Some (Text s)).

(** The bytes of a close reason. *)
Definition reason_bytes (reason : message) : nat :=
  match reason with
  | Text s => String.length s
  end.

(** [ws.close(code, reason)] with a reason made when the program runs. *)
Definition ws_close (code : Z) (reason : message) : Effect :=
  if (123 <? reason_bytes reason)%nat then WsCloseTooLong code reason
  else WsClose (Some code) (Some reason).

Section Connection.

Variable process_env : Env.

(** [const USE_AUTH = process.env.USE_AUTH !== 'false';] *)
Definition USE_AUTH : bool :=
  match env_USE_AUTH process_env with
  | Some s => negb (String.eqb s "false")
  | None => true
  end.

(** [(process.env.ALLOWED_SSH_HOSTS || '').split(',').map(s => s.trim()).filter(Boolean)] *)
Definition ALLOWED : list string :=
  filter Str.nonempty
    (map Str.trim
       (Str.split_comma ""
          (match env_ALLOWED_SSH_HOSTS process_env with
           | Some s => s
           | None => ""
           end))).

(** [ALLOWED.includes(host)] *)
Definition includes (host : value) : bool :=
  match host with
  | VStr h => existsb (String.eqb h) ALLOWED
  | _ => false
  end.

(** [e.message] of what [assertAllowedHost] throws: the text of its
    [Error], or, when [host] cannot be made a string, the text V8 gives
    the TypeError. *)
Definition host_message (host : value) : message :=
  match Coerce.to_string host with
  | Some h => Text ("Host " ++ h ++ " nu este permis")
  | None => Text "Cannot convert object to primitive value"
  end.

Definition assertAllowedHost (host : value) : result unit :=
  match ALLOWED with
  | [] => Ok tt
  | _ :: _ => if includes host then Ok tt else Throw (host_message host)
  end.

(** [readServers()] on the bytes of [servers.json] (the file is created
    holding an empty array when it is missing). *)
Definition readServers (file : string) : value :=
  let raw := Str.trim (Utf8.decode file) in
  if String.eqb raw "" then VArr []
  else match Json.parse raw with
       | Some list => list
       | None => VArr []
       end.

(** [servers.find(s => s.id === cfg.serverId)] on the elements of an
    array; [None] is the TypeError of a property read. *)
Fixpoint find_server (cfg : value) (servers : list value) : option value :=
  match servers with
  | [] => Some VUndef
  | s :: rest =>
      match JS.get s "id", JS.get cfg "serverId" with
      | Some i, Some w => if JS.strict_eq i w then Some s else find_server cfg rest
      | _, _ => None
      end
  end.

(** The first message, up to the first [await]. *)
Definition first_message (st : Session) (raw : string) : Session * list Effect :=
  match JSON_parse raw with
  | None => (st, [close1008 "Primul mesaj trebuie să fie JSON"])
  | Some cfg =>
      if USE_AUTH then
        match JS.get cfg "token" with
        | Some t =>
            if JS.truthy t then (st, [AwaitJwtVerify cfg t])
            else (st, [close1008 "JWT invalid"])
        | None => (st, [close1008 "JWT invalid"])
        end
      else (st, [AwaitReadServers cfg])
  end.

(** The first message, after the token was verified ([ok]) or refused. *)
Definition after_jwt (st : Session) (cfg : value) (ok : bool)
  : Session * list Effect :=
  if ok then (st, [AwaitReadServers cfg])
  else (st, [close1008 "JWT invalid"]).

(** The first message, after [readServers()] returned [servers].  A
    server that was found is truthy, so reading [srv.host], [srv.port] and
    [srv.username] does not throw. *)
Definition after_readServers (st : Session) (cfg servers : value)
  : Session * list Effect :=
  match servers with
  | VArr list =>
      match find_server cfg list with
      | None => (st, [Uncaught])
      | Some srv =>
          if negb (JS.truthy srv) then (st, [close1008 "Server necunoscut"])
          else
            match assertAllowedHost (JS.get_opt srv "host") with
            | Throw m => (st, [ws_close 1008 m])
            | Ok _ =>
                let c := clients st in
                let st' := {| ssh := Some c; stream := stream st;
                              alive := alive st; clients := S c |} in
                match JS.get cfg "auth" with
                | None => (st', [Uncaught])
                | Some auth =>
                    (st',
                     [SshConnect c
                        {| host := JS.get_opt srv "host";
                           port := JS.or (JS.get_opt srv "port") (VNum 22);
                           username := JS.get_opt srv "username";
                           password := JS.get_opt auth "password";
                           privateKey := JS.get_opt auth "privateKey";
                           tryKeyboard := true |}])
                end
            end
      end
  | _ => (st, [Uncaught])
  end.

(** What the [try] block of a later message comes to. *)
Inductive attempt : Type :=
| Resized (e : Effect)     (* setWindow was called; the handler returns *)
| NotResize                (* the block ends without a call *)
| Threw.                   (* SyntaxError or TypeError, caught and dropped *)

Definition try_resize (st : Session) (raw : string) : attempt :=
  match JSON_parse raw with
  | None => Threw
  | Some msg =>
      match JS.get msg "type" with
      | None => Threw
      | Some ty =>
          match JS.strict_eq ty (VStr "resize"), stream st with
          | true, Some s =>
              let rows := JS.get_opt msg "rows" in
              let cols := JS.get_opt msg "cols" in
              match ToNumber.times cols 8, ToNumber.times rows 16 with
              | Some height, Some width =>
                  Resized (StreamSetWindow s rows cols height width)
              | _, _ => Threw
              end
          | _, _ => NotResize
          end
      end
  end.

(** [if (stream) stream.write(raw);] *)
Definition write_input (st : Session) (raw : string) : list Effect :=
  match stream st with
  | Some s => [StreamWrite s raw]
  | None => []
  end.

(** A message that finds [ssh] set: resize or input. *)
Definition later_message (st : Session) (raw : string) : Session * list Effect :=
  match try_resize st raw with
  | Resized e => (st, [e])
  | NotResize | Threw => (st, write_input st raw)
  end.

(** [ws.on('message', async (raw) => ...)] *)
Definition on_message (st : Session) (raw : string) : Session * list Effect :=
  match ssh st with
  | None => first_message st raw
  | Some _ => later_message st raw
  end.

(** [ssh.on('keyboard-interactive', ...)] with [prompts.length = n] *)
Definition on_keyboard_interactive (st : Session) (cfg : value) (n : nat)
  : Session * list Effect :=
  match n, JS.get cfg "auth" with
  | O, _ => (st, [KeyboardFinish []])
  | S _, None => (st, [Uncaught])
  | S _, Some auth =>
      (st, [KeyboardFinish
              (repeat (JS.or (JS.get_opt auth "password") (VStr "")) n)])
  end.

(** [ssh.on('ready', ...)] *)
Definition on_ready (st : Session) (cfg : value) : Session * list Effect :=
  match ssh st, JS.get cfg "cols", JS.get cfg "rows" with
  | Some c, Some cols, Some rows =>
      (st, [SshShell c "xterm-256color"
              (JS.or cols (VNum 80)) (JS.or rows (VNum 24))])
  | _, _, _ => (st, [Uncaught])
  end.

(** The callback of [ssh.shell]: [(err, s) => ...] *)
Definition on_shell (st : Session) (err : option string) (s : nat)
  : Session * list Effect :=
  match err with
  | Some m => (st, [ws_close 1011 (Text ("PTY error: " ++ m))])
  | None =>
      ({| ssh := ssh st; stream := Some s; alive := alive st;
          clients := clients st |}, [])
  end.

(** [stream.on('data', d => alive && ws.send(d))], and the same on
    [stream.stderr] *)
Definition on_data (st : Session) (d : string) : Session * list Effect :=
  (st, if alive st then [WsSend d] else []).

(** [stream.on('close', ...)] *)
Definition on_stream_close (st : Session) : Session * list Effect :=
  (st, [WsClose None None]).

(** [ssh.on('error', ...)] *)
Definition on_error (st : Session) (m : string) : Session * list Effect :=
  (st, [WsSend (Str.crlf ++ "[SSH ERROR] " ++ m ++ Str.crlf); WsClose None None]).

(** [ws.on('close', ...)] *)
Definition on_close (st : Session) : Session * list Effect :=
  ({| ssh := ssh st; stream := stream st; alive := false;
      clients := clients st |},
   (match stream st with Some s => [StreamClose s] | None => [] end
    ++ match ssh st with Some c => [SshEnd c] | None => [] end)%list).

(** The callbacks of one connection. *)
Inductive Event : Type :=
| Message (raw : string) (isBinary : bool)
| JwtSettled (cfg : value) (ok : bool)
| ServersRead (cfg : value) (file : string)
| KeyboardInteractive (cfg : value) (prompts : nat)
| Ready (cfg : value)
| Shell (err : option string) (s : nat)
| Data (d : string)
| StderrData (d : string)
| StreamClosed
| SshError (m : string)
| Closed.

Definition step (st : Session) (ev : Event) : Session * list Effect :=
  match ev with
  | Message raw _ => on_message st raw
  | JwtSettled cfg ok => after_jwt st cfg ok
  | ServersRead cfg file => after_readServers st cfg (readServers file)
  | KeyboardInteractive cfg n => on_keyboard_interactive st cfg n
  | Ready cfg => on_ready st cfg
  | Shell err s => on_shell st err s
  | Data d | StderrData d => on_data st d
  | StreamClosed => on_stream_close st
  | SshError m => on_error st m
  | Closed => on_close st
  end.

(** The events of a run, each with the calls it made. *)
Fixpoint run (st : Session) (evs : list Event) : list (Event * list Effect) :=
  match evs with
  | [] => []
  | ev :: rest => (ev, snd (step st ev)) :: run (fst (step st ev)) rest
  end.

Fixpoint final (st : Session) (evs : list Event) : Session :=
  match evs with
  | [] => st
  | ev :: rest => final (fst (step st ev)) rest
  end.

(** The first message run to its end, with nothing in between: [verify]
    answers the token check and [servers] is what [readServers()] returns. *)
Definition settle (verify : value -> bool) (servers : value)
    (st : Session) (e : Effect) : option (Session * list Effect) :=
  match e with
  | AwaitJwtVerify cfg t => Some (after_jwt st cfg (verify t))
  | AwaitReadServers cfg => Some (after_readServers st cfg servers)
  | _ => None
  end.

Definition handshake (verify : value -> bool) (servers : value)
    (st : Session) (raw : string) : Session * list Effect :=
  let '(st1, es1) := first_message st raw in
  match es1 with
  | [e1] =>
      match settle verify servers st1 e1 with
      | None => (st1, es1)
      | Some (st2, es2) =>
          match es2 with
          | [e2] =>
              match settle verify servers st2 e2 with
              | None => (st2, (es1 ++ es2)%list)
              | Some (st3, es3) => (st3, (es1 ++ es2 ++ es3)%list)
              end
          | _ => (st2, (es1 ++ es2)%list)
          end
      end
  | _ => (st1, es1)
  end.

End Connection.

(** ** Notions the statements below use *)

(** The payload parses as JSON with field [type] equal to ["resize"]. *)
Definition type_is_resize (raw : string) : bool :=
  match JSON_parse raw with
  | Some msg =>
      match JS.get msg "type" with
      | Some ty => JS.strict_eq ty (VStr "resize")
      | None => false
      end
  | None => false
  end.

(** Multiplying the frame's [cols] or [rows] throws. *)
Definition dimensions_throw (raw : string) : bool :=
  match JSON_parse raw with
  | Some msg =>
      Coerce.throws (JS.get_opt msg "cols") || Coerce.throws (JS.get_opt msg "rows")
  | None => false
  end.


(** [typeof v === 'number'] *)
Definition is_number (v : value) : bool :=
  match v with
  | VNum _ | VInf _ => true
  | _ => false
  end.

(** A resize frame that is malformed: JSON with [type] equal to
    ["resize"] in which [rows] or [cols] is not a number. *)
Definition malformed_resize (raw : string) : bool :=
  match JSON_parse raw with
  | Some msg =>
      type_is_resize raw
      && negb (is_number (JS.get_opt msg "rows")
               && is_number (JS.get_opt msg "cols"))
  | None => false
  end.

Definition is_close (e : Effect) : bool :=
  match e with WsClose _ _ => true | _ => false end.

Definition is_dial (e : Effect) : bool :=
  match e with SshConnect _ _ => true | _ => false end.

Definition is_lookup (e : Effect) : bool :=
  match e with AwaitReadServers _ => true | _ => false end.

Definition is_send (e : Effect) : bool :=
  match e with WsSend _ => true | _ => false end.

Definition is_await (e : Effect) : bool :=
  match e with
  | AwaitJwtVerify _ _ | AwaitReadServers _ => true
  | _ => false
  end.

(** The token check of the first message lets [cfg] through. *)
Definition token_accepted (env : Env) (verify : value -> bool) (cfg : value) : bool :=
  if USE_AUTH env then
    match JS.get cfg "token" with
    | Some t => JS.truthy t && verify t
    | None => false
    end
  else true.

(** Sample data: a session whose shell is up, one that is still dialing,
    the store and frames of the end-to-end scenarios. *)
Module Sample.

Definition env_default : Env :=
  {| env_USE_AUTH := None; env_ALLOWED_SSH_HOSTS := None |}.

Definition env_no_auth : Env :=
  {| env_USE_AUTH := Some "false"; env_ALLOWED_SSH_HOSTS := None |}.

Definition env_allow_list : Env :=
  {| env_USE_AUTH := Some "false"; env_ALLOWED_SSH_HOSTS := Some "10.0.0.2" |}.

Definition ready : Session :=
  {| ssh := Some 0%nat; stream := Some 0%nat; alive := true; clients := 1 |}.

Definition dialing : Session :=
  {| ssh := Some 0%nat; stream := None; alive := true; clients := 1 |}.

Definition target (id h : string) : value :=
  VObj [("id", VStr id); ("name", VStr "box"); ("host", VStr h);
        ("port", VNum 22); ("username", VStr "ada")].

Definition store : value := VArr [target "t1" "10.0.0.2"; target "t9" "10.0.0.9"].


(** Frames are written with ' where the payload has a double quote. *)
Definition json (s : string) : string :=
  let fix go (s : string) : string :=
    match s with
    | EmptyString => EmptyString
    | String c r => String (if Ascii.eqb c "'" then Json.quote else c) (go r)
    end in
  go s.

Definition other_frame : string := json "{'type':'other'}".

Definition resize_frame : string := json "{'type':'resize','rows':50,'cols':200}".

Definition cut_resize_frame : string := json "{'type':'resize','rows':50,".

Definition handshake_frame : string :=
  json "{'serverId':'t1','cols':120,'rows':40,'auth':{'password':'p'},'token':'good'}".

Definition handshake_no_token : string :=
  json "{'serverId':'t1','cols':120,'rows':40,'auth':{'password':'p'}}".

Definition handshake_missing : string := json "{'serverId':'missing'}".



Definition verify (t : value) : bool := JS.strict_eq t (VStr "good").

Definition cfg_no_token : value :=
  VObj [("serverId", VStr "t1"); ("cols", VNum 120); ("rows", VNum 40);
        ("auth", VObj [("password", VStr "p")])].

Definition store_file : string :=
  json "[
  {'id':'t1','name':'box','host':'10.0.0.2','port':22,'username':'ada'},
  {'id':'t9','name':'box','host':'10.0.0.9','port':22,'username':'ada'}
]".

End Sample.

(** ** More notions: the shell side, and runs of frames *)

(** A call on the shell stream. *)
Definition is_shell_call (e : Effect) : bool :=
  match e with
  | StreamWrite _ _ | StreamSetWindow _ _ _ _ _ | StreamClose _ => true
  | _ => false
  end.

(** The shell callback that hands over a stream. *)
Definition grants_shell (ev : Event) : bool :=
  match ev with
  | Shell None _ => true
  | _ => false
  end.

(** All the calls of a run, in order. *)
Definition calls (log : list (Event * list Effect)) : list Effect :=
  flat_map snd log.

(** A chunk of shell output: from stderr or from stdout. *)
Definition output (chunk : bool * string) : Event :=
  if fst chunk then StderrData (snd chunk) else Data (snd chunk).

(** A frame with its binary flag. *)
Definition frame_event (f : string * bool) : Event := Message (fst f) (snd f).

(** The scanner's state after [s]. *)
Fixpoint scan_to (m : Json.mode) (out : list Json.token) (s : string)
  : option (Json.mode * list Json.token) :=
  match s with
  | EmptyString => Some (m, out)
  | String c rest =>
      match Json.scan_char m out c with
      | Some (m', out') => scan_to m' out' rest
      | None => None
      end
  end.

(** A byte that no JSON text can end with, and none can begin with: a
    vertical tab or a form feed, or a byte of a character beyond ASCII. *)
Definition never_at_an_end (a : ascii) : bool :=
  (Str.ws1 a && negb (Json.is_ws a)) || (128 <=? Str.code a)%nat.

(** What the decoder has seen of the character it is inside. *)
Definition seen_of (st : Utf8.state) : string :=
  match st with
  | Utf8.Start => ""
  | Utf8.Inside seen _ _ _ => seen
  end.

(** The states the decoder gets into: inside a character it has seen the
    first byte, from 0xC0 on, and waits for a byte of 0x80..0xBF. *)
Definition decoder_ready (st : Utf8.state) : Prop :=
  match st with
  | Utf8.Start => True
  | Utf8.Inside seen _ lo hi =>
      (128 <= lo)%nat /\ (hi <= 191)%nat
      /\ exists l rest, seen = String l rest /\ (192 <= Str.code l)%nat
  end.

(** [readJSON()] of store.js on the bytes of [servers.json]. *)
Definition readJSON (file : string) : value :=
  match JSON_parse file with
  | Some data => data
  | None => VArr []
  end.

(** ** The REST routes of server.js and [requireAuth] *)

Module Rest.

(** What [express.json()] leaves in [req.body]: in its default, strict,
    mode a body that is not an object or an array is refused before the
    route runs, and a request without a JSON body has an empty object or
    nothing. *)
Inductive Body : Type :=
| NoBody
| ObjectBody (members : list (string * value))
| ArrayBody (elems : list value).

Definition body_value (b : Body) : value :=
  match b with
  | NoBody => VUndef
  | ObjectBody members => VObj members
  | ArrayBody elems => VArr elems
  end.

(** What [e.message] holds: the text of an [Error] the code throws, or the
    engine's text for a TypeError. *)
Inductive fault : Type :=
| Said (s : string)
| TypeError.

Inductive reply : Type :=
| Sent (status : Z) (body : value)    (* res.status(status).json(body) *)
| Failure (status : Z) (e : fault)    (* res.status(status).json({ error: e.message }) *)
| Unhandled.                          (* an exception leaves the route *)

(** [a ?? d] *)
Definition nullish_or (a d : value) : value :=
  match a with
  | VUndef | VNull => d
  | _ => a
  end.

Definition required : list string := ["name"; "host"; "username"].

(** [validateServerPayload(body, { partial })]; [None] when it returns. *)
Definition validateServerPayload (body : value) (partial : bool) : option fault :=
  match (if partial then None
         else find (fun k => negb (JS.truthy (JS.get_opt body k))) required) with
  | Some k => Some (Said ("Câmp lipsă: " ++ k))
  | None =>
      match JS.get_opt body "port" with
      | VUndef | VNull => None
      | port =>
          match ToNumber.Number port with
          | None => Some TypeError
          | Some p =>
              if ToNumber.isInteger p && ToNumber.in_port_range p then None
              else Some (Said "Port invalid")
          end
      end
  end.

(** [list.some(pred)]; [None] when [pred] throws. *)
Fixpoint some (pred : value -> option bool) (list : list value) : option bool :=
  match list with
  | [] => Some false
  | s :: rest =>
      match pred s with
      | None => None
      | Some true => Some true
      | Some false => some pred rest
      end
  end.

(** [s.host === t.host && s.username === t.username
     && (s.port ?? 22) === (t.port ?? 22)] for an object [t] that shares
    nothing with [s]. *)
Definition same_target (t s : value) : option bool :=
  match JS.get s "host" with
  | None => None
  | Some h =>
      Some (JS.strict_eq h (JS.get_opt t "host")
            && JS.strict_eq (JS.get_opt s "username") (JS.get_opt t "username")
            && JS.strict_eq (nullish_or (JS.get_opt s "port") (VNum 22))
                            (nullish_or (JS.get_opt t "port") (VNum 22)))
  end.

(** The [server] object of the POST route, as [JSON.stringify] writes it:
    a member whose value is [undefined] is left out. *)
Definition new_server (id : string) (body : value) : value :=
  VObj ([("id", VStr id);
         ("name", JS.get_opt body "name");
         ("host", JS.get_opt body "host");
         ("port", nullish_or (JS.get_opt body "port") (VNum 22));
         ("username", JS.get_opt body "username")]
        ++ match JS.get_opt body "tags" with
           | VArr tags => [("tags", VArr tags)]
           | _ => []
           end
        ++ match JS.get_opt body "note" with
           | VUndef | VNull => []
           | note => [("note", note)]
           end)%list.

(** [app.post('/api/servers', ...)], after [requireAuth]: the reply and,
    when the route writes, the list given to [writeServersAtomic].
    [servers] is what [readServers()] returned and [id] the new id. *)
Definition post_server (servers : value) (id : string) (body : Body)
  : reply * option (list value) :=
  match validateServerPayload (body_value body) false with
  | Some e => (Failure 400 e, None)
  | None =>
      match servers with
      | VArr list =>
          let server := new_server id (body_value body) in
          match some (same_target server) list with
          | None => (Failure 400 TypeError, None)
          | Some true =>
              (Failure 409 (Said "Server deja există (host+username+port)"), None)
          | Some false => (Sent 201 server, Some (list ++ [server])%list)
          end
      | _ => (Failure 400 TypeError, None)
      end
  end.

(** [list.findIndex(s => s.id === id)]: [Some None] is -1, [None] the
    TypeError. *)
Fixpoint findIndex (id : string) (list : list value) : option (option nat) :=
  match list with
  | [] => Some None
  | s :: rest =>
      match JS.get s "id" with
      | None => None
      | Some i =>
          if JS.strict_eq i (VStr id) then Some (Some O)
          else match findIndex id rest with
               | Some (Some n) => Some (Some (S n))
               | other => other
               end
      end
  end.

(** The members an array spreads into an object: its elements under
    their indices. *)
Fixpoint indexed (i : nat) (elems : list value) : list (string * value) :=
  match elems with
  | [] => []
  | e :: rest => (NilEmpty.string_of_uint (Nat.to_uint i), e) :: indexed (S i) rest
  end.

(** The members [...req.body] spreads. *)
Definition entries (body : Body) : list (string * value) :=
  match body with
  | NoBody => []
  | ObjectBody members => members
  | ArrayBody elems => indexed 0 elems
  end.

Definition members_of (v : value) : list (string * value) :=
  match v with
  | VObj members => members
  | _ => []
  end.

(** What the spread does with one member of [req.body]: the member takes
    its value where it stands in the new object, or is added to it. *)
Definition assign (members : list (string * value)) (kv : string * value)
  : list (string * value) :=
  Obj.define members kv.

(** [{ ...own, ...req.body }] *)
Definition merge (own : value) (body : Body) : value :=
  VObj (fold_left assign (entries body) (members_of own)).

Definition overrides (body : Body) (k : string) : bool :=
  match JS.lookup k (entries body) with
  | Some _ => true
  | None => false
  end.

(** The test of the PUT route on an element [s] other than the one that
    is being replaced. *)
Definition clash (merged s : value) : option bool :=
  match JS.get s "id", same_target merged s with
  | Some i, Some same => Some (negb (JS.strict_eq i (JS.get_opt merged "id")) && same)
  | _, _ => None
  end.

(** The same test on [own], the element [merged] was spread from: a
    member that [req.body] does not override is the very value [own]
    has, and equal to it whatever it is. *)
Definition clash_with_own (own : value) (body : Body) : bool :=
  let merged := merge own body in
  let same k :=
    if overrides body k
    then JS.strict_eq (JS.get_opt own k) (JS.get_opt merged k)
    else true in
  (if overrides body "id"
   then negb (JS.strict_eq (JS.get_opt own "id") (JS.get_opt merged "id"))
   else false)
  && same "host" && same "username"
  && (if overrides body "port"
      then JS.strict_eq (nullish_or (JS.get_opt own "port") (VNum 22))
                        (nullish_or (JS.get_opt merged "port") (VNum 22))
      else true).

(** [list.some(...)] of the PUT route; [pos] is the index of the head of
    [list] and [idx] the index that is being replaced. *)
Fixpoint put_conflict (own : value) (body : Body) (idx pos : nat)
    (list : list value) : option bool :=
  match list with
  | [] => Some false
  | s :: rest =>
      match (if Nat.eqb pos idx then Some (clash_with_own own body)
             else clash (merge own body) s) with
      | None => None
      | Some true => Some true
      | Some false => put_conflict own body idx (S pos) rest
      end
  end.

(** [list[idx] = v] for an index within the list. *)
Fixpoint replace_at (idx : nat) (v : value) (items : list value) : list value :=
  match items, idx with
  | [], _ => []
  | _ :: rest, O => v :: rest
  | s :: rest, S n => s :: replace_at n v rest
  end.

(** [app.put('/api/servers/:id', ...)], after [requireAuth]. *)
Definition put_server (servers : value) (id : string) (body : Body)
  : reply * option (list value) :=
  match validateServerPayload (body_value body) true with
  | Some e => (Failure 400 e, None)
  | None =>
      match servers with
      | VArr list =>
          match findIndex id list with
          | None => (Failure 400 TypeError, None)
          | Some None => (Failure 404 (Said "Server inexistent"), None)
          | Some (Some idx) =>
              let own := nth idx list VUndef in
              let merged := merge own body in
              match put_conflict own body idx 0 list with
              | None => (Failure 400 TypeError, None)
              | Some true =>
                  (Failure 409 (Said "Combinatie host+username+port deja folosită"),
                   None)
              | Some false => (Sent 200 merged, Some (replace_at idx merged list))
              end
          end
      | _ => (Failure 400 TypeError, None)
      end
  end.

(** [list.splice(idx, 1)] leaves [list] without its element at [idx]. *)
Fixpoint remove_at (idx : nat) (items : list value) : list value :=
  match items, idx with
  | [], _ => []
  | _ :: rest, O => rest
  | s :: rest, S n => s :: remove_at n rest
  end.

(** [app.delete('/api/servers/:id', ...)], after [requireAuth]; this route
    has no [try]. *)
Definition delete_server (servers : value) (id : string)
  : reply * option (list value) :=
  match servers with
  | VArr list =>
      match findIndex id list with
      | None => (Unhandled, None)
      | Some None => (Failure 404 (Said "Server inexistent"), None)
      | Some (Some idx) => (Sent 200 (nth idx list VUndef), Some (remove_at idx list))
      end
  | _ => (Unhandled, None)
  end.

(** [s.split(sep)] for a separator of one character; [cur] holds the
    current piece, last character first. *)
Fixpoint split_on (sep : ascii) (cur s : string) : list string :=
  match s with
  | EmptyString => [Json.rev_string "" cur]
  | String c rest =>
      if Ascii.eqb c sep
      then Json.rev_string "" cur :: split_on sep "" rest
      else split_on sep (String c cur) rest
  end.

(** [requireAuth] of auth.js: [None] when it calls [next()].  [verify]
    tells whether [jwt.verify(token, JWT_SECRET)] returns. *)
Definition requireAuth (verify : value -> bool) (authorization : option string)
  : option reply :=
  match authorization with
  | None => Some (Failure 401 (Said "No token"))
  | Some auth =>
      if String.prefix "Bearer " auth then
        let token := nth 1 (split_on " " "" auth) "" in
        if verify (VStr token) then None
        else Some (Failure 401 (Said "Invalid token"))
      else Some (Failure 401 (Said "No token"))
  end.

Inductive Request : Type :=
| GetServers
| PostServer (body : Body)
| PutServer (id : string) (body : Body)
| DeleteServer (id : string).

(** A request to [/api/servers]: [requireAuth], then the route on the
    store it reads from [file]; [id] is the id a POST would give. *)
Definition serve (verify : value -> bool) (authorization : option string)
    (file : string) (id : string) (req : Request) : reply * option (list value) :=
  match requireAuth verify authorization with
  | Some refusal => (refusal, None)
  | None =>
      let servers := readServers file in
      match req with
      | GetServers => (Sent 200 servers, None)
      | PostServer body => post_server servers id body
      | PutServer target body => put_server servers target body
      | DeleteServer target => delete_server servers target
      end
  end.

(** [deleteServer(id)] of store.js, inside its lock, on what [readJSON()]
    returned: the element it returns and the list it writes, or what it
    throws. *)
Definition deleteServer (data : value) (id : string)
  : fault + value * list value :=
  match data with
  | VArr list =>
      match findIndex id list with
      | Some (Some idx) => inr (nth idx list VUndef, remove_at idx list)
      | Some None => inl (Said "Server inexistent")
      | None => inl TypeError
      end
  | _ => inl TypeError
  end.

End Rest.

(** No two entries of the store have the same host, username and port
    (22 for an entry without one): the test of the POST route fails on
    every pair, the later entry against the earlier one. *)
Definition distinct_targets (list : list value) : Prop :=
  ForallOrdPairs (fun s t => Rest.same_target t s = Some false) list.

(** [s.id] can be read and is not [id]. *)
Definition other_id (id : string) (s : value) : Prop :=
  exists i, JS.get s "id" = Some i /\ JS.strict_eq i (VStr id) = false.

(** More sample data: request bodies. *)
Module RestSample.

Definition new_box : Rest.Body :=
  Rest.ObjectBody [("name", VStr "box"); ("host", VStr "10.0.0.7");
                   ("username", VStr "ada")].


Definition store_list : list value :=
  [Sample.target "t1" "10.0.0.2"; Sample.target "t9" "10.0.0.9"].

End RestSample.

(** ** The register and login routes of auth.js *)

Module Auth.

(** [users.find(u => u.email === email)]: the element found, [undefined]
    when there is none, and [None] for the TypeError of reading [email]
    off a null. *)
Fixpoint find_user (email : value) (users : list value) : option value :=
  match users with
  | [] => Some VUndef
  | u :: rest =>
      match JS.get u "email" with
      | None => None
      | Some e => if JS.strict_eq e email then Some u else find_user email rest
      end
  end.

(** An object literal as [JSON.stringify] writes it: members whose value
    is [undefined] are left out. *)
Definition object (members : list (string * value)) : value :=
  VObj (filter (fun m => match snd m with VUndef => false | _ => true end) members).

(** [{ id: user.id, email: user.email, name: user.name }], the payload of
    the token and the [user] of the reply. *)
Definition public (user : value) : value :=
  object [("id", JS.get_opt user "id");
          ("email", JS.get_opt user "email");
          ("name", JS.get_opt user "name")].

Section Routes.

(** [bcrypt.hash(password, 10)], [bcrypt.compare(password, hash)] and
    [jwt.sign(payload, JWT_SECRET, ...)]; [None] when they fail.  [hash]
    and [sign] stand for the call made while one request is served:
    [bcrypt.hash] salts at random and [jwt.sign] stamps the token with the
    time, so two requests have two of each. *)
Variable hash : value -> option string.
Variable compare : value -> value -> option bool.
Variable sign : value -> option string.

(** The reply both routes end with: [res.json({ token, user })]. *)
Definition welcome (user : value) : Rest.reply :=
  match sign (public user) with
  | Some token =>
      Rest.Sent 200 (VObj [("token", VStr token); ("user", public user)])
  | None => Rest.Unhandled
  end.

(** [router.post("/register", ...)] on the users that [readUsers()]
    returned; [now] is [Date.now().toString()].  The reply and, when the
    route writes, the list given to [writeUsers]. *)
Definition register (users : value) (now : string) (body : Rest.Body)
  : Rest.reply * option (list value) :=
  match Rest.body_value body with
  | VUndef => (Rest.Unhandled, None)
  | b =>
      let email := JS.get_opt b "email" in
      let password := JS.get_opt b "password" in
      if negb (JS.truthy email) || negb (JS.truthy password)
      then (Rest.Failure 400 (Rest.Said "Email + password required"), None)
      else
        match users with
        | VArr list =>
            match find_user email list with
            | None => (Rest.Unhandled, None)
            | Some found =>
                if JS.truthy found
                then (Rest.Failure 409 (Rest.Said "Email already registered"), None)
                else
                  match hash password with
                  | None => (Rest.Unhandled, None)
                  | Some hashed =>
                      let user :=
                        VObj [("id", VStr now); ("email", email);
                              ("password", VStr hashed);
                              ("name", JS.or (JS.get_opt b "name") (VStr ""))] in
                      (welcome user, Some (list ++ [user])%list)
                  end
            end
        | _ => (Rest.Unhandled, None)
        end
  end.

(** [router.post("/login", ...)]; it writes nothing. *)
Definition login (users : value) (body : Rest.Body) : Rest.reply :=
  match Rest.body_value body with
  | VUndef => Rest.Unhandled
  | b =>
      match users with
      | VArr list =>
          match find_user (JS.get_opt b "email") list with
          | None => Rest.Unhandled
          | Some user =>
              if negb (JS.truthy user)
              then Rest.Failure 401 (Rest.Said "Invalid credentials")
              else
                match compare (JS.get_opt b "password") (JS.get_opt user "password") with
                | None => Rest.Unhandled
                | Some false => Rest.Failure 401 (Rest.Said "Invalid credentials")
                | Some true => welcome user
                end
          end
      | _ => Rest.Unhandled
      end
  end.

End Routes.

(** No two users have the same email. *)
Definition distinct_emails (users : list value) : Prop :=
  ForallOrdPairs
    (fun u v => JS.strict_eq (JS.get_opt u "email") (JS.get_opt v "email") = false)
    users.

(** [u.email] can be read and is not [email]. *)
Definition other_email (email : value) (u : value) : Prop :=
  exists e, JS.get u "email" = Some e /\ JS.strict_eq e email = false.

End Auth.

(** Toy collaborators for the samples: a hash that puts ["#"] before the
    password, a compare that checks it, a signer that returns the id. *)
Module AuthSample.

Definition hash (password : value) : option string :=
  match password with
  | VStr p => Some ("#" ++ p)
  | _ => None
  end.

Definition compare (password hashed : value) : option bool :=
  match password, hashed with
  | VStr p, VStr h => Some (String.eqb ("#" ++ p) h)
  | _, _ => None
  end.

Definition sign (payload : value) : option string :=
  match JS.get_opt payload "id" with
  | VStr id => Some ("token-" ++ id)
  | _ => None
  end.


Definition ada : value :=
  VObj [("id", VStr "1"); ("email", VStr "ada@example.org");
        ("password", VStr "#secret"); ("name", VStr "Ada")].

Definition credentials (email password : string) : Rest.Body :=
  Rest.ObjectBody [("email", VStr email); ("password", VStr password)].

End AuthSample.

(** ** Properties *)

Ltac split_matches :=
  repeat match goal with
         | |- context [match ?x with _ => _ end] => destruct x
         | |- context [if ?b then _ else _] => destruct b
         end.

(** *** [JSON.parse] and [readServers] on samples *)

Example parse_object :
  JSON_parse Sample.resize_frame
  = Some (VObj [("type", VStr "resize"); ("rows", VNum 50); ("cols", VNum 200)]).
Proof. reflexivity. Qed.

Example parse_nested :
  JSON_parse (Sample.json " { 'a' : [1, -2.5, 3e2, [], {}, null, true], 'b':'x\u0041\n' } ")
  = Some (VObj [("a", VArr [VNum 1; VNum (-5 # 2); VNum 300; VArr []; VObj [];
                            VNull; VBool true]);
                ("b", VStr (String "x" (String "A" (String (ascii_of_nat 10) ""))))]).
Proof. reflexivity. Qed.

(** Numbers are read as [JSON.parse] reads them: rounded to binary64;
    beyond its range they are infinite, and below it zero. *)
Example parse_rounds :
  map JSON_parse
    ["9007199254740993"; "0.1"; "22.0000000000000000001"; "1e400"; "-1e400";
     "1e-400"; "-0"; "1.7976931348623158e308"; "5e-324"]
  = [Some (VNum 9007199254740992);
     Some (VNum (3602879701896397 # 36028797018963968));
     Some (VNum 22); Some (VInf false); Some (VInf true); Some (VNum 0);
     Some (VNum 0);
     Some (VNum (9007199254740991 * 2 ^ 971 # 1)%Z);
     Some (VNum (1 # Z.to_pos (2 ^ 1074)))].
Proof. vm_compute. reflexivity. Qed.

(** An escaped surrogate pair is the character it names, and the same
    string as that character written out; the members of an object come in
    the order JavaScript lists them. *)
Example parse_strings :
  JSON_parse (Sample.json "['\ud83d\ude00', '\ud83d', '\u00e9\u20ac']")
  = Some (VArr [VStr (Json.utf8 128512); VStr (Json.utf8 55357);
                VStr (Json.utf8 233 ++ Json.utf8 8364)])
  /\ JSON_parse (Sample.json "{'b':1,'1':2,'a':3,'0':4,'b':5,'01':6}")
     = Some (VObj [("0", VNum 4); ("1", VNum 2); ("b", VNum 5); ("a", VNum 3);
                   ("01", VNum 6)]).
Proof. split; reflexivity. Qed.

(** Bytes that are not UTF-8 decode to U+FFFD: one for a byte that begins
    no character, one for a character that is cut short, one for each byte
    of a surrogate written in three bytes; the bytes of a character are
    kept. *)
Example decode_replaces :
  let b (l : list nat) :=
    fold_right (fun n s => String (ascii_of_nat n) s) "" l in
  map (fun l => Utf8.decode (b l))
    [[255]; [240; 159; 152]; [226; 130; 65]; [237; 160; 128]; [192; 128];
     [226; 130; 172]; [240; 159; 152; 128]; [65; 194; 160; 66]]%nat
  = [Utf8.replacement; Utf8.replacement;
     (Utf8.replacement ++ "A")%string;
     (Utf8.replacement ++ Utf8.replacement ++ Utf8.replacement)%string;
     (Utf8.replacement ++ Utf8.replacement)%string;
     Json.utf8 8364; Json.utf8 128512; b [65; 194; 160; 66]%nat].
Proof. reflexivity. Qed.

(** The lookup compares what the handshake and the store read as: two
    numerals of one binary64 number, a character and its escapes, a byte
    that is not UTF-8 and U+FFFD are found; two numbers that differ are
    not. *)
Example lookup_compares_values :
  let found (handshake file : string) : option value :=
    match JSON_parse handshake, readServers file with
    | Some cfg, VArr targets => find_server cfg targets
    | _, _ => None
    end in
  found (Sample.json "{'serverId':9007199254740993}")
        (Sample.json "[{'id':9007199254740992}]")
  = Some (VObj [("id", VNum 9007199254740992)])
  /\ found (Sample.json "{'serverId':'\ud83d\ude00'}")
           (Sample.json "[{'id':'" ++ Json.utf8 128512 ++ Sample.json "'}]")
     = Some (VObj [("id", VStr (Json.utf8 128512))])
  /\ found (Sample.json "{'serverId':'" ++ String (ascii_of_nat 255) ""
              ++ Sample.json "'}")
           (Sample.json "[{'id':'\ufffd'}]")
     = Some (VObj [("id", VStr Utf8.replacement)])
  /\ found (Sample.json "{'serverId':9007199254740994}")
           (Sample.json "[{'id':9007199254740992}]")
     = Some VUndef.
Proof. vm_compute. repeat split; reflexivity. Qed.

(** The text of an array of numbers, each printed as JavaScript prints
    it. *)
Example number_texts :
  match JSON_parse
          "[0, 1, 100, -2.5, 0.0009765625, 0.1, 1e21, 1e20, 9007199254740993, 5e-324, 1.7976931348623157e308, 0.000001, 1e-7, 123456789012345678901, 0.30000000000000004, 4.35, 1e400, null, [1, [2]]]"
  with
  | Some v => Coerce.to_string v
  | None => None
  end
  = Some "0,1,100,-2.5,0.0009765625,0.1,1e+21,100000000000000000000,9007199254740992,5e-324,1.7976931348623157e+308,0.000001,1e-7,123456789012345680000,0.30000000000000004,4.35,Infinity,,1,2".
Proof. vm_compute. reflexivity. Qed.

Example parse_rejects :
  map JSON_parse
    ["ls"; ""; "01"; "1."; "-"; "+1"; ".5"; "1e"; "[1,]"; "[1 2]"; "{]"; "[}";
     "nul"; "truefalse"; "1 2"; Sample.json "{'a':1,}"; Sample.json "{'a' 1}";
     Sample.json "'abc"; Sample.json "{'a':1}}"; Sample.cut_resize_frame]
  = repeat None 20.
Proof. reflexivity. Qed.

Example parse_repeated_member :
  match JSON_parse (Sample.json "{'type':'data','type':'resize'}") with
  | Some msg => JS.get msg "type"
  | None => None
  end = Some (VStr "resize").
Proof. reflexivity. Qed.

Example readServers_store : readServers Sample.store_file = Sample.store.
Proof. reflexivity. Qed.

Example readServers_unreadable :
  map readServers ["";  "   "; "not json"] = repeat (VArr []) 3.
Proof. reflexivity. Qed.

Example ALLOWED_sample :
  ALLOWED {| env_USE_AUTH := None;
             env_ALLOWED_SSH_HOSTS := Some " 10.0.0.2 ,,example.org , " |}
  = ["10.0.0.2"; "example.org"].
Proof. reflexivity. Qed.

Lemma times_none_iff (v : value) (k : Q) :
  ToNumber.times v k = None <-> Coerce.throws v = true.
Proof.
  unfold ToNumber.times, ToNumber.Number.
  destruct (Coerce.throws v); [now split|].
  destruct (ToNumber.of_value v); split; discriminate.
Qed.

Lemma get_opt_of_get (v w : value) (k : string) :
  JS.get v k = Some w -> JS.get_opt v k = w.
Proof. unfold JS.get_opt. now intros ->. Qed.

(** The call of a resize is [setWindow] on the current stream. *)
Lemma resized_is_setWindow (st : Session) (raw : string) (e : Effect) :
  try_resize st raw = Resized e ->
  exists s rows cols height width,
    stream st = Some s /\ e = StreamSetWindow s rows cols height width.
Proof.
  unfold try_resize.
  destruct (JSON_parse raw) as [msg|]; [|discriminate].
  destruct (JS.get msg "type") as [ty|]; [|discriminate].
  destruct (JS.strict_eq ty (VStr "resize")); [|discriminate].
  destruct (stream st) as [s|]; [|discriminate].
  destruct (ToNumber.times (JS.get_opt msg "cols") 8); [|discriminate].
  destruct (ToNumber.times (JS.get_opt msg "rows") 16); [|discriminate].
  intros [= <-]. now eauto 8.
Qed.

(** A later message never touches the variables of the connection. *)
Lemma later_message_state (st : Session) (raw : string) :
  fst (later_message st raw) = st.
Proof. unfold later_message. now destruct (try_resize st raw). Qed.

(** With a shell stream, a later message is a resize exactly when its
    [type] is ["resize"] and its dimensions can be multiplied. *)
Lemma try_resize_with_stream (st : Session) (s : nat) (raw : string) :
  stream st = Some s ->
  (type_is_resize raw && negb (dimensions_throw raw) = true ->
   exists rows cols height width,
     try_resize st raw = Resized (StreamSetWindow s rows cols height width))
  /\ (type_is_resize raw && negb (dimensions_throw raw) = false ->
      try_resize st raw = NotResize \/ try_resize st raw = Threw).
Proof.
  intros Hs. unfold type_is_resize, dimensions_throw, try_resize.
  destruct (JSON_parse raw) as [msg|]; [|split; [discriminate | now right]].
  destruct (JS.get msg "type") as [ty|]; [|split; [discriminate | now right]].
  rewrite Hs.
  destruct (JS.strict_eq ty (VStr "resize")); [|split; [discriminate | now left]].
  simpl andb.
  destruct (ToNumber.times (JS.get_opt msg "cols") 8) as [h|] eqn:Hc.
  - destruct (ToNumber.times (JS.get_opt msg "rows") 16) as [w|] eqn:Hr.
    + split; [intros _; now eauto | ].
      destruct (Coerce.throws (JS.get_opt msg "cols")) eqn:Tc.
      { apply (times_none_iff _ 8) in Tc. congruence. }
      destruct (Coerce.throws (JS.get_opt msg "rows")) eqn:Tr.
      { apply (times_none_iff _ 16) in Tr. congruence. }
      discriminate.
    + apply times_none_iff in Hr. rewrite Hr, orb_true_r.
      split; [discriminate | now right].
  - apply times_none_iff in Hc. rewrite Hc.
    split; [discriminate | now right].
Qed.

(** C1 (as amended): while the shell stream exists, a frame received after
    the handshake whose payload parses as JSON with [type = "resize"], and
    whose [rows] and [cols] can be multiplied, is handled as a resize (one
    [setWindow], nothing written); every other frame, text or binary, is
    written to the shell stream byte for byte.  The text frame
    [{"type":"other"}] is written unchanged, and it is 16 bytes long. *)
Theorem C1_later_frame_resize_or_input
    (env : Env) (st : Session) (c s : nat) (raw : string) (isBinary : bool) :
  ssh st = Some c ->
  stream st = Some s ->
  (type_is_resize raw && negb (dimensions_throw raw) = true ->
   exists rows cols height width,
     step env st (Message raw isBinary)
     = (st, [StreamSetWindow s rows cols height width]))
  /\ (type_is_resize raw && negb (dimensions_throw raw) = false ->
      step env st (Message raw isBinary) = (st, [StreamWrite s raw]))
  /\ step env st (Message Sample.other_frame isBinary)
     = (st, [StreamWrite s Sample.other_frame])
  /\ String.length Sample.other_frame = 16%nat.
Proof.
  intros Hc Hs.
  assert (Hstep : forall r, step env st (Message r isBinary) = later_message st r).
  { intros r. simpl. unfold on_message. now rewrite Hc. }
  destruct (try_resize_with_stream st s raw Hs) as [Hyes Hno].
  repeat split.
  - intros H. destruct (Hyes H) as (rows & cols & h & w & E).
    exists rows, cols, h, w. rewrite Hstep. unfold later_message. now rewrite E.
  - intros H. rewrite Hstep. unfold later_message, write_input. rewrite Hs.
    destruct (Hno H) as [E|E]; now rewrite E.
  - rewrite Hstep. unfold later_message, write_input, try_resize.
    rewrite Hs. reflexivity.
Qed.

Lemma C1_later_frame_witness :
  step Sample.env_default Sample.ready (Message Sample.resize_frame false)
  = (Sample.ready,
     [StreamSetWindow 0 (VNum 50) (VNum 200) (Num (200 * 8)) (Num (50 * 16))])
  /\ step Sample.env_default Sample.ready (Message "ls" true)
     = (Sample.ready, [StreamWrite 0 "ls"]).
Proof.
  destruct (C1_later_frame_resize_or_input Sample.env_default Sample.ready
              0 0 "ls" true eq_refl eq_refl) as (_ & Hno & _).
  split; [reflexivity | exact (Hno eq_refl)].
Defined.

(** C1 as written fails: the payload of [{"type":"other"}] that reaches the
    shell is not 14 bytes long. *)
Lemma C1_other_frame_not_14_bytes :
  ~ (exists payload,
        snd (step Sample.env_default Sample.ready (Message Sample.other_frame false))
        = [StreamWrite 0 payload]
        /\ String.length payload = 14%nat).
Proof.
  intros (payload & H & L). vm_compute in H.
  injection H as <-. vm_compute in L. discriminate.
Qed.

(** C2 as written fails: a frame that opens a session when it comes first
    is, once the shell is up, written to the shell as input; the client is
    not closed and the connection is left as it was. *)
Lemma C2_second_handshake_reaches_shell :
  filter is_dial
    (snd (handshake Sample.env_default Sample.verify Sample.store connection
            Sample.handshake_frame)) <> []
  /\ step Sample.env_default Sample.ready (Message Sample.handshake_frame false)
     = (Sample.ready, [StreamWrite 0 Sample.handshake_frame])
  /\ filter is_close
       (snd (step Sample.env_default Sample.ready
               (Message Sample.handshake_frame false))) = [].
Proof.
  split; [discriminate|]. split; reflexivity.
Qed.

(** C2 (as amended): once the SSH client object exists no later frame is
    read as a handshake: the variables of the connection stay as they are,
    nothing is looked up, dialed or closed, and a frame that is a JSON
    SessionConfig (it parses, and its [type] is not ["resize"]) is handled as
    input: written to the shell unchanged when the shell stream exists,
    dropped when it does not. *)
Theorem C2_later_handshake_is_input
    (env : Env) (st : Session) (c : nat) (raw : string) (isBinary : bool) :
  ssh st = Some c ->
  fst (step env st (Message raw isBinary)) = st
  /\ (forall e, In e (snd (step env st (Message raw isBinary))) ->
        (exists s, stream st = Some s /\ e = StreamWrite s raw)
        \/ (exists s rows cols height width,
              stream st = Some s /\ e = StreamSetWindow s rows cols height width))
  /\ (forall cfg, JSON_parse raw = Some cfg -> type_is_resize raw = false ->
        snd (step env st (Message raw isBinary))
        = match stream st with
          | Some s => [StreamWrite s raw]
          | None => []
          end).
Proof.
  intros Hc.
  assert (Hstep : step env st (Message raw isBinary) = later_message st raw).
  { simpl. unfold on_message. now rewrite Hc. }
  rewrite Hstep. split; [apply later_message_state|]. split.
  - unfold later_message, write_input.
    destruct (try_resize st raw) as [e| |] eqn:E; simpl.
    + intros e' [<-|[]]. right.
      destruct (resized_is_setWindow st raw e E) as (s & r & cl & h & w & Hs & ->).
      now eauto 8.
    + destruct (stream st) as [s|]; simpl; [|tauto].
      intros e' [<-|[]]. left. now eauto.
    + destruct (stream st) as [s|]; simpl; [|tauto].
      intros e' [<-|[]]. left. now eauto.
  - intros cfg Hp Ht. unfold type_is_resize in Ht.
    unfold later_message, try_resize, write_input. rewrite Hp in *.
    destruct (JS.get cfg "type") as [ty|]; [|reflexivity].
    rewrite Ht. reflexivity.
Qed.

Lemma C2_later_handshake_witness :
  fst (step Sample.env_default Sample.dialing (Message Sample.handshake_frame false))
  = Sample.dialing
  /\ snd (step Sample.env_default Sample.dialing (Message Sample.handshake_frame false))
     = [].
Proof.
  destruct (C2_later_handshake_is_input Sample.env_default Sample.dialing 0
              Sample.handshake_frame false eq_refl) as (H1 & _ & H3).
  split; [exact H1|].
  exact (H3 _ eq_refl eq_refl).
Defined.

(** C3: while the shell stream exists, a resize frame, a JSON object with
    [type = "resize"] and numbers [rows] and [cols], makes exactly one
    [setWindow] call, with [rows], [cols] and the products [cols * 8] and
    [rows * 16] (each the binary64 value nearest to the product, as
    JavaScript computes it), and writes nothing to the shell; for
    [rows = 50], [cols = 200] the call carries (50, 200, 1600, 800). *)
Theorem C3_resize_sets_window
    (env : Env) (st : Session) (c s : nat) (raw : string) (isBinary : bool)
    (msg : value) (rows cols : Q) :
  ssh st = Some c ->
  stream st = Some s ->
  JSON_parse raw = Some msg ->
  JS.get msg "type" = Some (VStr "resize") ->
  JS.get msg "rows" = Some (VNum rows) ->
  JS.get msg "cols" = Some (VNum cols) ->
  step env st (Message raw isBinary)
  = (st, [StreamSetWindow s (VNum rows) (VNum cols)
            (Binary64.round (cols * 8)) (Binary64.round (rows * 16))])
  /\ step env st (Message Sample.resize_frame isBinary)
     = (st, [StreamSetWindow s (VNum 50) (VNum 200) (Num 1600) (Num 800)]).
Proof.
  intros Hc Hs Hp Ht Hr Hcl.
  split.
  - simpl. unfold on_message. rewrite Hc.
    unfold later_message, try_resize. rewrite Hp, Ht, Hs. simpl JS.strict_eq.
    rewrite (get_opt_of_get _ _ _ Hr), (get_opt_of_get _ _ _ Hcl).
    reflexivity.
  - simpl. unfold on_message. rewrite Hc.
    unfold later_message, try_resize. rewrite Hs. reflexivity.
Qed.

Lemma C3_resize_witness :
  step Sample.env_default Sample.ready (Message Sample.resize_frame false)
  = (Sample.ready,
     [StreamSetWindow 0 (VNum 50) (VNum 200) (Num 1600) (Num 800)]).
Proof.
  exact (proj2 (C3_resize_sets_window Sample.env_default Sample.ready 0 0
                  Sample.resize_frame false _ 50 200
                  eq_refl eq_refl eq_refl eq_refl eq_refl eq_refl)).
Defined.

(** C8 as written fails: the frame [{"type":"resize"}], a resize without
    its dimensions, is acted on as a control frame ([setWindow] is called,
    with [undefined] and NaN) and its payload is not written to the
    shell. *)
Lemma C8_resize_without_dimensions_is_acted_on :
  malformed_resize (Sample.json "{'type':'resize'}") = true
  /\ step Sample.env_default Sample.ready
       (Message (Sample.json "{'type':'resize'}") false)
     = (Sample.ready, [StreamSetWindow 0 VUndef VUndef NaN NaN])
  /\ ~ In (StreamWrite 0 (Sample.json "{'type':'resize'}"))
         (snd (step Sample.env_default Sample.ready
                 (Message (Sample.json "{'type':'resize'}") false))).
Proof.
  split; [reflexivity|]. split; [reflexivity|].
  intros [H|[]]. discriminate H.
Qed.



(** [ssh] is set only after [readServers()] has returned: two handshake
    frames that arrive before that are both read as a first message, and
    both dial. *)
Lemma two_handshakes_before_the_lookup :
  map (fun r => filter is_dial (snd r))
    (run Sample.env_no_auth connection
       [Message Sample.handshake_no_token false;
        Message Sample.handshake_no_token false;
        ServersRead Sample.cfg_no_token Sample.store_file;
        ServersRead Sample.cfg_no_token Sample.store_file])
  = [[]; [];
     [SshConnect 0
        {| host := VStr "10.0.0.2"; port := VNum 22; username := VStr "ada";
           password := VStr "p"; privateKey := VUndef; tryKeyboard := true |}];
     [SshConnect 1
        {| host := VStr "10.0.0.2"; port := VNum 22; username := VStr "ada";
           password := VStr "p"; privateKey := VUndef; tryKeyboard := true |}]].
Proof. reflexivity. Qed.

(** C10: between the handshake and the shell (the SSH client object exists,
    the shell stream does not) every frame is dropped: no window change, no
    write, no close, no change to the connection, and the run goes on as if
    the frame had not come. *)
Theorem C10_frames_dropped_while_dialing
    (env : Env) (st : Session) (c : nat) (raw : string) (isBinary : bool) :
  ssh st = Some c ->
  stream st = None ->
  step env st (Message raw isBinary) = (st, [])
  /\ (forall evs,
        run env st (Message raw isBinary :: evs)
        = (Message raw isBinary, []) :: run env st evs)
  /\ (forall evs,
        final env st (Message raw isBinary :: evs) = final env st evs).
Proof.
  intros Hc Hs.
  assert (E : step env st (Message raw isBinary) = (st, [])).
  { simpl. unfold on_message. rewrite Hc.
    unfold later_message, try_resize, write_input. rewrite Hs.
    destruct (JSON_parse raw) as [msg|]; [|reflexivity].
    destruct (JS.get msg "type") as [ty|]; [|reflexivity].
    destruct (JS.strict_eq ty (VStr "resize")); reflexivity. }
  split; [exact E|]. split; intros evs.
  - cbn [run]. now rewrite E.
  - cbn [final]. now rewrite E.
Qed.

Lemma C10_frames_dropped_witness :
  step Sample.env_default Sample.dialing (Message Sample.resize_frame false)
  = (Sample.dialing, [])
  /\ step Sample.env_default Sample.dialing (Message "ls" true)
     = (Sample.dialing, []).
Proof.
  split.
  - exact (proj1 (C10_frames_dropped_while_dialing Sample.env_default
                    Sample.dialing 0 Sample.resize_frame false eq_refl eq_refl)).
  - exact (proj1 (C10_frames_dropped_while_dialing Sample.env_default
                    Sample.dialing 0 "ls" true eq_refl eq_refl)).
Defined.

(** *** Liveness *)

Lemma no_send_in (l : list Effect) (d : string) :
  filter is_send l = [] -> ~ In (WsSend d) l.
Proof.
  intros E Hin.
  assert (H : In (WsSend d) (filter is_send l)) by (apply filter_In; now split).
  now rewrite E in H.
Qed.

(** The only [ws.send] that is not behind [alive] is the diagnostic line
    of the SSH error handler. *)
Lemma send_while_not_alive (env : Env) (st : Session) (ev : Event) (d : string) :
  alive st = false ->
  In (WsSend d) (snd (step env st ev)) ->
  exists m, ev = SshError m
            /\ d = (Str.crlf ++ "[SSH ERROR] " ++ m ++ Str.crlf)%string.
Proof.
  intros Ha Hin.
  destruct ev as [raw b|cfg ok|cfg file|cfg n|cfg|err s|x|x| |m| ];
    [exfalso; revert Hin; apply no_send_in; simpl .. | | ];
    [ | | | | | | | | | |exfalso; revert Hin; apply no_send_in; simpl].
  - unfold on_message, first_message, later_message, write_input.
    destruct (ssh st); [|split_matches; reflexivity].
    destruct (try_resize st raw) as [e| |] eqn:E;
      [|split_matches; reflexivity ..].
    destruct (resized_is_setWindow st raw e E) as (s & r & cl & h & w & _ & ->).
    reflexivity.
  - unfold after_jwt. split_matches; reflexivity.
  - unfold after_readServers, ws_close. split_matches; reflexivity.
  - unfold on_keyboard_interactive. split_matches; reflexivity.
  - unfold on_ready. split_matches; reflexivity.
  - unfold on_shell, ws_close. split_matches; reflexivity.
  - now rewrite Ha.
  - now rewrite Ha.
  - reflexivity.
  - destruct Hin as [H|[H|[]]]; [|discriminate]. injection H as <-. now eauto.
  - split_matches; reflexivity.
Qed.

(** No callback sets [alive] again. *)
Lemma alive_stays_false (env : Env) (st : Session) (ev : Event) :
  alive st = false -> alive (fst (step env st ev)) = false.
Proof.
  intros Ha. destruct ev; simpl; try assumption; try reflexivity.
  - unfold on_message, first_message, later_message.
    split_matches; simpl; assumption.
  - unfold after_jwt. split_matches; assumption.
  - unfold after_readServers, ws_close. split_matches; simpl; assumption.
  - unfold on_keyboard_interactive. split_matches; assumption.
  - unfold on_ready. split_matches; assumption.
  - unfold on_shell, ws_close. split_matches; simpl; assumption.
Qed.

Lemma run_not_alive (env : Env) (evs : list Event) :
  forall st, alive st = false ->
  forall ev effs, In (ev, effs) (run env st evs) ->
    (forall d, ev = Data d \/ ev = StderrData d -> effs = [])
    /\ (forall d, In (WsSend d) effs -> exists m, ev = SshError m).
Proof.
  induction evs as [|e rest IH]; intros st Ha ev effs Hin; [destruct Hin|].
  destruct Hin as [Heq|Hin].
  - injection Heq as <- <-. split.
    + intros d [->| ->]; simpl; now rewrite Ha.
    + intros d Hd. destruct (send_while_not_alive env st e d Ha Hd) as (m & -> & _).
      now eauto.
  - exact (IH _ (alive_stays_false env st e Ha) ev effs Hin).
Qed.

(** C4: once the close of the client transport has been seen ([alive] is
    cleared by the close handler and never set again), data from the shell
    stream, stdout or stderr, is dropped: in every run that follows, a data
    event makes no call at all, and the only [ws.send] left is the line of
    the SSH error handler. *)
Theorem C4_no_shell_data_after_close
    (env : Env) (st : Session) (evs : list Event) :
  alive (fst (step env st Closed)) = false
  /\ alive (final env (fst (step env st Closed)) evs) = false
  /\ forall ev effs,
       In (ev, effs) (run env (fst (step env st Closed)) evs) ->
       (forall d, ev = Data d \/ ev = StderrData d -> effs = [])
       /\ (forall d, In (WsSend d) effs -> exists m, ev = SshError m).
Proof.
  assert (Ha : alive (fst (step env st Closed)) = false) by reflexivity.
  split; [exact Ha|]. split.
  - revert Ha. generalize (fst (step env st Closed)).
    induction evs as [|e rest IH]; intros s Ha; [exact Ha|].
    cbn [final]. apply IH. now apply alive_stays_false.
  - now apply run_not_alive.
Qed.

(** *** The first message *)

Lemma settle_not_await (env : Env) verify servers st e :
  is_await e = false -> settle env verify servers st e = None.
Proof. destruct e; simpl; congruence. Qed.

(** After [readServers()] the handler makes one more call and ends. *)
Lemma after_readServers_ends (env : Env) (st : Session) (cfg servers : value) :
  exists e, snd (after_readServers env st cfg servers) = [e] /\ is_await e = false.
Proof.
  unfold after_readServers, ws_close. split_matches; simpl; now eauto.
Qed.

Lemma handshake_after_lookup (env : Env) verify servers st raw cfg :
  first_message env st raw = (st, [AwaitReadServers cfg]) ->
  handshake env verify servers st raw
  = (fst (after_readServers env st cfg servers),
     AwaitReadServers cfg :: snd (after_readServers env st cfg servers)).
Proof.
  intros E. unfold handshake. rewrite E. cbn [settle].
  destruct (after_readServers_ends env st cfg servers) as (e & He & Hna).
  destruct (after_readServers env st cfg servers) as [st2 es2].
  simpl in He |- *. subst es2.
  now rewrite (settle_not_await env verify servers st2 e Hna).
Qed.

Lemma handshake_after_verify (env : Env) verify servers st raw cfg t :
  first_message env st raw = (st, [AwaitJwtVerify cfg t]) ->
  handshake env verify servers st raw
  = if verify t
    then (fst (after_readServers env st cfg servers),
          AwaitJwtVerify cfg t :: AwaitReadServers cfg
            :: snd (after_readServers env st cfg servers))
    else (st, [AwaitJwtVerify cfg t; close1008 "JWT invalid"]).
Proof.
  intros E. unfold handshake. rewrite E. cbn [settle]. unfold after_jwt.
  destruct (verify t); [|reflexivity].
  cbn [settle].
  destruct (after_readServers env st cfg servers) as [st3 es3]. reflexivity.
Qed.

Lemma USE_AUTH_false_iff (env : Env) :
  USE_AUTH env = false <-> env_USE_AUTH env = Some "false".
Proof.
  unfold USE_AUTH. destruct (env_USE_AUTH env) as [s|].
  - rewrite negb_false_iff, String.eqb_eq. split; congruence.
  - split; discriminate.
Qed.

(** C5: the token check has two modes, chosen by the environment alone.
    With [USE_AUTH] set to the string ["false"] the check is off: the
    handler goes from parsing straight to the target lookup, token or no
    token.  In every other case it is on: a handshake whose token is
    missing, or present and refused by the verifier, closes the client
    with 1008 and ["JWT invalid"], and neither looks up a target nor
    dials. *)
Theorem C5_token_check_modes
    (env : Env) (verify : value -> bool) (servers : value)
    (st : Session) (raw : string) (cfg : value) :
  JSON_parse raw = Some cfg ->
  (USE_AUTH env = false <-> env_USE_AUTH env = Some "false")
  /\ (USE_AUTH env = false ->
        first_message env st raw = (st, [AwaitReadServers cfg])
        /\ handshake env verify servers st raw
           = (fst (after_readServers env st cfg servers),
              AwaitReadServers cfg :: snd (after_readServers env st cfg servers)))
  /\ (USE_AUTH env = true ->
        (JS.get cfg "token" = None
         \/ exists t, JS.get cfg "token" = Some t /\ JS.truthy t = false) ->
        handshake env verify servers st raw = (st, [close1008 "JWT invalid"]))
  /\ (USE_AUTH env = true ->
        forall t, JS.get cfg "token" = Some t -> JS.truthy t = true ->
        verify t = false ->
        handshake env verify servers st raw
        = (st, [AwaitJwtVerify cfg t; close1008 "JWT invalid"]))
  /\ (USE_AUTH env = true -> token_accepted env verify cfg = false ->
        fst (handshake env verify servers st raw) = st
        /\ filter is_close (snd (handshake env verify servers st raw))
           = [close1008 "JWT invalid"]
        /\ filter is_lookup (snd (handshake env verify servers st raw)) = []
        /\ filter is_dial (snd (handshake env verify servers st raw)) = []).
Proof.
  intros Hp. split; [apply USE_AUTH_false_iff|].
  assert (Hmissing : USE_AUTH env = true ->
            (JS.get cfg "token" = None
             \/ exists t, JS.get cfg "token" = Some t /\ JS.truthy t = false) ->
            handshake env verify servers st raw = (st, [close1008 "JWT invalid"])).
  { intros Hon Hm.
    assert (E : first_message env st raw = (st, [close1008 "JWT invalid"])).
    { unfold first_message. rewrite Hp, Hon.
      destruct Hm as [-> | (t & -> & ->)]; reflexivity. }
    unfold handshake. now rewrite E. }
  assert (Hrefused : USE_AUTH env = true ->
            forall t, JS.get cfg "token" = Some t -> JS.truthy t = true ->
            verify t = false ->
            handshake env verify servers st raw
            = (st, [AwaitJwtVerify cfg t; close1008 "JWT invalid"])).
  { intros Hon t Ht Htr Hv.
    rewrite (handshake_after_verify env verify servers st raw cfg t).
    + now rewrite Hv.
    + unfold first_message. now rewrite Hp, Hon, Ht, Htr. }
  split; [|split; [exact Hmissing|split; [exact Hrefused|]]].
  - intros Hoff.
    assert (E : first_message env st raw = (st, [AwaitReadServers cfg])).
    { unfold first_message. now rewrite Hp, Hoff. }
    split; [exact E|]. now apply handshake_after_lookup.
  - intros Hon Hacc. unfold token_accepted in Hacc. rewrite Hon in Hacc.
    destruct (JS.get cfg "token") as [t|] eqn:Ht.
    + destruct (JS.truthy t) eqn:Htr.
      * rewrite (Hrefused Hon t eq_refl Htr Hacc). now repeat split.
      * rewrite (Hmissing Hon (or_intror (ex_intro _ t (conj eq_refl Htr)))).
        now repeat split.
    + rewrite (Hmissing Hon (or_introl eq_refl)). now repeat split.
Qed.

Lemma C5_token_check_witness :
  handshake Sample.env_no_auth Sample.verify Sample.store connection
    Sample.handshake_no_token
  = ({| ssh := Some 0%nat; stream := None; alive := true; clients := 1 |},
     [AwaitReadServers Sample.cfg_no_token;
      SshConnect 0
        {| host := VStr "10.0.0.2"; port := VNum 22; username := VStr "ada";
           password := VStr "p"; privateKey := VUndef; tryKeyboard := true |}])
  /\ handshake Sample.env_default Sample.verify Sample.store connection
       Sample.handshake_no_token
     = (connection, [close1008 "JWT invalid"]).
Proof.
  split.
  - destruct (C5_token_check_modes Sample.env_no_auth Sample.verify Sample.store
                connection Sample.handshake_no_token _ eq_refl)
      as (_ & Hoff & _).
    exact (proj2 (Hoff eq_refl)).
  - destruct (C5_token_check_modes Sample.env_default Sample.verify Sample.store
                connection Sample.handshake_no_token _ eq_refl)
      as (_ & _ & Hmissing & _ & _).
    exact (Hmissing eq_refl
             (or_intror (ex_intro _ VUndef (conj eq_refl eq_refl)))).
Defined.

Lemma awaits_are_quiet (awaits rest : list Effect) :
  Forall (fun e => is_await e = true) awaits ->
  filter is_close (awaits ++ rest) = filter is_close rest
  /\ filter is_dial (awaits ++ rest) = filter is_dial rest.
Proof.
  induction 1 as [|e l He _ IH]; [now split|].
  destruct e; try discriminate; simpl; exact IH.
Qed.

(** The first message run to its end: the awaits it went through, then
    either the close of a refused token or what follows the lookup. *)
Lemma handshake_outcome (env : Env) verify servers st raw cfg :
  JSON_parse raw = Some cfg ->
  exists awaits,
    Forall (fun e => is_await e = true) awaits
    /\ handshake env verify servers st raw
       = if token_accepted env verify cfg
         then (fst (after_readServers env st cfg servers),
               (awaits ++ snd (after_readServers env st cfg servers))%list)
         else (st, (awaits ++ [close1008 "JWT invalid"])%list).
Proof.
  intros Hp. unfold token_accepted.
  destruct (USE_AUTH env) eqn:Hu.
  - destruct (JS.get cfg "token") as [t|] eqn:Ht.
    + destruct (JS.truthy t) eqn:Htr.
      * assert (E : first_message env st raw = (st, [AwaitJwtVerify cfg t])).
        { unfold first_message. now rewrite Hp, Hu, Ht, Htr. }
        rewrite (handshake_after_verify env verify servers st raw cfg t E).
        simpl andb. destruct (verify t).
        -- exists [AwaitJwtVerify cfg t; AwaitReadServers cfg].
           split; [repeat constructor | reflexivity].
        -- exists [AwaitJwtVerify cfg t]. split; [repeat constructor | reflexivity].
      * exists []. split; [constructor|].
        unfold handshake, first_message. now rewrite Hp, Hu, Ht, Htr.
    + exists []. split; [constructor|].
      unfold handshake, first_message. now rewrite Hp, Hu, Ht.
  - exists [AwaitReadServers cfg]. split; [repeat constructor|].
    apply handshake_after_lookup. unfold first_message. now rewrite Hp, Hu.
Qed.

Lemma find_server_no_match (cfg sid : value) (targets : list value) :
  JS.get cfg "serverId" = Some sid ->
  Forall (fun s => exists i, JS.get s "id" = Some i /\ JS.strict_eq i sid = false)
         targets ->
  find_server cfg targets = Some VUndef.
Proof.
  intros Hsid. induction 1 as [|s l (i & Hi & Hne) _ IH]; [reflexivity|].
  simpl. now rewrite Hi, Hsid, Hne.
Qed.

(** C6 as written fails: with the token check on (the default) a handshake
    for an unknown target that carries no token is closed with
    ["JWT invalid"], not ["Server necunoscut"]. *)
Lemma C6_unknown_target_without_token :
  handshake Sample.env_default Sample.verify Sample.store connection
    Sample.handshake_missing
  = (connection, [close1008 "JWT invalid"])
  /\ ~ In (close1008 "Server necunoscut")
         (snd (handshake Sample.env_default Sample.verify Sample.store connection
                 Sample.handshake_missing)).
Proof.
  split; [reflexivity|].
  intros [H|[]]. discriminate H.
Qed.

(** C6 (as amended): a handshake whose [serverId] matches no target of the
    store never dials and leaves the connection as it was; the client is
    closed once, with code 1008, and the reason is ["Server necunoscut"]
    when the token check is off or lets the handshake through, and
    ["JWT invalid"] when the token check, which comes first, refuses it. *)
Theorem C6_unknown_target_closes
    (env : Env) (verify : value -> bool) (st : Session) (raw : string)
    (cfg sid : value) (targets : list value) :
  JSON_parse raw = Some cfg ->
  JS.get cfg "serverId" = Some sid ->
  Forall (fun s => exists i, JS.get s "id" = Some i /\ JS.strict_eq i sid = false)
         targets ->
  fst (handshake env verify (VArr targets) st raw) = st
  /\ filter is_dial (snd (handshake env verify (VArr targets) st raw)) = []
  /\ filter is_close (snd (handshake env verify (VArr targets) st raw))
     = [close1008 (if token_accepted env verify cfg
                   then "Server necunoscut" else "JWT invalid")].
Proof.
  intros Hp Hsid Hno.
  destruct (handshake_outcome env verify (VArr targets) st raw cfg Hp)
    as (awaits & Haw & ->).
  assert (E : after_readServers env st cfg (VArr targets)
              = (st, [close1008 "Server necunoscut"])).
  { unfold after_readServers.
    now rewrite (find_server_no_match cfg sid targets Hsid Hno). }
  destruct (token_accepted env verify cfg); [rewrite E|]; simpl fst; simpl snd;
    destruct (awaits_are_quiet awaits [close1008 "Server necunoscut"] Haw) as [C1 D1];
    destruct (awaits_are_quiet awaits [close1008 "JWT invalid"] Haw) as [C2 D2];
    repeat split; assumption.
Qed.

Lemma C6_unknown_target_witness :
  filter is_close
    (snd (handshake Sample.env_no_auth Sample.verify Sample.store connection
            Sample.handshake_missing))
  = [close1008 "Server necunoscut"].
Proof.
  refine (proj2 (proj2 (C6_unknown_target_closes Sample.env_no_auth Sample.verify
                          connection Sample.handshake_missing _ (VStr "missing")
                          _ eq_refl eq_refl _))).
  repeat constructor; eexists; split; reflexivity.
Defined.

(** *** The host allow-list *)

Lemma string_app_assoc (a b c : string) :
  ((a ++ b) ++ c = a ++ (b ++ c))%string.
Proof. induction a as [|x r IH]; simpl; congruence. Qed.

Lemma string_app_empty (a : string) : (a ++ "")%string = a.
Proof. induction a as [|x r IH]; simpl; congruence. Qed.

Lemma rev_string_acc (s acc : string) :
  Json.rev_string acc s = (Json.rev_string "" s ++ acc)%string.
Proof.
  revert acc. induction s as [|c r IH]; intros acc; [reflexivity|].
  simpl. rewrite IH, (IH (String c "")).
  now rewrite string_app_assoc.
Qed.

Lemma rev_string_app (a b : string) :
  Json.rev_string "" (a ++ b)
  = (Json.rev_string "" b ++ Json.rev_string "" a)%string.
Proof.
  induction a as [|c r IH]; simpl.
  - now rewrite string_app_empty.
  - rewrite (rev_string_acc (r ++ b)), IH, (rev_string_acc r (String c "")).
    now rewrite string_app_assoc.
Qed.

Lemma rev_string_involutive (s : string) :
  Json.rev_string "" (Json.rev_string "" s) = s.
Proof.
  induction s as [|c r IH]; [reflexivity|].
  simpl. rewrite (rev_string_acc r), rev_string_app, IH. reflexivity.
Qed.





Lemma leading_ws_prefix (back : bool) (u v : string) :
  Str.leading_ws back (u ++ v) = false -> Str.leading_ws back u = false.
Proof.
  destruct u as [|a [|b [|c u]]]; simpl; try easy.
  - destruct (Str.ws1 a); [|reflexivity].
    now destruct v as [|b [|c v]].
  - destruct (Str.ws1 a || (if back then Str.ws2 b a else Str.ws2 a b));
      [|reflexivity].
    now destruct v as [|c v].
Qed.

Ltac bools H :=
  repeat (rewrite orb_true_iff in H || rewrite andb_true_iff in H
          || rewrite orb_false_iff in H || rewrite andb_false_iff in H
          || rewrite Nat.eqb_eq in H || rewrite Nat.eqb_neq in H
          || rewrite Nat.leb_le in H || rewrite Nat.leb_gt in H
          || rewrite Nat.ltb_lt in H || rewrite Nat.ltb_ge in H).

Lemma strip_fixed (back : bool) (s : string) :
  Str.leading_ws back s = false -> Str.strip back s = s.
Proof.
  destruct s as [|a [|b [|c r]]]; cbn [Str.leading_ws Str.strip]; intros H;
    bools H; try reflexivity.
  - now rewrite H.
  - destruct H as (-> & ->). reflexivity.
  - destruct H as ((-> & ->) & ->). reflexivity.
Qed.














(** *** The shell *)

Lemma or_number (q d : Q) :
  JS.or (VNum q) (VNum d) = VNum (if Qeq_bool q 0 then d else q).
Proof.
  unfold JS.or, JS.truthy, Qeq_bool. simpl.
  rewrite Z.mul_1_r. now destruct (Qnum q =? 0).
Qed.

(** C9: when the SSH client is ready the shell is asked for with terminal
    type [xterm-256color]; a handshake [cols] equal to zero asks for 80
    columns and [rows] equal to zero for 24 rows, and any other number is
    passed on as it came. *)
Theorem C9_pty_dimensions
    (env : Env) (st : Session) (c : nat) (cfg : value) (cols rows : Q) :
  ssh st = Some c ->
  JS.get cfg "cols" = Some (VNum cols) ->
  JS.get cfg "rows" = Some (VNum rows) ->
  step env st (Ready cfg)
  = (st, [SshShell c "xterm-256color"
            (VNum (if Qeq_bool cols 0 then 80 else cols))
            (VNum (if Qeq_bool rows 0 then 24 else rows))]).
Proof.
  intros Hc Hcols Hrows. simpl. unfold on_ready.
  now rewrite Hc, Hcols, Hrows, !or_number.
Qed.

Lemma C9_pty_dimensions_witness :
  step Sample.env_default Sample.dialing
    (Ready (VObj [("serverId", VStr "t1"); ("cols", VNum 0); ("rows", VNum 40)]))
  = (Sample.dialing, [SshShell 0 "xterm-256color" (VNum 80) (VNum 40)])
  /\ step Sample.env_default Sample.dialing
       (Ready (VObj [("serverId", VStr "t1"); ("cols", VNum 120); ("rows", VNum 0)]))
     = (Sample.dialing, [SshShell 0 "xterm-256color" (VNum 120) (VNum 24)]).
Proof.
  split.
  - exact (C9_pty_dimensions Sample.env_default Sample.dialing 0
             (VObj [("serverId", VStr "t1"); ("cols", VNum 0); ("rows", VNum 40)])
             0 40 eq_refl eq_refl eq_refl).
  - exact (C9_pty_dimensions Sample.env_default Sample.dialing 0
             (VObj [("serverId", VStr "t1"); ("cols", VNum 120); ("rows", VNum 0)])
             120 0 eq_refl eq_refl eq_refl).
Defined.

(** ** Further properties of the connection handler *)

Lemma get_some_any (v w : value) (k k' : string) :
  JS.get v k = Some w -> exists w', JS.get v k' = Some w'.
Proof. destruct v; simpl; try discriminate; intros _; now eauto. Qed.

(** A server that was found has been compared with [cfg.serverId], so
    [cfg] can be read. *)
Lemma find_server_reads_cfg (cfg srv : value) (l : list value) :
  find_server cfg l = Some srv -> JS.truthy srv = true ->
  exists auth, JS.get cfg "auth" = Some auth.
Proof.
  induction l as [|s rest IH]; simpl.
  - intros [= <-]. discriminate.
  - destruct (JS.get s "id") as [i|]; [|discriminate].
    destruct (JS.get cfg "serverId") as [w|] eqn:E; [|discriminate].
    intros _ _. exact (get_some_any cfg w "serverId" "auth" E).
Qed.

Lemma ws_close_cases (code : Z) (reason : message) :
  (ws_close code reason = WsClose (Some code) (Some reason)
   /\ (reason_bytes reason <= 123)%nat)
  \/ (ws_close code reason = WsCloseTooLong code reason
      /\ (123 < reason_bytes reason)%nat).
Proof.
  unfold ws_close.
  destruct (Nat.ltb_spec 123 (reason_bytes reason)); [right|left]; now split.
Qed.

Lemma after_readServers_cases (env : Env) (st : Session) (cfg servers : value) :
  (exists options,
      after_readServers env st cfg servers
      = ({| ssh := Some (clients st); stream := stream st; alive := alive st;
            clients := S (clients st) |},
         [SshConnect (clients st) options]))
  \/ (exists reason,
         after_readServers env st cfg servers
         = (st, [WsClose (Some 1008) (Some reason)])
         /\ (reason_bytes reason <= 123)%nat)
  \/ after_readServers env st cfg servers = (st, [Uncaught])
  \/ (exists reason,
         after_readServers env st cfg servers
         = (st, [WsCloseTooLong 1008 reason])
         /\ (123 < reason_bytes reason)%nat).
Proof.
  unfold after_readServers.
  destruct servers as [| | | | |list| |]; try (right; right; left; reflexivity).
  destruct (find_server cfg list) as [srv|] eqn:F;
    [|right; right; left; reflexivity].
  destruct (JS.truthy srv) eqn:T; simpl negb; cbv iota;
    [|right; left; eexists; split; [reflexivity | simpl; lia]].
  destruct (assertAllowedHost env (JS.get_opt srv "host")) as [|m].
  - destruct (find_server_reads_cfg cfg srv list F T) as (auth & ->).
    left. now eauto.
  - destruct (ws_close_cases 1008 m) as [[-> Hb] | [-> Hb]].
    + right. left. now exists m.
    + right. right. right. now exists m.
Qed.



(** The dial of a handshake that is let through and finds its target. *)
Lemma dial_of_found_target
    (env : Env) (verify : value -> bool) (st : Session) (raw : string)
    (cfg sid auth : value) (before after : list value)
    (members : list (string * value)) :
  JSON_parse raw = Some cfg ->
  token_accepted env verify cfg = true ->
  JS.get cfg "serverId" = Some sid ->
  JS.get cfg "auth" = Some auth ->
  Forall (fun s => exists i, JS.get s "id" = Some i /\ JS.strict_eq i sid = false)
         before ->
  JS.strict_eq (JS.get_opt (VObj members) "id") sid = true ->
  assertAllowedHost env (JS.get_opt (VObj members) "host") = Ok tt ->
  filter is_dial
    (snd (handshake env verify (VArr (before ++ VObj members :: after)) st raw))
  = [SshConnect (clients st)
       {| host := JS.get_opt (VObj members) "host";
          port := JS.or (JS.get_opt (VObj members) "port") (VNum 22);
          username := JS.get_opt (VObj members) "username";
          password := JS.get_opt auth "password";
          privateKey := JS.get_opt auth "privateKey";
          tryKeyboard := true |}]
  /\ ssh (fst (handshake env verify (VArr (before ++ VObj members :: after)) st raw))
     = Some (clients st).
Proof.
  intros Hp Hacc Hsid Hauth Hbefore Hid Hallowed.
  destruct (handshake_outcome env verify (VArr (before ++ VObj members :: after))
              st raw cfg Hp) as (awaits & Haw & ->).
  rewrite Hacc.
  assert (F : find_server cfg (before ++ VObj members :: after)
              = Some (VObj members)).
  { clear - Hsid Hbefore Hid.
    induction Hbefore as [|s l (i & Hi & Hne) _ IH]; simpl.
    - rewrite Hsid. unfold JS.get_opt in Hid. simpl in Hid. now rewrite Hid.
    - now rewrite Hi, Hsid, Hne. }
  unfold after_readServers. rewrite F. simpl JS.truthy. simpl negb. cbv iota.
  rewrite Hallowed, Hauth. simpl fst. simpl snd.
  match goal with
  | |- context [(awaits ++ ?l)%list] =>
      destruct (awaits_are_quiet awaits l Haw) as [_ D]
  end.
  rewrite D. split; reflexivity.
Qed.

(** X2: an accepted handshake dials the first target of the store whose
    [id] equals [serverId], at its [host] and [username], at its [port] or
    22 when the target has none, with the password and key of the
    handshake; [ssh] is set to the new client. *)
Theorem accepted_handshake_dials_target
    (env : Env) (verify : value -> bool) (st : Session) (raw : string)
    (cfg sid auth : value) (before after : list value)
    (members : list (string * value)) :
  JSON_parse raw = Some cfg ->
  token_accepted env verify cfg = true ->
  JS.get cfg "serverId" = Some sid ->
  JS.get cfg "auth" = Some auth ->
  Forall (fun s => exists i, JS.get s "id" = Some i /\ JS.strict_eq i sid = false)
         before ->
  JS.strict_eq (JS.get_opt (VObj members) "id") sid = true ->
  assertAllowedHost env (JS.get_opt (VObj members) "host") = Ok tt ->
  filter is_dial
    (snd (handshake env verify (VArr (before ++ VObj members :: after)) st raw))
  = [SshConnect (clients st)
       {| host := JS.get_opt (VObj members) "host";
          port := JS.or (JS.get_opt (VObj members) "port") (VNum 22);
          username := JS.get_opt (VObj members) "username";
          password := JS.get_opt auth "password";
          privateKey := JS.get_opt auth "privateKey";
          tryKeyboard := true |}]
  /\ ssh (fst (handshake env verify (VArr (before ++ VObj members :: after)) st raw))
     = Some (clients st).
Proof.
  intros Hp Hacc Hsid Hauth Hbefore Hid Hallowed.
  exact (dial_of_found_target env verify st raw cfg sid auth before after members
           Hp Hacc Hsid Hauth Hbefore Hid Hallowed).
Qed.

Lemma accepted_handshake_witness :
  filter is_dial
    (snd (handshake Sample.env_allow_list Sample.verify
            (VArr ([] ++ Sample.target "t1" "10.0.0.2"
                      :: [Sample.target "t9" "10.0.0.9"]))
            connection Sample.handshake_no_token))
  = [SshConnect 0
       {| host := VStr "10.0.0.2"; port := VNum 22; username := VStr "ada";
          password := VStr "p"; privateKey := VUndef; tryKeyboard := true |}].
Proof.
  refine (proj1 (accepted_handshake_dials_target Sample.env_allow_list
                   Sample.verify connection Sample.handshake_no_token
                   Sample.cfg_no_token (VStr "t1")
                   (VObj [("password", VStr "p")]) []
                   [Sample.target "t9" "10.0.0.9"]
                   [("id", VStr "t1"); ("name", VStr "box");
                    ("host", VStr "10.0.0.2"); ("port", VNum 22);
                    ("username", VStr "ada")]
                   eq_refl eq_refl eq_refl eq_refl (Forall_nil _)
                   eq_refl eq_refl)).
Defined.

Lemma later_message_one_call (st : Session) (s : nat) (raw : string) :
  stream st = Some s ->
  exists e, later_message st raw = (st, [e])
            /\ (type_is_resize raw = false -> e = StreamWrite s raw).
Proof.
  intros Hs. unfold later_message, write_input. rewrite Hs.
  destruct (try_resize st raw) as [e| |] eqn:E.
  - exists e. split; [reflexivity|]. intros Ht.
    revert E. unfold try_resize, type_is_resize in *.
    destruct (JSON_parse raw) as [msg|]; [|discriminate].
    destruct (JS.get msg "type") as [ty|]; [|discriminate].
    rewrite Ht. discriminate.
  - now eauto.
  - now eauto.
Qed.

(** X3: while the shell is up every frame makes exactly one call on the
    stream and changes nothing in the connection, so a run of frames makes
    as many calls as there are frames, in their order; frames that are not
    resize requests are written one by one, byte for byte, in the order
    they came, text and binary alike. *)
Theorem input_frames_written_in_order
    (env : Env) (st : Session) (c s : nat) (frames : list (string * bool)) :
  ssh st = Some c ->
  stream st = Some s ->
  final env st (map frame_event frames) = st
  /\ List.length (calls (run env st (map frame_event frames)))
     = List.length frames
  /\ (Forall (fun f => type_is_resize (fst f) = false) frames ->
      calls (run env st (map frame_event frames))
      = map (fun f => StreamWrite s (fst f)) frames).
Proof.
  intros Hc Hs.
  assert (Hstep : forall f, exists e,
             step env st (frame_event f) = (st, [e])
             /\ (type_is_resize (fst f) = false -> e = StreamWrite s (fst f))).
  { intros [raw b]. simpl. unfold on_message. rewrite Hc.
    exact (later_message_one_call st s raw Hs). }
  induction frames as [|f rest (IH1 & IH2 & IH3)]; [now repeat split|].
  destruct (Hstep f) as (e & E & He).
  cbn [map final run calls flat_map]. rewrite E. cbn [fst snd].
  split; [exact IH1|]. split.
  - cbn [app List.length]. f_equal. exact IH2.
  - intros Hall. inversion Hall as [|? ? Hf Hrest]; subst.
    cbn [app]. rewrite (He Hf). f_equal. exact (IH3 Hrest).
Qed.

Lemma input_frames_witness :
  calls (run Sample.env_default Sample.ready
           (map frame_event [("ls", false); (Sample.other_frame, false); ("x", true)]))
  = [StreamWrite 0 "ls"; StreamWrite 0 Sample.other_frame; StreamWrite 0 "x"].
Proof.
  refine (proj2 (proj2 (input_frames_written_in_order Sample.env_default
                          Sample.ready 0 0
                          [("ls", false); (Sample.other_frame, false); ("x", true)]
                          eq_refl eq_refl)) _).
  repeat constructor.
Defined.

(** X4: while the client is there ([alive]) every chunk of shell output,
    from stdout or from stderr, is sent to the client once, unchanged, in
    the order the chunks came; the two sources share the one flow. *)
Theorem shell_output_sent_in_order
    (env : Env) (st : Session) (chunks : list (bool * string)) :
  alive st = true ->
  final env st (map output chunks) = st
  /\ calls (run env st (map output chunks))
     = map (fun chunk => WsSend (snd chunk)) chunks.
Proof.
  intros Ha.
  assert (Hstep : forall ch, step env st (output ch) = (st, [WsSend (snd ch)])).
  { intros [[|] d]; simpl; unfold on_data; now rewrite Ha. }
  induction chunks as [|ch rest [IH1 IH2]]; [now split|].
  cbn [map final run calls flat_map]. rewrite Hstep. cbn [fst snd app].
  split; [exact IH1|]. f_equal. exact IH2.
Qed.

Lemma shell_output_witness :
  calls (run Sample.env_default Sample.ready
           (map output [(false, "a"); (true, "err"); (false, "b")]))
  = [WsSend "a"; WsSend "err"; WsSend "b"].
Proof.
  exact (proj2 (shell_output_sent_in_order Sample.env_default Sample.ready
                  [(false, "a"); (true, "err"); (false, "b")] eq_refl)).
Defined.

Lemma no_stream_step (env : Env) (st : Session) (ev : Event) :
  stream st = None ->
  grants_shell ev = false ->
  stream (fst (step env st ev)) = None
  /\ filter is_shell_call (snd (step env st ev)) = [].
Proof.
  intros Hs Hg.
  destruct ev as [raw b|cfg ok|cfg file|cfg n|cfg|err s|x|x| |m| ]; simpl.
  - unfold on_message. destruct (ssh st).
    + unfold later_message, write_input. rewrite Hs.
      destruct (try_resize st raw) as [e| |] eqn:E; [|now split ..].
      destruct (resized_is_setWindow st raw e E) as (s & _ & _ & _ & _ & H & _).
      congruence.
    + unfold first_message. split_matches; now split.
  - unfold after_jwt. split_matches; now split.
  - destruct (after_readServers_cases env st cfg (readServers file))
      as [(o & ->) | [(reason & -> & _) | [-> | (reason & -> & _)]]];
      now split.
  - unfold on_keyboard_interactive. split_matches; now split.
  - unfold on_ready. split_matches; now split.
  - destruct err as [m|]; [|discriminate].
    unfold on_shell, ws_close.
    match goal with
    | |- context [if ?b then _ else _] => destruct b
    end; now split.
  - unfold on_data. split_matches; now split.
  - unfold on_data. split_matches; now split.
  - now split.
  - now split.
  - rewrite Hs. split; [reflexivity|]. now destruct (ssh st).
Qed.

(** X5: nothing reaches the shell before it is granted.  From a
    connection without a stream (as every connection starts), as long as
    no shell callback has handed one over, no run of callbacks writes to
    a stream, resizes one or closes one, and [stream] stays unset. *)
Theorem no_shell_call_before_the_shell
    (env : Env) (evs : list Event) :
  forall st,
  stream st = None ->
  forallb (fun ev => negb (grants_shell ev)) evs = true ->
  stream (final env st evs) = None
  /\ filter is_shell_call (calls (run env st evs)) = [].
Proof.
  induction evs as [|ev rest IH]; intros st Hs Hall; [now split|].
  simpl in Hall. apply andb_true_iff in Hall. destruct Hall as [Hev Hrest].
  apply negb_true_iff in Hev.
  destruct (no_stream_step env st ev Hs Hev) as [Hs' Hnone].
  destruct (IH _ Hs' Hrest) as [IH1 IH2].
  cbn [final run calls flat_map]. split; [exact IH1|].
  cbn [snd]. rewrite filter_app, Hnone. exact IH2.
Qed.

Lemma no_shell_call_witness :
  filter is_shell_call
    (calls (run Sample.env_no_auth connection
              [Message Sample.handshake_no_token false; Message "ls" false;
               ServersRead Sample.cfg_no_token Sample.store_file;
               Message "ls" false; Ready Sample.cfg_no_token;
               Message Sample.resize_frame false; Closed]))
  = [].
Proof.
  exact (proj2 (no_shell_call_before_the_shell Sample.env_no_auth
                  [Message Sample.handshake_no_token false; Message "ls" false;
                   ServersRead Sample.cfg_no_token Sample.store_file;
                   Message "ls" false; Ready Sample.cfg_no_token;
                   Message Sample.resize_frame false; Closed]
                  connection eq_refl eq_refl)).
Defined.

(** *** Decoding and [trim] *)

Lemma in_range (lo hi n : nat) :
  (lo <= n <= hi)%nat -> ((lo <=? n) && (n <=? hi))%nat = true.
Proof. intros H. apply andb_true_iff. split; apply Nat.leb_le; lia. Qed.

Lemma out_of_range (lo hi n : nat) :
  (n < lo \/ hi < n)%nat -> ((lo <=? n) && (n <=? hi))%nat = false.
Proof.
  intros H. apply andb_false_iff.
  destruct H; [left|right]; apply Nat.leb_gt; lia.
Qed.

Lemma lead_cases (a : ascii) :
  ((Str.code a < 128)%nat /\ Utf8.lead a = (String a "", Utf8.Start))
  \/ ((128 <= Str.code a)%nat
      /\ Utf8.lead a = (Utf8.replacement, Utf8.Start))
  \/ ((192 <= Str.code a)%nat
      /\ exists more lo hi,
           Utf8.lead a = ("", Utf8.Inside (String a "") more lo hi)
           /\ (128 <= lo)%nat /\ (hi <= 191)%nat
           /\ ((more = 1 /\ Str.code a <= 223)
               \/ (more = 2 /\ 224 <= Str.code a <= 239)
               \/ (more = 3 /\ 240 <= Str.code a))%nat).
Proof.
  unfold Utf8.lead, Str.code.
  destruct (nat_of_ascii a <? 128)%nat eqn:T1; bools T1; [now left|].
  destruct ((194 <=? nat_of_ascii a) && (nat_of_ascii a <=? 223))%nat eqn:T2;
    bools T2.
  { right. right. split; [lia|]. exists 1%nat, 128%nat, 191%nat.
    repeat split; try lia. }
  destruct ((224 <=? nat_of_ascii a) && (nat_of_ascii a <=? 239))%nat eqn:T3;
    bools T3.
  { right. right. split; [lia|]. eexists 2%nat, _, _.
    split; [reflexivity|].
    destruct (nat_of_ascii a =? 224)%nat, (nat_of_ascii a =? 237)%nat;
      repeat split; lia. }
  destruct ((240 <=? nat_of_ascii a) && (nat_of_ascii a <=? 244))%nat eqn:T4;
    bools T4.
  { right. right. split; [lia|]. eexists 3%nat, _, _.
    split; [reflexivity|].
    destruct (nat_of_ascii a =? 240)%nat, (nat_of_ascii a =? 244)%nat;
      repeat split; lia. }
  right. left. split; [lia|reflexivity].
Qed.

Lemma lead_low (a : ascii) :
  (Str.code a < 128)%nat -> Utf8.lead a = (String a "", Utf8.Start).
Proof.
  unfold Utf8.lead, Str.code. intros H. apply Nat.ltb_lt in H. now rewrite H.
Qed.

Lemma lead_ready (a : ascii) : decoder_ready (snd (Utf8.lead a)).
Proof.
  destruct (lead_cases a)
    as [(_ & ->)|[(_ & ->)|(H & more & lo & hi & -> & L1 & L2 & _)]];
    simpl; try exact I.
  repeat split; try assumption. now exists a, "".
Qed.

Lemma feed_ready (st : Utf8.state) (a : ascii) :
  decoder_ready st -> decoder_ready (snd (Utf8.feed st a)).
Proof.
  intros R. destruct st as [|seen more lo hi]; cbn [Utf8.feed];
    [apply lead_ready|].
  destruct ((lo <=? nat_of_ascii a) && (nat_of_ascii a <=? hi))%nat.
  - destruct more as [|[|k]]; simpl; try exact I.
    destruct R as (_ & _ & l & rest & -> & Hl).
    repeat split; try lia. now exists l, (rest ++ String a "")%string.
  - pose proof (lead_ready a) as R'. now destruct (Utf8.lead a).
Qed.

(** Inside a character, a byte that cannot go on with it ends it. *)
Lemma run_break (seen : string) (more lo hi : nat) (a : ascii) (r : string) :
  (128 <= lo)%nat -> (hi <= 191)%nat ->
  (Str.code a < 128 \/ 192 <= Str.code a)%nat ->
  Utf8.run (Utf8.Inside seen more lo hi) (String a r)
  = (Utf8.replacement ++ Utf8.run Utf8.Start (String a r))%string.
Proof.
  intros L H A. cbn [Utf8.run Utf8.feed]. unfold Str.code in A.
  rewrite (out_of_range lo hi (nat_of_ascii a)) by lia.
  destruct (Utf8.lead a) as [out st']. now rewrite string_app_assoc.
Qed.

(** Bytes that begin with a byte below 0x80 or from 0xC0 on are read from
    between two characters, whatever comes before them. *)
Lemma run_app (w u : string) :
  match w with
  | EmptyString => True
  | String a _ => (Str.code a < 128 \/ 192 <= Str.code a)%nat
  end ->
  forall st, decoder_ready st ->
  Utf8.run st (u ++ w) = (Utf8.run st u ++ Utf8.run Utf8.Start w)%string.
Proof.
  intros W. induction u as [|b r IH]; intros st R.
  - cbn [append]. destruct st as [|seen more lo hi]; [reflexivity|].
    destruct w as [|a w']; [now rewrite string_app_empty|].
    destruct R as (L & H & _). now rewrite run_break.
  - cbn [append Utf8.run].
    pose proof (feed_ready st b R) as R'.
    destruct (Utf8.feed st b) as [out st']. simpl in R'.
    now rewrite (IH st' R'), string_app_assoc.
Qed.

Lemma run_one (a : ascii) (r : string) :
  (Str.code a < 128)%nat ->
  Utf8.run Utf8.Start (String a r) = String a (Utf8.run Utf8.Start r).
Proof.
  intros L. cbn [Utf8.run Utf8.feed]. now rewrite (lead_low a L).
Qed.

Lemma run_two (a b : ascii) (r : string) :
  (194 <= Str.code a <= 223)%nat -> (128 <= Str.code b <= 191)%nat ->
  Utf8.run Utf8.Start (String a (String b r))
  = String a (String b (Utf8.run Utf8.Start r)).
Proof.
  unfold Str.code. intros A B. cbn [Utf8.run Utf8.feed]. unfold Utf8.lead.
  replace (nat_of_ascii a <? 128)%nat with false
    by (symmetry; apply Nat.ltb_ge; lia).
  rewrite (in_range 194 223) by lia. cbn [Utf8.run Utf8.feed append].
  now rewrite (in_range 128 191) by lia.
Qed.

Lemma run_three (a b c : ascii) (r : string) :
  (225 <= Str.code a <= 239)%nat -> Str.code a <> 237%nat ->
  (128 <= Str.code b <= 191)%nat -> (128 <= Str.code c <= 191)%nat ->
  Utf8.run Utf8.Start (String a (String b (String c r)))
  = String a (String b (String c (Utf8.run Utf8.Start r))).
Proof.
  unfold Str.code. intros A A' B C. cbn [Utf8.run Utf8.feed]. unfold Utf8.lead.
  replace (nat_of_ascii a <? 128)%nat with false
    by (symmetry; apply Nat.ltb_ge; lia).
  rewrite (out_of_range 194 223) by lia.
  rewrite (in_range 224 239) by lia.
  replace (nat_of_ascii a =? 224)%nat with false
    by (symmetry; apply Nat.eqb_neq; lia).
  replace (nat_of_ascii a =? 237)%nat with false
    by (symmetry; apply Nat.eqb_neq; lia).
  cbn [Utf8.run Utf8.feed append].
  rewrite (in_range 128 191 (nat_of_ascii b)) by lia.
  cbn [Utf8.run Utf8.feed append].
  now rewrite (in_range 128 191 (nat_of_ascii c)) by lia.
Qed.

(** The white space of [trim] *)

Lemma ws1_low (a : ascii) : Str.ws1 a = true -> (Str.code a < 128)%nat.
Proof. unfold Str.ws1. intros H. bools H. lia. Qed.

Lemma ws2_codes (a b : ascii) :
  Str.ws2 a b = true -> Str.code a = 194%nat /\ Str.code b = 160%nat.
Proof. unfold Str.ws2. intros H. bools H. lia. Qed.

Lemma ws3_codes (a b c : ascii) :
  Str.ws3 a b c = true ->
  (225 <= Str.code a <= 239 /\ Str.code a <> 237
   /\ 128 <= Str.code b <= 187 /\ 128 <= Str.code c <= 191)%nat.
Proof. unfold Str.ws3. intros H. bools H. lia. Qed.

Lemma ws1_not (a : ascii) : (128 <= Str.code a)%nat -> Str.ws1 a = false.
Proof.
  intros H. destruct (Str.ws1 a) eqn:E; [|reflexivity].
  apply ws1_low in E. lia.
Qed.

Lemma ws2_not (a b : ascii) :
  (Str.code a <> 194 \/ Str.code b <> 160)%nat -> Str.ws2 a b = false.
Proof.
  intros H. destruct (Str.ws2 a b) eqn:E; [|reflexivity].
  apply ws2_codes in E. lia.
Qed.

Lemma ws3_not (a b c : ascii) :
  (Str.code a < 225 \/ 239 < Str.code a \/ Str.code b < 128
   \/ 187 < Str.code b \/ Str.code c < 128)%nat ->
  Str.ws3 a b c = false.
Proof.
  intros H. destruct (Str.ws3 a b c) eqn:E; [|reflexivity].
  apply ws3_codes in E. lia.
Qed.

Lemma leading_ws_app3 (back : bool) (u v : string) :
  (3 <= String.length u)%nat ->
  Str.leading_ws back (u ++ v) = Str.leading_ws back u.
Proof.
  destruct u as [|a [|b [|c u]]]; simpl; intros H; try lia. reflexivity.
Qed.

Lemma leading_replacement (back : bool) (r : string) :
  Str.leading_ws false (Utf8.replacement ++ r) = false
  /\ Str.leading_ws true
       (Json.rev_string "" Utf8.replacement ++ r) = false.
Proof. split; reflexivity. Qed.

Lemma decode_cons_low (a : ascii) (r : string) :
  (Str.code a < 128)%nat ->
  Utf8.decode (String a r) = String a (Utf8.decode r).
Proof. intros L. exact (run_one a r L). Qed.

Lemma decode_snoc_low (a : ascii) (u : string) :
  (Str.code a < 128)%nat ->
  Utf8.decode (u ++ String a "") = (Utf8.decode u ++ String a "")%string.
Proof.
  intros L. unfold Utf8.decode.
  rewrite (run_app (String a "") u (or_introl L) Utf8.Start I).
  now rewrite (run_one a "" L).
Qed.

(** Inside a character, the bytes to come complete it, or what was seen
    of it is replaced. *)
Lemma inside_shape (more : nat) :
  forall (seen : string) (lo hi : nat) (r : string),
  (1 <= more)%nat ->
  (exists X, Utf8.run (Utf8.Inside seen more lo hi) r
             = (Utf8.replacement ++ X)%string)
  \/ (exists tail rest,
        r = (tail ++ rest)%string /\ String.length tail = more
        /\ Utf8.run (Utf8.Inside seen more lo hi) r
           = (seen ++ tail ++ Utf8.run Utf8.Start rest)%string).
Proof.
  induction more as [|k IH]; intros seen lo hi r Hm; [lia|].
  destruct r as [|b r'].
  { left. exists "". cbn [Utf8.run]. now rewrite string_app_empty. }
  cbn [Utf8.run Utf8.feed].
  destruct ((lo <=? nat_of_ascii b) && (nat_of_ascii b <=? hi))%nat.
  - destruct k as [|k'].
    + right. exists (String b ""), r'. repeat split.
      now rewrite string_app_assoc.
    + cbn [append].
      destruct (IH (seen ++ String b "")%string 128%nat 191%nat r'
                  ltac:(lia)) as [(X & ->)|(tail & rest & -> & Hl & ->)].
      * left. now exists X.
      * right. exists (String b tail), rest. repeat split.
        -- simpl. now rewrite Hl.
        -- now rewrite string_app_assoc.
  - left. destruct (Utf8.lead b) as [out st'].
    exists (out ++ Utf8.run st' r')%string. now rewrite string_app_assoc.
Qed.

(** Decoding leaves no white space at the head of bytes that begin with
    none. *)
Lemma decode_no_leading (s : string) :
  Str.leading_ws false s = false ->
  Str.leading_ws false (Utf8.decode s) = false.
Proof.
  destruct s as [|a r]; [reflexivity|]. intros H.
  assert (H1 : Str.ws1 a = false)
    by exact (leading_ws_prefix false (String a "") r H).
  unfold Utf8.decode. cbn [Utf8.run Utf8.feed].
  destruct (lead_cases a)
    as [(L & ->)|[(_ & ->)|(L & more & lo & hi & -> & _ & _ & M)]].
  - cbn [append].
    destruct (Utf8.run Utf8.Start r) as [|b [|c D]]; simpl; rewrite H1;
      rewrite ?ws2_not, ?ws3_not by lia; reflexivity.
  - apply (leading_replacement false).
  - cbn [append].
    destruct (inside_shape more (String a "") lo hi r ltac:(lia))
      as [(X & ->)|(tail & rest & -> & Hl & ->)];
      [apply (leading_replacement false)|].
    cbn [append]. cbn [append] in H.
    destruct tail as [|b [|c tail]]; [simpl in Hl; lia| |].
    + assert (Ha : (Str.code a <= 223)%nat) by (simpl in Hl; lia).
      assert (H2 : Str.leading_ws false (String a (String b "")) = false)
        by exact (leading_ws_prefix false (String a (String b "")) rest H).
      simpl in H2. cbn [append].
      destruct (Utf8.run Utf8.Start rest) as [|d D]; simpl;
        [exact H2|]. rewrite H2. now rewrite ws3_not by lia.
    + change (String a (String b (String c tail) ++ ?x))%string
        with (String a (String b (String c "")) ++ (tail ++ x))%string
        in H |- *.
      rewrite leading_ws_app3 in H |- * by (simpl; lia). exact H.
Qed.

(** Decoding and taking the white space off the front can be done in
    either order. *)
Lemma decode_strip_front (n : nat) :
  forall s, (String.length s <= n)%nat ->
  Utf8.decode (Str.strip false s) = Str.strip false (Utf8.decode s).
Proof.
  induction n as [|n IH]; intros s Hl.
  - destruct s; [reflexivity|simpl in Hl; lia].
  - destruct (Str.leading_ws false s) eqn:LW.
    2:{ rewrite (strip_fixed false s LW).
        now rewrite (strip_fixed false _ (decode_no_leading s LW)). }
    destruct s as [|a r1]; [discriminate LW|]. simpl in Hl.
    cbn [Str.strip]. destruct (Str.ws1 a) eqn:E1.
    { rewrite (decode_cons_low a r1 (ws1_low a E1)).
      cbn [Str.strip]. rewrite E1. apply IH. lia. }
    destruct r1 as [|b r2]; [simpl in LW; congruence|]. simpl in Hl.
    destruct (Str.ws2 a b) eqn:E2.
    { destruct (ws2_codes a b E2) as (A & B).
      unfold Utf8.decode. rewrite (run_two a b r2) by lia.
      cbn [Str.strip]. rewrite E1, E2. apply IH. lia. }
    destruct r2 as [|c r3]; [simpl in LW; rewrite E1, E2 in LW; discriminate|].
    simpl in Hl.
    destruct (Str.ws3 a b c) eqn:E3.
    { pose proof (ws3_codes a b c E3) as A.
      unfold Utf8.decode. rewrite (run_three a b c r3) by lia.
      cbn [Str.strip]. rewrite E1, E2, E3. apply IH. lia. }
    simpl in LW. rewrite E1, E2, E3 in LW. discriminate.
Qed.

Lemma feed_seen (st : Utf8.state) (b : ascii) :
  exists p, (seen_of st ++ String b "")%string
            = (p ++ seen_of (snd (Utf8.feed st b)))%string.
Proof.
  assert (Lead : forall seen, exists p,
             (seen ++ String b "")%string
             = (p ++ seen_of (snd (Utf8.lead b)))%string).
  { intros seen.
    destruct (lead_cases b)
      as [(_ & ->)|[(_ & ->)|(_ & more & lo & hi & -> & _)]]; simpl.
    - exists (seen ++ String b "")%string. now rewrite string_app_empty.
    - exists (seen ++ String b "")%string. now rewrite string_app_empty.
    - now exists seen. }
  destruct st as [|seen more lo hi]; cbn [Utf8.feed seen_of].
  - exact (Lead "").
  - destruct ((lo <=? nat_of_ascii b) && (nat_of_ascii b <=? hi))%nat.
    + destruct more as [|[|k]]; simpl.
      * exists (seen ++ String b "")%string. now rewrite string_app_empty.
      * exists (seen ++ String b "")%string. now rewrite string_app_empty.
      * now exists "".
    + destruct (Lead seen) as (p & Hp). exists p.
      now destruct (Utf8.lead b).
Qed.

(** How a text ends: with U+FFFD, with a character of two bytes or more
    that the bytes end with, or with the last byte, which is below
    0x80. *)
Lemma run_last (a : ascii) (u : string) :
  forall st, decoder_ready st ->
  (exists X, Utf8.run st (u ++ String a "")
             = (X ++ Utf8.replacement)%string)
  \/ (exists X pre l z rest,
        Utf8.run st (u ++ String a "")
        = (X ++ String l (String z rest))%string
        /\ (seen_of st ++ u ++ String a "")%string
           = (pre ++ String l (String z rest))%string
        /\ (192 <= Str.code l)%nat)
  \/ ((Str.code a < 128)%nat
      /\ exists X, Utf8.run st (u ++ String a "")
                   = (X ++ String a "")%string).
Proof.
  induction u as [|b r IH]; intros st R.
  - cbn [append Utf8.run].
    assert (Lead : forall p,
               (exists X, (let (out, st') := Utf8.lead a in
                           (p ++ out) ++ Utf8.run st' "")%string
                          = (X ++ Utf8.replacement)%string)
               \/ ((Str.code a < 128)%nat
                   /\ exists X, (let (out, st') := Utf8.lead a in
                                 (p ++ out) ++ Utf8.run st' "")%string
                                = (X ++ String a "")%string)).
    { intros p.
      destruct (lead_cases a)
        as [(L & ->)|[(_ & ->)|(_ & more & lo & hi & -> & _)]];
        cbn [Utf8.run].
      - right. split; [exact L|]. exists p. now rewrite string_app_empty.
      - left. exists p. now rewrite string_app_empty.
      - left. exists p. now rewrite string_app_empty. }
    destruct st as [|seen more lo hi]; cbn [Utf8.feed].
    + destruct (Lead "") as [(X & E)|(L & X & E)].
      * left. exists X. rewrite <- E. now destruct (Utf8.lead a).
      * right. right. split; [exact L|]. exists X. rewrite <- E.
        now destruct (Utf8.lead a).
    + destruct ((lo <=? nat_of_ascii a) && (nat_of_ascii a <=? hi))%nat.
      * destruct R as (_ & _ & l & rest & -> & Hl).
        assert (Done : exists z rest',
                   (String l rest ++ String a "")%string
                   = String l (String z rest')).
        { destruct rest as [|z rest']; simpl; now eexists _, _. }
        destruct Done as (z & rest' & Done).
        destruct more as [|[|k]]; cbn [Utf8.run seen_of].
        -- right. left. exists "", "", l, z, rest'.
           rewrite string_app_empty, Done. now repeat split.
        -- right. left. exists "", "", l, z, rest'.
           rewrite string_app_empty, Done. now repeat split.
        -- left. now exists "".
      * destruct (Lead Utf8.replacement) as [(X & E)|(L & X & E)].
        -- left. exists X. rewrite <- E. now destruct (Utf8.lead a).
        -- right. right. split; [exact L|]. exists X. rewrite <- E.
           now destruct (Utf8.lead a).
  - cbn [append Utf8.run].
    pose proof (feed_ready st b R) as R'.
    destruct (feed_seen st b) as (p & Hp).
    destruct (Utf8.feed st b) as [out st']. simpl in R', Hp.
    destruct (IH st' R')
      as [(X & E)|[(X & pre & l & z & rest & E & S & Hl)|(L & X & E)]].
    + left. exists (out ++ X)%string. now rewrite E, string_app_assoc.
    + right. left. exists (out ++ X)%string, (p ++ pre)%string, l, z, rest.
      split; [now rewrite E, string_app_assoc|]. split; [|exact Hl].
      change (String b (r ++ String a ""))
        with (String b "" ++ (r ++ String a ""))%string.
      now rewrite <- string_app_assoc, Hp, !string_app_assoc, S.
    + right. right. split; [exact L|]. exists (out ++ X)%string.
      now rewrite E, string_app_assoc.
Qed.

Lemma rev_string_length (s : string) :
  String.length (Json.rev_string "" s) = String.length s.
Proof.
  induction s as [|c r IH]; [reflexivity|].
  simpl. rewrite (rev_string_acc r). 
  assert (A : forall x y, String.length (x ++ y)
                          = (String.length x + String.length y)%nat).
  { intros x y. induction x as [|d x IHx]; simpl; congruence. }
  rewrite A, IH. simpl. lia.
Qed.

(** Decoding leaves no white space at the end of bytes that end with
    none. *)
Lemma decode_no_trailing (y : string) :
  Str.leading_ws true y = false ->
  Str.leading_ws true
    (Json.rev_string "" (Utf8.decode (Json.rev_string "" y))) = false.
Proof.
  destruct y as [|a r1]; [reflexivity|]. intros H.
  assert (R : Json.rev_string "" (String a r1)
              = (Json.rev_string "" r1 ++ String a "")%string).
  { simpl. apply rev_string_acc. }
  assert (H1 : Str.ws1 a = false)
    by exact (leading_ws_prefix true (String a "") r1 H).
  rewrite R. unfold Utf8.decode.
  destruct (run_last a (Json.rev_string "" r1) Utf8.Start I)
    as [(X & ->)|[(X & pre & l & z & rest & -> & S & Hl)|(L & X & ->)]];
    rewrite rev_string_app.
  - apply (leading_replacement true).
  - cbn [seen_of append] in S.
    assert (Y : String a r1
                = (Json.rev_string "" (String l (String z rest))
                   ++ Json.rev_string "" pre)%string).
    { rewrite <- rev_string_app, <- S, <- R. now rewrite rev_string_involutive. }
    rewrite Y in H.
    destruct rest as [|y rest'].
    + change (Json.rev_string "" (String l (String z "")))
        with (String z (String l "")) in H |- *.
      pose proof (leading_ws_prefix true _ _ H) as H2. simpl in H2.
      cbn [append].
      destruct (Json.rev_string "" X) as [|x X']; simpl; [exact H2|].
      rewrite H2. now rewrite ws3_not by lia.
    + rewrite leading_ws_app3 in H |- *
        by (rewrite rev_string_length; simpl; lia).
      exact H.
  - cbn [Json.rev_string append].
    destruct (Json.rev_string "" X) as [|b [|c D]]; simpl; rewrite H1;
      rewrite ?ws2_not, ?ws3_not by lia; reflexivity.
Qed.

(** Decoding and taking the white space off the end can be done in either
    order. *)
Lemma decode_strip_back (n : nat) :
  forall y, (String.length y <= n)%nat ->
  Utf8.decode (Json.rev_string "" (Str.strip true y))
  = Json.rev_string ""
      (Str.strip true
         (Json.rev_string "" (Utf8.decode (Json.rev_string "" y)))).
Proof.
  induction n as [|n IH]; intros y Hl.
  - destruct y; [reflexivity|simpl in Hl; lia].
  - destruct (Str.leading_ws true y) eqn:LW.
    2:{ rewrite (strip_fixed true y LW).
        rewrite (strip_fixed true _ (decode_no_trailing y LW)).
        now rewrite rev_string_involutive. }
    destruct y as [|a r1]; [discriminate LW|]. simpl in Hl.
    assert (R : forall w r,
               Json.rev_string "" (w ++ r)
               = (Json.rev_string "" r ++ Json.rev_string "" w)%string)
      by (intros; apply rev_string_app).
    cbn [Str.strip]. destruct (Str.ws1 a) eqn:E1.
    { change (String a r1) with (String a "" ++ r1)%string.
      rewrite R. cbn [Json.rev_string].
      rewrite (decode_snoc_low a _ (ws1_low a E1)), rev_string_app.
      cbn [Json.rev_string append Str.strip]. rewrite E1. apply IH. lia. }
    destruct r1 as [|b r2]; [simpl in LW; congruence|]. simpl in Hl.
    destruct (Str.ws2 b a) eqn:E2.
    { destruct (ws2_codes b a E2) as (B & A).
      change (String a (String b r2))
        with (String a (String b "") ++ r2)%string.
      rewrite R. cbn [Json.rev_string]. unfold Utf8.decode.
      rewrite (run_app (String b (String a "")) _
                 ltac:(simpl; lia) Utf8.Start I).
      rewrite (run_two b a "") by lia. rewrite rev_string_app.
      cbn [Utf8.run Json.rev_string append Str.strip].
      rewrite E1, E2. apply IH. lia. }
    destruct r2 as [|c r3]; [simpl in LW; rewrite E1, E2 in LW; discriminate|].
    simpl in Hl.
    destruct (Str.ws3 c b a) eqn:E3.
    { pose proof (ws3_codes c b a E3) as A.
      change (String a (String b (String c r3)))
        with (String a (String b (String c "")) ++ r3)%string.
      rewrite R. cbn [Json.rev_string]. unfold Utf8.decode.
      rewrite (run_app (String c (String b (String a ""))) _
                 ltac:(simpl; lia) Utf8.Start I).
      rewrite (run_three c b a "") by lia. rewrite rev_string_app.
      cbn [Utf8.run Json.rev_string append Str.strip].
      rewrite E1, E2, E3. apply IH. lia. }
    simpl in LW. rewrite E1, E2, E3 in LW. discriminate.
Qed.

(** [trim] takes off whole characters, which decoding keeps as they are:
    trimming the bytes and decoding, and decoding and trimming the text,
    come to the same. *)
Lemma decode_trim (s : string) :
  Utf8.decode (Str.trim s) = Str.trim (Utf8.decode s).
Proof.
  unfold Str.trim.
  rewrite (decode_strip_back _ _ (le_n _)), rev_string_involutive.
  now rewrite (decode_strip_front _ s (le_n _)).
Qed.

(** X6: a store file that is blank or is not JSON reads as the empty
    list, and then every handshake that gets as far as the lookup is
    closed with 1008 and ["Server necunoscut"], whatever it asks for. *)
Theorem unreadable_store_has_no_target
    (env : Env) (st : Session) (cfg : value) (file : string) :
  Str.trim file = "" \/ JSON_parse (Str.trim file) = None ->
  readServers file = VArr []
  /\ step env st (ServersRead cfg file) = (st, [close1008 "Server necunoscut"]).
Proof.
  intros H.
  assert (E : readServers file = VArr []).
  { unfold readServers. cbv zeta. rewrite <- decode_trim.
    destruct H as [-> | H]; [reflexivity|].
    unfold JSON_parse in H. rewrite H.
    now destruct (String.eqb (Utf8.decode (Str.trim file)) ""). }
  split; [exact E|]. simpl. now rewrite E.
Qed.

Lemma unreadable_store_witness :
  step Sample.env_default connection (ServersRead Sample.cfg_no_token "{oops")
  = (connection, [close1008 "Server necunoscut"]).
Proof.
  exact (proj2 (unreadable_store_has_no_target Sample.env_default connection
                  Sample.cfg_no_token "{oops" (or_intror eq_refl))).
Defined.




(** ** Reading the store *)

Lemma scan_by_state (s : string) :
  forall m out,
  Json.scan m out s
  = match scan_to m out s with
    | Some (m', out') => Json.finish m' out'
    | None => None
    end.
Proof.
  induction s as [|c r IH]; intros m out; simpl; [reflexivity|].
  destruct (Json.scan_char m out c) as [[m' out']|]; [apply IH|reflexivity].
Qed.

Lemma scan_to_app (u v : string) :
  forall m out,
  scan_to m out (u ++ v)
  = match scan_to m out u with
    | Some (m', out') => scan_to m' out' v
    | None => None
    end.
Proof.
  induction u as [|c r IH]; intros m out; simpl; [reflexivity|].
  destruct (Json.scan_char m out c) as [[m' out']|]; [apply IH|reflexivity].
Qed.

(** The four white space characters of JSON. *)
Lemma is_ws_cases (a : ascii) :
  Json.is_ws a = true ->
  a = ascii_of_nat 32 \/ a = ascii_of_nat 9
  \/ a = ascii_of_nat 10 \/ a = ascii_of_nat 13.
Proof.
  destruct a as [[|] [|] [|] [|] [|] [|] [|] [|]]; intros H;
    try discriminate H; cbv; tauto.
Qed.

(** White space before the end of the text changes nothing. *)
Lemma ws_at_the_end (a : ascii) (m : Json.mode) (out : list Json.token) :
  Json.is_ws a = true ->
  match Json.scan_char m out a with
  | Some (m', out') => Json.finish m' out'
  | None => None
  end = Json.finish m out.
Proof.
  intros H. destruct (is_ws_cases a H) as [-> | [-> | [-> | ->]]];
    destruct m as [|acc|acc|acc n u|acc|acc]; try reflexivity;
    cbn;
    try (destruct (Json.number_of_string (Json.rev_string "" acc)); reflexivity);
    try (destruct (Json.word_of_string (Json.rev_string "" acc)); reflexivity).
Qed.

Lemma never_at_an_end_start (a : ascii) (out : list Json.token) :
  never_at_an_end a = true -> Json.start a out = None.
Proof.
  destruct a as [[|] [|] [|] [|] [|] [|] [|] [|]]; intros H;
    try discriminate H; reflexivity.
Qed.

(** No text that ends with such a byte scans. *)
Lemma never_at_the_end (a : ascii) (m : Json.mode) (out : list Json.token) :
  never_at_an_end a = true ->
  match Json.scan_char m out a with
  | Some (m', out') => Json.finish m' out'
  | None => None
  end = None.
Proof.
  intros H. destruct m as [|acc|acc|acc n u|acc|acc]; cbn [Json.scan_char].
  - now rewrite (never_at_an_end_start a out H).
  - revert H.
    destruct a as [[|] [|] [|] [|] [|] [|] [|] [|]]; intros H;
      try discriminate H; reflexivity.
  - revert H.
    destruct a as [[|] [|] [|] [|] [|] [|] [|] [|]]; intros H;
      try discriminate H; reflexivity.
  - revert H.
    destruct a as [[|] [|] [|] [|] [|] [|] [|] [|]]; intros H;
      try discriminate H; reflexivity.
  - assert (N : Json.is_number_char a = false).
    { revert H. destruct a as [[|] [|] [|] [|] [|] [|] [|] [|]]; intros H;
        try discriminate H; reflexivity. }
    rewrite N.
    destruct (Json.number_of_string (Json.rev_string "" acc)); [|reflexivity].
    now rewrite (never_at_an_end_start a _ H).
  - assert (N : Json.is_letter a = false).
    { revert H. destruct a as [[|] [|] [|] [|] [|] [|] [|] [|]]; intros H;
        try discriminate H; reflexivity. }
    rewrite N.
    destruct (Json.word_of_string (Json.rev_string "" acc)); [|reflexivity].
    now rewrite (never_at_an_end_start a _ H).
Qed.

Lemma scan_snoc (u : string) (a : ascii) :
  Json.scan Json.Between [] (u ++ String a "")
  = if Json.is_ws a then Json.scan Json.Between [] u
    else if never_at_an_end a then None
    else Json.scan Json.Between [] (u ++ String a "").
Proof.
  destruct (Json.is_ws a) eqn:W; [|destruct (never_at_an_end a) eqn:B];
    [| |reflexivity]; rewrite !scan_by_state, scan_to_app;
    destruct (scan_to Json.Between [] u) as [[m out]|]; try reflexivity;
    cbn [scan_to].
  - pose proof (ws_at_the_end a m out W) as P.
    now destruct (Json.scan_char m out a) as [[m' out']|].
  - pose proof (never_at_the_end a m out B) as P.
    now destruct (Json.scan_char m out a) as [[m' out']|].
Qed.

(** What [trim] takes away is white space of JSON, or makes the text
    fail to scan. *)
Lemma ws1_cases (a : ascii) :
  Str.ws1 a = true -> Json.is_ws a = true \/ never_at_an_end a = true.
Proof.
  unfold never_at_an_end. intros ->. destruct (Json.is_ws a); simpl; tauto.
Qed.

Lemma ws2_head (back : bool) (a b : ascii) :
  (if back then Str.ws2 b a else Str.ws2 a b) = true -> never_at_an_end a = true.
Proof.
  unfold never_at_an_end, Str.ws2. intros H. apply orb_true_iff. right.
  apply Nat.leb_le.
  destruct back; apply andb_true_iff in H; destruct H as [H1 H2];
    apply Nat.eqb_eq in H1; apply Nat.eqb_eq in H2; lia.
Qed.

Lemma ws3_head (back : bool) (a b c : ascii) :
  (if back then Str.ws3 c b a else Str.ws3 a b c) = true ->
  never_at_an_end a = true.
Proof.
  unfold never_at_an_end, Str.ws3. intros H. apply orb_true_iff. right.
  apply Nat.leb_le.
  destruct back;
    repeat (rewrite orb_true_iff in H || rewrite andb_true_iff in H
            || rewrite Nat.eqb_eq in H || rewrite Nat.leb_le in H);
    lia.
Qed.

Lemma never_at_an_end_not_ws (a : ascii) :
  never_at_an_end a = true -> Json.is_ws a = false.
Proof.
  destruct a as [[|] [|] [|] [|] [|] [|] [|] [|]]; intros H;
    try discriminate H; reflexivity.
Qed.

Lemma scan_cons (a : ascii) (r : string) :
  Json.scan Json.Between [] (String a r)
  = if Json.is_ws a then Json.scan Json.Between [] r
    else if never_at_an_end a then None
    else Json.scan Json.Between [] (String a r).
Proof.
  destruct (Json.is_ws a) eqn:W; [|destruct (never_at_an_end a) eqn:B];
    [| |reflexivity]; cbn [Json.scan Json.scan_char].
  - unfold Json.start. now rewrite W.
  - now rewrite (never_at_an_end_start a [] B).
Qed.

(** Taking the white space off the front of a text that scans leaves a
    text that scans to the same tokens. *)
Lemma strip_front_scan (n : nat) :
  forall s, (String.length s <= n)%nat ->
  Json.scan Json.Between [] s <> None ->
  Json.scan Json.Between [] (Str.strip false s) = Json.scan Json.Between [] s.
Proof.
  induction n as [|n IH]; intros s Hl Hs.
  - destruct s; [reflexivity|simpl in Hl; lia].
  - destruct s as [|a r1]; [reflexivity|]. simpl in Hl.
    assert (Bad : never_at_an_end a = true -> False).
    { intros B. apply Hs. rewrite scan_cons.
      now rewrite (never_at_an_end_not_ws a B), B. }
    cbn [Str.strip].
    destruct (Str.ws1 a) eqn:E1.
    { destruct (ws1_cases a E1) as [W|B]; [|now destruct (Bad B)].
      rewrite (scan_cons a r1), W in *. apply IH; [lia|assumption]. }
    destruct r1 as [|b r2]; [reflexivity|].
    destruct (Str.ws2 a b) eqn:E2;
      [now destruct (Bad (ws2_head false a b E2))|].
    destruct r2 as [|c r3]; [reflexivity|].
    destruct (Str.ws3 a b c) eqn:E3;
      [now destruct (Bad (ws3_head false a b c E3))|].
    reflexivity.
Qed.

(** The same at the end of the text, which [strip] is given from its last
    byte. *)
Lemma strip_back_scan (n : nat) :
  forall y, (String.length y <= n)%nat ->
  Json.scan Json.Between [] (Json.rev_string "" y) <> None ->
  Json.scan Json.Between [] (Json.rev_string "" (Str.strip true y))
  = Json.scan Json.Between [] (Json.rev_string "" y).
Proof.
  induction n as [|n IH]; intros y Hl Hy.
  - destruct y; [reflexivity|simpl in Hl; lia].
  - destruct y as [|a r1]; [reflexivity|]. simpl in Hl.
    assert (R : Json.rev_string "" (String a r1)
                = (Json.rev_string "" r1 ++ String a "")%string).
    { simpl. apply rev_string_acc. }
    assert (Bad : never_at_an_end a = true -> False).
    { intros B. apply Hy. rewrite R, scan_snoc.
      now rewrite (never_at_an_end_not_ws a B), B. }
    cbn [Str.strip].
    destruct (Str.ws1 a) eqn:E1.
    { destruct (ws1_cases a E1) as [W|B]; [|now destruct (Bad B)].
      rewrite R, scan_snoc, W in *. apply IH; [lia|assumption]. }
    destruct r1 as [|b r2]; [reflexivity|].
    destruct (Str.ws2 b a) eqn:E2;
      [now destruct (Bad (ws2_head true a b E2))|].
    destruct r2 as [|c r3]; [reflexivity|].
    destruct (Str.ws3 c b a) eqn:E3;
      [now destruct (Bad (ws3_head true a b c E3))|].
    reflexivity.
Qed.

Lemma parse_text_after_trim (text : string) (data : value) :
  Json.parse text = Some data -> Json.parse (Str.trim text) = Some data.
Proof.
  unfold Json.parse. intros H.
  assert (Hs : Json.scan Json.Between [] text <> None).
  { intros E. now rewrite E in H. }
  assert (E1 : Json.scan Json.Between [] (Str.strip false text)
               = Json.scan Json.Between [] text)
    by exact (strip_front_scan _ text (le_n _) Hs).
  assert (E2 : Json.scan Json.Between [] (Str.trim text)
               = Json.scan Json.Between [] (Str.strip false text)).
  { unfold Str.trim.
    rewrite (strip_back_scan _ (Json.rev_string "" (Str.strip false text)) (le_n _));
      rewrite rev_string_involutive; [reflexivity|].
    now rewrite E1. }
  now rewrite E2, E1.
Qed.

Lemma parse_after_trim (file : string) (data : value) :
  JSON_parse file = Some data -> JSON_parse (Str.trim file) = Some data.
Proof.
  unfold JSON_parse. rewrite decode_trim. apply parse_text_after_trim.
Qed.

(** X8: on every file that [JSON.parse] accepts as it stands,
    [readServers] of server.js (which trims first) and [readJSON] of
    store.js (which does not) both return what [JSON.parse] returns: the
    trimming never changes what is read. *)
Theorem readers_return_the_parsed_file (file : string) (data : value) :
  JSON_parse file = Some data ->
  readServers file = data /\ readJSON file = data.
Proof.
  intros H. split; [|unfold readJSON; now rewrite H].
  pose proof (parse_text_after_trim _ data H) as T.
  unfold readServers. cbv zeta. rewrite T.
  destruct (String.eqb (Str.trim (Utf8.decode file)) "") eqn:E; [|reflexivity].
  apply String.eqb_eq in E. rewrite E in T. discriminate T.
Qed.

Lemma readers_witness :
  readServers Sample.store_file = Sample.store
  /\ readJSON Sample.store_file = Sample.store.
Proof.
  exact (readers_return_the_parsed_file Sample.store_file Sample.store eq_refl).
Defined.

(** The two readers differ on a file that is JSON only once trimmed, here
    one that begins with a form feed. *)
Example readers_differ :
  readServers (String (ascii_of_nat 12) "[1]") = VArr [VNum 1]
  /\ readJSON (String (ascii_of_nat 12) "[1]") = VArr [].
Proof. split; reflexivity. Qed.

(** The dial of a first message has read [cfg.auth]. *)
Lemma dial_reads_auth (env : Env) (st : Session) (cfg servers : value)
    (c : nat) (options : ConnectOptions) :
  In (SshConnect c options) (snd (after_readServers env st cfg servers)) ->
  exists auth,
    JS.get cfg "auth" = Some auth /\ password options = JS.get_opt auth "password".
Proof.
  unfold after_readServers.
  destruct servers as [| | | | |list| |]; try (simpl; intuition discriminate).
  destruct (find_server cfg list) as [srv|]; [|simpl; intuition discriminate].
  destruct (negb (JS.truthy srv)); [simpl; intuition discriminate|].
  destruct (assertAllowedHost env (JS.get_opt srv "host")) as [|m].
  - destruct (JS.get cfg "auth") as [auth|]; [|simpl; intuition discriminate].
    simpl. intros [[= _ <-] | []]. now exists auth.
  - destruct (ws_close_cases 1008 m) as [[-> _] | [-> _]];
      simpl; intuition discriminate.
Qed.

Lemma awaits_hold_no_dial (awaits rest : list Effect) (e : Effect) :
  Forall (fun e => is_await e = true) awaits ->
  is_await e = false ->
  In e (awaits ++ rest) -> In e rest.
Proof.
  intros Ha He Hin. apply in_app_or in Hin. destruct Hin as [Hin|Hin]; [|exact Hin].
  rewrite Forall_forall in Ha. apply Ha in Hin. congruence.
Qed.

(** X9: the keyboard-interactive handler answers every prompt, and with
    the password the dial was given: after a first message that dialed
    with [options], [finish] is called with as many answers as there are
    prompts, each of them [options.password], or the empty string when
    that is falsy. *)
Theorem keyboard_answers_with_the_dial_password
    (env : Env) (verify : value -> bool) (servers : value)
    (st st' : Session) (raw : string) (cfg : value)
    (c : nat) (options : ConnectOptions) (n : nat) :
  JSON_parse raw = Some cfg ->
  In (SshConnect c options) (snd (handshake env verify servers st raw)) ->
  on_keyboard_interactive st' cfg n
  = (st', [KeyboardFinish (repeat (JS.or (password options) (VStr "")) n)]).
Proof.
  intros Hp Hin.
  destruct (handshake_outcome env verify servers st raw cfg Hp)
    as (awaits & Haw & E).
  rewrite E in Hin.
  destruct (token_accepted env verify cfg); simpl snd in Hin;
    apply (awaits_hold_no_dial awaits _ (SshConnect c options) Haw eq_refl) in Hin.
  - destruct (dial_reads_auth env st cfg servers c options Hin) as (auth & Ha & ->).
    unfold on_keyboard_interactive. rewrite Ha. now destruct n.
  - destruct Hin as [Hin|[]]. discriminate Hin.
Qed.

Lemma keyboard_answers_witness :
  on_keyboard_interactive Sample.dialing Sample.cfg_no_token 2
  = (Sample.dialing, [KeyboardFinish [VStr "p"; VStr "p"]]).
Proof.
  exact (keyboard_answers_with_the_dial_password Sample.env_allow_list
           Sample.verify Sample.store connection Sample.dialing
           Sample.handshake_no_token Sample.cfg_no_token 0
           {| host := VStr "10.0.0.2"; port := VNum 22; username := VStr "ada";
              password := VStr "p"; privateKey := VUndef; tryKeyboard := true |}
           2 eq_refl (or_intror (or_introl eq_refl))).
Defined.

(** ** The REST routes *)

Import Rest.

Lemma find_required (body : value) :
  find (fun k => negb (JS.truthy (JS.get_opt body k))) required
  = if negb (JS.truthy (JS.get_opt body "name")) then Some "name"
    else if negb (JS.truthy (JS.get_opt body "host")) then Some "host"
    else if negb (JS.truthy (JS.get_opt body "username")) then Some "username"
    else None.
Proof. reflexivity. Qed.

(** X10: [validateServerPayload] names the first of [name], [host],
    [username] that the body lacks (or holds as an empty text, zero, false
    or null), in that order; when it returns all three are there; and with
    [partial] it never asks for a field: it only checks the port. *)
Theorem required_fields_checked_in_order (body : value) :
  (JS.truthy (JS.get_opt body "name") = false ->
   validateServerPayload body false = Some (Said "Câmp lipsă: name"))
  /\ (JS.truthy (JS.get_opt body "name") = true ->
      JS.truthy (JS.get_opt body "host") = false ->
      validateServerPayload body false = Some (Said "Câmp lipsă: host"))
  /\ (JS.truthy (JS.get_opt body "name") = true ->
      JS.truthy (JS.get_opt body "host") = true ->
      JS.truthy (JS.get_opt body "username") = false ->
      validateServerPayload body false = Some (Said "Câmp lipsă: username"))
  /\ (validateServerPayload body false = None ->
      JS.truthy (JS.get_opt body "name") = true
      /\ JS.truthy (JS.get_opt body "host") = true
      /\ JS.truthy (JS.get_opt body "username") = true)
  /\ (JS.truthy (JS.get_opt body "name") = true ->
      JS.truthy (JS.get_opt body "host") = true ->
      JS.truthy (JS.get_opt body "username") = true ->
      validateServerPayload body false = validateServerPayload body true)
  /\ (validateServerPayload body true = None
      \/ validateServerPayload body true = Some (Said "Port invalid")
      \/ validateServerPayload body true = Some TypeError).
Proof.
  unfold validateServerPayload. rewrite find_required.
  destruct (JS.truthy (JS.get_opt body "name"));
    destruct (JS.truthy (JS.get_opt body "host"));
    destruct (JS.truthy (JS.get_opt body "username")); simpl negb; cbv iota;
    repeat split; try discriminate; try reflexivity;
    try (destruct (JS.get_opt body "port"); try (left; reflexivity);
         match goal with
         | |- context [ToNumber.Number ?v] =>
             destruct (ToNumber.Number v) as [p|];
             [destruct (ToNumber.isInteger p && ToNumber.in_port_range p)|];
             tauto
         end).
Qed.

Lemma required_fields_witness :
  validateServerPayload (VObj [("name", VStr "box"); ("host", VStr "")]) false
  = Some (Said "Câmp lipsă: host")
  /\ validateServerPayload VUndef false = Some (Said "Câmp lipsă: name").
Proof.
  destruct (required_fields_checked_in_order
              (VObj [("name", VStr "box"); ("host", VStr "")]))
    as (_ & Hhost & _).
  destruct (required_fields_checked_in_order VUndef) as (Hname & _).
  split; [exact (Hhost eq_refl eq_refl) | exact (Hname eq_refl)].
Defined.

(** A number is let through as a port when it is an integer from 1 to
    65535. *)
Lemma port_of_number (q : Q) :
  ToNumber.isInteger (Num q) && ToNumber.in_port_range (Num q) = true
  <-> exists p, q == inject_Z p /\ (1 <= p <= 65535)%Z.
Proof.
  unfold ToNumber.isInteger, ToNumber.in_port_range.
  rewrite !andb_true_iff, Z.eqb_eq, !Qle_bool_iff.
  split.
  - intros (Hm & H1 & H2).
    apply Z.mod_divide in Hm; [|discriminate]. destruct Hm as (p & Hp).
    assert (E : q == inject_Z p) by (unfold Qeq; simpl; lia).
    exists p. split; [exact E|].
    rewrite E in H1, H2.
    change (inject_Z 1 <= inject_Z p)%Q in H1.
    change (inject_Z p <= inject_Z 65535)%Q in H2.
    rewrite <- Zle_Qle in H1, H2. now split.
  - intros (p & E & H1 & H2). split; [|split].
    + unfold Qeq in E. simpl in E. rewrite Z.mul_1_r in E. rewrite E.
      apply Z.mod_mul. discriminate.
    + rewrite E. change (inject_Z 1 <= inject_Z p)%Q. now rewrite <- Zle_Qle.
    + rewrite E. change (inject_Z p <= inject_Z 65535)%Q. now rewrite <- Zle_Qle.
Qed.

(** X11: the port check.  A body without [port], or with [port] null, is
    not checked.  A port that [Number] reads as a number, be it a JSON
    number or a text such as ["8080"] or ["22.0"], passes exactly when
    that number is an integer from 1 to 65535, and is refused with
    ["Port invalid"] otherwise; a port that [Number] reads as NaN or as an
    infinity is refused the same way. *)
Theorem port_checked (body : value) (port : value) :
  JS.get_opt body "port" = port ->
  ((port = VUndef \/ port = VNull) -> validateServerPayload body true = None)
  /\ (forall q, port <> VUndef -> port <> VNull ->
        ToNumber.Number port = Some (Num q) ->
        (validateServerPayload body true = None
         <-> exists p, q == inject_Z p /\ (1 <= p <= 65535)%Z)
        /\ (validateServerPayload body true = None
            \/ validateServerPayload body true = Some (Said "Port invalid")))
  /\ (forall n, port <> VUndef -> port <> VNull ->
        ToNumber.Number port = Some n ->
        n = NaN \/ (exists negative, n = Infinity negative) ->
        validateServerPayload body true = Some (Said "Port invalid")).
Proof.
  intros Hport. unfold validateServerPayload. rewrite Hport.
  split; [intros [-> | ->]; reflexivity|]. split.
  - intros q Hu Hn HN. cbn [find].
    assert (G : forall r : option fault,
               r = (if ToNumber.isInteger (Num q) && ToNumber.in_port_range (Num q)
                    then None else Some (Said "Port invalid")) ->
               (r = None <-> exists p, q == inject_Z p /\ (1 <= p <= 65535)%Z)
               /\ (r = None \/ r = Some (Said "Port invalid"))).
    { intros r ->. rewrite <- port_of_number.
      destruct (ToNumber.isInteger (Num q) && ToNumber.in_port_range (Num q));
        split; try tauto; split; congruence. }
    apply G. destruct port; try congruence; now rewrite HN.
  - intros n Hu Hn HN Hkind.
    destruct port; try congruence; rewrite HN;
      destruct Hkind as [-> | (neg & ->)]; reflexivity.
Qed.

Lemma port_checked_witness :
  validateServerPayload (VObj [("port", VStr " 8080 ")]) true = None
  /\ validateServerPayload (VObj [("port", VStr "22.0000000000000000001")]) true
     = None
  /\ validateServerPayload (VObj [("port", VNum (220 # 10))]) true = None
  /\ validateServerPayload (VObj [("port", VStr "abc")]) true
     = Some (Said "Port invalid").
Proof.
  assert (S : forall t, VStr t <> VUndef /\ VStr t <> VNull)
    by (split; discriminate).
  assert (N : forall q, VNum q <> VUndef /\ VNum q <> VNull)
    by (split; discriminate).
  split; [|split; [|split]].
  - apply (proj1 (proj2 (port_checked (VObj [("port", VStr " 8080 ")])
                           (VStr " 8080 ") eq_refl))
             8080%Q (proj1 (S _)) (proj2 (S _)) eq_refl).
    exists 8080%Z. split; [reflexivity | lia].
  - apply (proj1 (proj2 (port_checked
                           (VObj [("port", VStr "22.0000000000000000001")])
                           (VStr "22.0000000000000000001") eq_refl))
             22%Q (proj1 (S _)) (proj2 (S _)) eq_refl).
    exists 22%Z. split; [reflexivity | lia].
  - apply (proj1 (proj2 (port_checked (VObj [("port", VNum (220 # 10))])
                           (VNum (220 # 10)) eq_refl))
             (220 # 10) (proj1 (N _)) (proj2 (N _)) eq_refl).
    exists 22%Z. split; [reflexivity | lia].
  - exact (proj2 (proj2 (port_checked (VObj [("port", VStr "abc")])
                           (VStr "abc") eq_refl))
             NaN (proj1 (S _)) (proj2 (S _)) eq_refl (or_introl eq_refl)).
Defined.

Lemma some_false_iff (pred : value -> option bool) (l : list value) :
  some pred l = Some false <-> Forall (fun s => pred s = Some false) l.
Proof.
  induction l as [|s rest IH]; simpl.
  - split; [constructor | reflexivity].
  - destruct (pred s) as [[|]|] eqn:E.
    + split; [discriminate|]. intros H. inversion H; congruence.
    + rewrite IH. split.
      * intros H. now constructor.
      * intros H. now inversion H.
    + split; [discriminate|]. intros H. inversion H; congruence.
Qed.


(** The members of the object the POST route builds. *)
Lemma new_server_members (id : string) (body : value) :
  JS.get_opt (new_server id body) "id" = VStr id
  /\ JS.get_opt (new_server id body) "name" = JS.get_opt body "name"
  /\ JS.get_opt (new_server id body) "host" = JS.get_opt body "host"
  /\ JS.get_opt (new_server id body) "username" = JS.get_opt body "username"
  /\ JS.get_opt (new_server id body) "port"
     = nullish_or (JS.get_opt body "port") (VNum 22).
Proof.
  unfold new_server.
  destruct (JS.get_opt body "tags"); destruct (JS.get_opt body "note");
    repeat split; reflexivity.
Qed.

(** X12: the POST route writes only by adding one entry at the end of the
    list it read: when it writes, the store was an array, the body passed
    the check, the reply is 201 with the new entry, and the list written
    is the old list, untouched and in its order, followed by that entry;
    the entry has the given id, the body's name, host and username, and
    the body's port, or 22 when the body has none.  In every other case
    the reply is a 400 or a 409 and nothing is written. *)
Theorem post_writes_by_appending
    (servers : value) (id : string) (body : Body) :
  (forall r written,
     post_server servers id body = (r, Some written) ->
     exists list,
       servers = VArr list
       /\ validateServerPayload (body_value body) false = None
       /\ r = Sent 201 (new_server id (body_value body))
       /\ written = (list ++ [new_server id (body_value body)])%list
       /\ JS.get_opt (new_server id (body_value body)) "id" = VStr id
       /\ JS.get_opt (new_server id (body_value body)) "host"
          = JS.get_opt (body_value body) "host"
       /\ JS.get_opt (new_server id (body_value body)) "username"
          = JS.get_opt (body_value body) "username"
       /\ JS.get_opt (new_server id (body_value body)) "port"
          = nullish_or (JS.get_opt (body_value body) "port") (VNum 22))
  /\ (forall r, post_server servers id body = (r, None) ->
        exists e, r = Failure 400 e \/ r = Failure 409 e).
Proof.
  unfold post_server. split.
  - intros r written.
    destruct (validateServerPayload (body_value body) false); [discriminate|].
    destruct servers as [| | | | |list| |]; try discriminate.
    destruct (some (same_target (new_server id (body_value body))) list)
      as [[|]|]; try discriminate.
    intros [= <- <-]. exists list.
    destruct (new_server_members id (body_value body)) as (A & _ & B & C & D).
    now repeat split.
  - intros r.
    destruct (validateServerPayload (body_value body) false) as [e|].
    { intros [= <-]. now eauto. }
    destruct servers as [| | | | |list| |];
      try (intros [= <-]; exists TypeError; now left).
    destruct (some (same_target (new_server id (body_value body))) list)
      as [[|]|]; [| discriminate |]; intros [= <-]; eexists; now eauto.
Qed.

Lemma post_writes_witness :
  exists list,
    Sample.store = VArr list
    /\ (RestSample.store_list
        ++ [new_server "k3x9w2ab" (body_value RestSample.new_box)])%list
       = (list ++ [new_server "k3x9w2ab" (body_value RestSample.new_box)])%list.
Proof.
  destruct (proj1 (post_writes_by_appending Sample.store "k3x9w2ab"
                     RestSample.new_box)
              (Sent 201 (new_server "k3x9w2ab" (body_value RestSample.new_box)))
              (RestSample.store_list
               ++ [new_server "k3x9w2ab" (body_value RestSample.new_box)])%list
              eq_refl)
    as (list & E & _ & _ & W & _).
  exists list. split; [exact E | exact W].
Defined.



Lemma distinct_snoc (R : value -> value -> Prop) (l : list value) (x : value) :
  ForallOrdPairs R l -> Forall (fun s => R s x) l ->
  ForallOrdPairs R (l ++ [x]).
Proof.
  induction 1 as [|a l Ha Hl IH]; intros Hx; simpl.
  - constructor; constructor.
  - inversion Hx as [|? ? Hax Hlx]; subst. constructor.
    + apply Forall_app. split; [exact Ha | now constructor].
    + exact (IH Hlx).
Qed.

(** X14: the POST route keeps the targets of the store distinct: if no
    two entries of the list it read have the same host, username and
    port, no two entries of the list it writes have. *)
Theorem post_keeps_targets_distinct
    (list written : list value) (id : string) (body : Body) (r : reply) :
  distinct_targets list ->
  post_server (VArr list) id body = (r, Some written) ->
  distinct_targets written.
Proof.
  intros Hd. unfold post_server.
  destruct (validateServerPayload (body_value body) false); [discriminate|].
  destruct (some (same_target (new_server id (body_value body))) list)
    as [[|]|] eqn:E; try discriminate.
  intros [= _ <-]. apply distinct_snoc; [exact Hd|].
  now apply some_false_iff.
Qed.

Lemma post_keeps_targets_distinct_witness :
  distinct_targets
    (RestSample.store_list
     ++ [new_server "k3x9w2ab" (body_value RestSample.new_box)])%list.
Proof.
  refine (post_keeps_targets_distinct RestSample.store_list _ "k3x9w2ab"
            RestSample.new_box _ _ eq_refl).
  repeat constructor.
Defined.

(** *** Finding an entry by its id *)

Lemma findIndex_found (id : string) (before after : list value) (own : value) :
  Forall (other_id id) before ->
  JS.get own "id" = Some (VStr id) ->
  findIndex id (before ++ own :: after) = Some (Some (List.length before)).
Proof.
  intros Hb Hown. induction Hb as [|s l (i & Hi & Hne) _ IH]; simpl.
  - rewrite Hown. simpl. now rewrite String.eqb_refl.
  - now rewrite Hi, Hne, IH.
Qed.

Lemma findIndex_absent (id : string) (l : list value) :
  findIndex id l = Some None <-> Forall (other_id id) l.
Proof.
  induction l as [|s rest IH]; simpl.
  - split; [constructor | reflexivity].
  - split.
    + destruct (JS.get s "id") as [i|] eqn:Hi; [|discriminate].
      destruct (JS.strict_eq i (VStr id)) eqn:E; [discriminate|].
      destruct (findIndex id rest) as [[n|]|]; try discriminate.
      intros _. constructor; [now exists i | now apply IH].
    + intros H. inversion H as [|? ? (i & Hi & Hne) Hrest]; subst.
      rewrite Hi, Hne. apply IH in Hrest. now rewrite Hrest.
Qed.

Lemma findIndex_split (id : string) (l : list value) (idx : nat) :
  findIndex id l = Some (Some idx) ->
  exists before own after,
    l = (before ++ own :: after)%list
    /\ List.length before = idx
    /\ Forall (other_id id) before
    /\ JS.get own "id" = Some (VStr id).
Proof.
  revert idx. induction l as [|s rest IH]; simpl; intros idx; [discriminate|].
  destruct (JS.get s "id") as [i|] eqn:Hi; [|discriminate].
  destruct (JS.strict_eq i (VStr id)) eqn:E.
  - intros [= <-]. exists [], s, rest. repeat split; [constructor|].
    destruct i; try discriminate E. simpl in E.
    apply String.eqb_eq in E. now subst.
  - destruct (findIndex id rest) as [[n|]|]; try discriminate.
    intros [= <-].
    destruct (IH n eq_refl) as (before & own & after & -> & <- & Hb & Hown).
    exists (s :: before), own, after. repeat split; [|assumption].
    constructor; [now exists i | assumption].
Qed.

Lemma remove_at_middle (before after : list value) (x : value) :
  remove_at (List.length before) (before ++ x :: after) = (before ++ after)%list.
Proof. induction before as [|a l IH]; simpl; congruence. Qed.

Lemma replace_at_middle (before after : list value) (x v : value) :
  replace_at (List.length before) v (before ++ x :: after)
  = (before ++ v :: after)%list.
Proof. induction before as [|a l IH]; simpl; congruence. Qed.

(** X15: the DELETE route takes out the first entry whose id is the one in
    the path, and nothing else: the entries before and after it are
    written back in their order and the reply is the entry taken out.  It
    writes in no other case, and when no entry has the id the reply is 404
    ["Server inexistent"]. *)
Theorem delete_removes_first_match (id : string) :
  (forall before removed after,
     Forall (other_id id) before ->
     JS.get removed "id" = Some (VStr id) ->
     delete_server (VArr (before ++ removed :: after)) id
     = (Sent 200 removed, Some (before ++ after)%list))
  /\ (forall servers r written,
        delete_server servers id = (r, Some written) ->
        exists before removed after,
          servers = VArr (before ++ removed :: after)
          /\ Forall (other_id id) before
          /\ JS.get removed "id" = Some (VStr id)
          /\ r = Sent 200 removed
          /\ written = (before ++ after)%list)
  /\ (forall list,
        Forall (other_id id) list ->
        delete_server (VArr list) id
        = (Failure 404 (Said "Server inexistent"), None)).
Proof.
  split; [|split].
  - intros before removed after Hb Hr. unfold delete_server.
    rewrite (findIndex_found id before after removed Hb Hr).
    now rewrite nth_middle, remove_at_middle.
  - intros servers r written. unfold delete_server.
    destruct servers as [| | | | |list| |]; try discriminate.
    destruct (findIndex id list) as [[idx|]|] eqn:F; try discriminate.
    destruct (findIndex_split id list idx F)
      as (before & own & after & -> & <- & Hb & Hown).
    rewrite nth_middle, remove_at_middle. intros [= <- <-].
    exists before, own, after. now repeat split.
  - intros list Hl. unfold delete_server.
    apply findIndex_absent in Hl. now rewrite Hl.
Qed.

Lemma delete_witness :
  delete_server Sample.store "t9"
  = (Sent 200 (Sample.target "t9" "10.0.0.9"),
     Some [Sample.target "t1" "10.0.0.2"])
  /\ delete_server Sample.store "zz"
     = (Failure 404 (Said "Server inexistent"), None).
Proof.
  destruct (delete_removes_first_match "t9") as (Hfound & _ & _).
  destruct (delete_removes_first_match "zz") as (_ & _ & Habsent).
  split.
  - refine (Hfound [Sample.target "t1" "10.0.0.2"]
              (Sample.target "t9" "10.0.0.9") [] _ eq_refl).
    repeat constructor. exists (VStr "t1"). split; reflexivity.
  - refine (Habsent RestSample.store_list _).
    repeat constructor; eexists; split; reflexivity.
Defined.

(** *** The merged object of the PUT route *)

Lemma lookup_app (k : string) (a b : list (string * value)) :
  JS.lookup k (a ++ b)
  = match JS.lookup k b with
    | Some w => Some w
    | None => JS.lookup k a
    end.
Proof.
  induction a as [|[k' v] rest IH]; simpl.
  - now destruct (JS.lookup k b).
  - rewrite IH. now destruct (JS.lookup k b).
Qed.

Lemma lookup_map_assign (k : string) (kv : string * value)
    (m : list (string * value)) :
  JS.lookup k
    (map (fun e => if String.eqb (fst e) (fst kv) then (fst e, snd kv) else e) m)
  = match JS.lookup k m with
    | Some w => Some (if String.eqb k (fst kv) then snd kv else w)
    | None => None
    end.
Proof.
  induction m as [|[k' v] rest IH]; simpl; [reflexivity|].
  destruct (String.eqb k' (fst kv)) eqn:E1; simpl; rewrite IH;
    (destruct (JS.lookup k rest) as [w|]; [reflexivity|]);
    destruct (String.eqb k k') eqn:E2; try reflexivity.
  - apply String.eqb_eq in E1, E2. subst. now rewrite String.eqb_refl.
  - apply String.eqb_eq in E2. subst. now rewrite E1.
Qed.

(** A member that is new can be put anywhere. *)
Lemma lookup_cons_new (k : string) (kv : string * value)
    (m : list (string * value)) :
  JS.lookup (fst kv) m = None ->
  JS.lookup k (kv :: m)
  = if String.eqb k (fst kv) then Some (snd kv) else JS.lookup k m.
Proof.
  intros L. destruct kv as [k' v]. simpl in *.
  destruct (String.eqb k k') eqn:E.
  - apply String.eqb_eq in E. subst. now rewrite L.
  - now destruct (JS.lookup k m).
Qed.

Lemma lookup_insert_index (k : string) (i : Z) (kv : string * value)
    (m : list (string * value)) :
  JS.lookup (fst kv) m = None ->
  JS.lookup k (Obj.insert_index i kv m)
  = if String.eqb k (fst kv) then Some (snd kv) else JS.lookup k m.
Proof.
  induction m as [|[k0 v0] rest IH]; intros L.
  - destruct kv as [k' v]. simpl. now destruct (String.eqb k k').
  - assert (Lrest : JS.lookup (fst kv) rest = None).
    { simpl in L. now destruct (JS.lookup (fst kv) rest). }
    cbn [Obj.insert_index fst].
    destruct (Obj.array_index k0) as [j|];
      [destruct (j <? i)|]; try (now apply lookup_cons_new).
    cbn [JS.lookup]. rewrite (IH Lrest).
    destruct (String.eqb k (fst kv)); reflexivity.
Qed.

Lemma lookup_assign (k : string) (kv : string * value)
    (m : list (string * value)) :
  JS.lookup k (assign m kv)
  = if String.eqb k (fst kv) then Some (snd kv) else JS.lookup k m.
Proof.
  unfold assign, Obj.define. destruct (JS.lookup (fst kv) m) as [w|] eqn:L.
  - rewrite lookup_map_assign.
    destruct (String.eqb k (fst kv)) eqn:E.
    + apply String.eqb_eq in E. subst. now rewrite L.
    + now destruct (JS.lookup k m).
  - destruct (Obj.array_index (fst kv)) as [i|];
      [now apply lookup_insert_index|].
    rewrite lookup_app. destruct kv as [k' v]. simpl in *.
    destruct (String.eqb k k') eqn:E; [reflexivity|].
    reflexivity.
Qed.

Lemma lookup_fold_assign (k : string) (es : list (string * value)) :
  forall m,
  JS.lookup k (fold_left assign es m)
  = match JS.lookup k es with
    | Some w => Some w
    | None => JS.lookup k m
    end.
Proof.
  induction es as [|[k' v] rest IH]; intros m; simpl; [reflexivity|].
  rewrite IH, lookup_assign. simpl.
  destruct (JS.lookup k rest); [reflexivity|].
  now destruct (String.eqb k k').
Qed.

(** A member of the merged object is the request's when the request has
    it, and the old entry's otherwise. *)
Lemma merge_member (own : value) (body : Body) (k : string) :
  JS.get_opt (merge own body) k
  = match JS.lookup k (entries body) with
    | Some v => v
    | None => JS.get_opt own k
    end.
Proof.
  unfold merge, JS.get_opt, JS.get. rewrite lookup_fold_assign.
  destruct (JS.lookup k (entries body)); [reflexivity|].
  now destruct own.
Qed.



(** The members of the new entry come in the order JavaScript lists
    them: those of the old entry first, where they stood, then those the
    request adds, but a member named by an array index before all
    others. *)
Example merge_order :
  merge (VObj [("id", VStr "t1"); ("host", VStr "a")])
        (ArrayBody [VStr "x"; VStr "y"])
  = VObj [("0", VStr "x"); ("1", VStr "y"); ("id", VStr "t1"); ("host", VStr "a")]
  /\ merge (VObj [("id", VStr "t1"); ("host", VStr "a")])
           (ObjectBody [("note", VStr "n"); ("host", VStr "b"); ("7", VNull)])
     = VObj [("7", VNull); ("id", VStr "t1"); ("host", VStr "b");
             ("note", VStr "n")].
Proof. split; reflexivity. Qed.

(** *** Distinct targets *)

Lemma strict_eq_sym (a b : value) : JS.strict_eq a b = JS.strict_eq b a.
Proof.
  destruct a, b; simpl; try reflexivity.
  - now destruct b, b0.
  - unfold Qeq_bool. apply Z.eqb_sym.
  - apply String.eqb_sym.
  - now destruct negative, negative0.
Qed.

(** The test of two entries that can both be read does not depend on
    which one comes first. *)
Lemma same_target_sym (a b : value) (x : bool) (h : value) :
  same_target a b = Some x -> JS.get a "host" = Some h ->
  same_target b a = Some x.
Proof.
  unfold same_target. intros H Ha. rewrite Ha.
  destruct (JS.get b "host") as [hb|] eqn:Hb; [|discriminate].
  injection H as <-. f_equal.
  rewrite (get_opt_of_get _ _ _ Ha), (get_opt_of_get _ _ _ Hb).
  rewrite (strict_eq_sym h hb).
  rewrite (strict_eq_sym (JS.get_opt a "username") (JS.get_opt b "username")).
  now rewrite (strict_eq_sym (nullish_or (JS.get_opt a "port") (VNum 22))).
Qed.

Lemma pairs_of_middle (R : value -> value -> Prop) (l1 l2 : list value)
    (x : value) :
  ForallOrdPairs R (l1 ++ x :: l2) ->
  ForallOrdPairs R l1 /\ ForallOrdPairs R l2
  /\ Forall (fun a => Forall (R a) l2) l1.
Proof.
  induction l1 as [|a l IH]; simpl; intros H.
  - inversion H; subst. repeat split; [constructor | assumption | constructor].
  - inversion H as [|? ? Ha Hl]; subst.
    destruct (IH Hl) as (H1 & H2 & H3).
    apply Forall_app in Ha. destruct Ha as [Ha1 Ha2].
    inversion Ha2; subst.
    repeat split; [now constructor | assumption | now constructor].
Qed.

Lemma pairs_with_middle (R : value -> value -> Prop) (l1 l2 : list value)
    (y : value) :
  ForallOrdPairs R l1 -> ForallOrdPairs R l2 ->
  Forall (fun a => Forall (R a) l2) l1 ->
  Forall (fun a => R a y) l1 -> Forall (R y) l2 ->
  ForallOrdPairs R (l1 ++ y :: l2).
Proof.
  induction 1 as [|a l Ha Hl IH]; intros H2 Hc Hy1 Hy2; simpl.
  - now constructor.
  - inversion Hc; subst. inversion Hy1; subst. constructor.
    + apply Forall_app. split; [assumption | now constructor].
    + now apply IH.
Qed.

Lemma put_conflict_after (own : value) (body : Body) (idx : nat)
    (l : list value) :
  forall pos, (idx < pos)%nat ->
  put_conflict own body idx pos l = Some false ->
  Forall (fun s => clash (merge own body) s = Some false) l.
Proof.
  induction l as [|s rest IH]; intros pos Hpos; simpl; [constructor|].
  assert (E : Nat.eqb pos idx = false) by (apply Nat.eqb_neq; lia).
  rewrite E. destruct (clash (merge own body) s) as [[|]|] eqn:C;
    try discriminate.
  intros H. constructor; [exact C|]. apply (IH (S pos)); [lia|assumption].
Qed.

Lemma put_conflict_split (own x : value) (body : Body)
    (before after : list value) :
  forall pos,
  put_conflict own body (pos + List.length before) pos (before ++ x :: after)
  = Some false ->
  Forall (fun s => clash (merge own body) s = Some false) before
  /\ Forall (fun s => clash (merge own body) s = Some false) after.
Proof.
  induction before as [|s rest IH]; intros pos; simpl.
  - rewrite Nat.add_0_r, Nat.eqb_refl.
    destruct (clash_with_own own body); [discriminate|].
    intros H. split; [constructor|].
    apply (put_conflict_after own body pos after (S pos)); [lia|assumption].
  - assert (E : Nat.eqb pos (pos + S (List.length rest)) = false)
      by (apply Nat.eqb_neq; lia).
    rewrite E. destruct (clash (merge own body) s) as [[|]|] eqn:C;
      try discriminate.
    replace (pos + S (List.length rest))%nat
      with (S pos + List.length rest)%nat by lia.
    intros H. destruct (IH (S pos) H) as [H1 H2].
    split; [now constructor | assumption].
Qed.

(** An entry with another id that passes the test of the PUT route does
    not have the target of the new entry. *)
Lemma clash_of_other_id (merged s : value) (id : string) :
  JS.get_opt merged "id" = VStr id ->
  other_id id s ->
  clash merged s = Some false ->
  same_target merged s = Some false.
Proof.
  intros Hm (i & Hi & Hne). unfold clash. rewrite Hi, Hm, Hne.
  destruct (same_target merged s) as [[|]|]; simpl; congruence.
Qed.

(** X17: the PUT route keeps the targets of the store distinct when the
    id in the path belongs to one entry only and the request does not
    carry an [id] of its own: if no two entries of the list it read have
    the same host, username and port, no two entries of the list it
    writes have. *)
Theorem put_keeps_targets_distinct
    (before after written : list value) (own : value) (id : string)
    (body : Body) (r : reply) :
  distinct_targets (before ++ own :: after) ->
  Forall (other_id id) before ->
  Forall (other_id id) after ->
  JS.get own "id" = Some (VStr id) ->
  overrides body "id" = false ->
  put_server (VArr (before ++ own :: after)) id body = (r, Some written) ->
  distinct_targets written.
Proof.
  intros Hd Hb Ha Hown Hid. unfold put_server.
  destruct (validateServerPayload (body_value body) true); [discriminate|].
  rewrite (findIndex_found id before after own Hb Hown).
  rewrite nth_middle, replace_at_middle.
  destruct (put_conflict own body (List.length before) 0 (before ++ own :: after))
    as [[|]|] eqn:P; try discriminate.
  intros [= _ <-].
  destruct (put_conflict_split own own body before after 0 P) as [P1 P2].
  destruct (pairs_of_middle _ before after own Hd) as (D1 & D2 & D3).
  assert (Hm : JS.get_opt (merge own body) "id" = VStr id).
  { rewrite merge_member. unfold overrides in Hid.
    destruct (JS.lookup "id" (entries body)); [discriminate|].
    exact (get_opt_of_get _ _ _ Hown). }
  apply pairs_with_middle; try assumption.
  - rewrite Forall_forall in *. intros s Hs.
    exact (clash_of_other_id _ s id Hm (Hb s Hs) (P1 s Hs)).
  - rewrite Forall_forall in *. intros s Hs.
    apply (same_target_sym (merge own body) s false
             (JS.get_opt (merge own body) "host"));
      [exact (clash_of_other_id _ s id Hm (Ha s Hs) (P2 s Hs)) | reflexivity].
Qed.

Lemma put_keeps_targets_distinct_witness :
  distinct_targets
    [Sample.target "t1" "10.0.0.2";
     merge (Sample.target "t9" "10.0.0.9") (ObjectBody [("host", VStr "10.0.0.8")])].
Proof.
  refine (put_keeps_targets_distinct [Sample.target "t1" "10.0.0.2"] [] _
            (Sample.target "t9" "10.0.0.9") "t9"
            (ObjectBody [("host", VStr "10.0.0.8")]) _ _ _ _ eq_refl eq_refl
            eq_refl).
  - repeat constructor.
  - repeat constructor. exists (VStr "t1"). split; reflexivity.
  - constructor.
Defined.

(** A request that carries the id and the target of another entry gets
    past the test, which skips the entries whose id is the new one: the
    list written has two entries with that id and that target. *)
Example put_with_another_id :
  put_server Sample.store "t1"
    (ObjectBody [("id", VStr "t9"); ("host", VStr "10.0.0.9")])
  = (Sent 200 (Sample.target "t9" "10.0.0.9"),
     Some [Sample.target "t9" "10.0.0.9"; Sample.target "t9" "10.0.0.9"]).
Proof. reflexivity. Qed.

(** *** Routes one after the other *)

Lemma new_server_id (id : string) (body : value) :
  JS.get (new_server id body) "id" = Some (VStr id).
Proof.
  unfold new_server.
  destruct (JS.get_opt body "tags"); destruct (JS.get_opt body "note");
    reflexivity.
Qed.

Lemma post_written (list written : list value) (id : string) (body : Body)
    (r : reply) :
  post_server (VArr list) id body = (r, Some written) ->
  written = (list ++ [new_server id (body_value body)])%list
  /\ validateServerPayload (body_value body) false = None.
Proof.
  unfold post_server.
  destruct (validateServerPayload (body_value body) false); [discriminate|].
  destruct (some (same_target (new_server id (body_value body))) list)
    as [[|]|]; try discriminate.
  intros [= _ <-]. now split.
Qed.

(** X18: deleting what was just posted gives back the list as it was.
    When the new id is the id of no entry of the list, a DELETE for it on
    the list the POST wrote takes out the new entry, replies with it, and
    writes the list the POST had read. *)
Theorem post_then_delete
    (list written : list value) (id : string) (body : Body) (r : reply) :
  Forall (other_id id) list ->
  post_server (VArr list) id body = (r, Some written) ->
  delete_server (VArr written) id
  = (Sent 200 (new_server id (body_value body)), Some list).
Proof.
  intros Hfresh Hpost.
  destruct (post_written list written id body r Hpost) as [-> _].
  unfold delete_server.
  rewrite (findIndex_found id list [] _ Hfresh (new_server_id id _)).
  now rewrite nth_middle, remove_at_middle, app_nil_r.
Qed.

Lemma post_then_delete_witness :
  delete_server
    (VArr (RestSample.store_list
           ++ [new_server "k3x9w2ab" (body_value RestSample.new_box)]))
    "k3x9w2ab"
  = (Sent 200 (new_server "k3x9w2ab" (body_value RestSample.new_box)),
     Some RestSample.store_list).
Proof.
  refine (post_then_delete RestSample.store_list _ "k3x9w2ab" RestSample.new_box
            _ _ eq_refl).
  repeat constructor; eexists; split; reflexivity.
Defined.



Lemma find_server_none_left (cfg : value) (id : string) (l : list value) :
  JS.get cfg "serverId" = Some (VStr id) ->
  Forall (other_id id) l ->
  find_server cfg l = Some VUndef.
Proof.
  intros Hsid H. exact (find_server_no_match cfg (VStr id) l Hsid H).
Qed.

(** X20: a deleted target can no longer be dialed.  When one entry only
    has the id, a handshake that passes the token check and asks for that
    id on the list the DELETE wrote is closed with 1008 and
    ["Server necunoscut"], and nothing is dialed. *)
Theorem deleted_target_is_unknown
    (env : Env) (verify : value -> bool) (st : Session) (raw : string)
    (cfg removed : value) (before after : list value) (id : string) :
  Forall (other_id id) before ->
  Forall (other_id id) after ->
  JS.get removed "id" = Some (VStr id) ->
  JSON_parse raw = Some cfg ->
  token_accepted env verify cfg = true ->
  JS.get cfg "serverId" = Some (VStr id) ->
  exists written,
    snd (delete_server (VArr (before ++ removed :: after)) id) = Some written
    /\ filter is_close (snd (handshake env verify (VArr written) st raw))
       = [close1008 "Server necunoscut"]
    /\ filter is_dial (snd (handshake env verify (VArr written) st raw)) = [].
Proof.
  intros Hb Ha Hr Hp Hacc Hsid.
  exists (before ++ after)%list. split.
  - unfold delete_server. rewrite (findIndex_found id before after removed Hb Hr).
    now rewrite remove_at_middle.
  - destruct (handshake_outcome env verify (VArr (before ++ after)) st raw cfg Hp)
      as (awaits & Haw & ->).
    rewrite Hacc. unfold after_readServers.
    rewrite (find_server_none_left cfg id (before ++ after) Hsid);
      [|apply Forall_app; now split].
    simpl fst. simpl snd.
    destruct (awaits_are_quiet awaits [close1008 "Server necunoscut"] Haw)
      as [C D].
    now rewrite C, D.
Qed.

Lemma deleted_target_witness :
  exists written,
    snd (delete_server (VArr ([] ++ Sample.target "t1" "10.0.0.2"
                                 :: [Sample.target "t9" "10.0.0.9"])) "t1")
    = Some written
    /\ filter is_close
         (snd (handshake Sample.env_no_auth Sample.verify (VArr written)
                 connection Sample.handshake_no_token))
       = [close1008 "Server necunoscut"]
    /\ filter is_dial
         (snd (handshake Sample.env_no_auth Sample.verify (VArr written)
                 connection Sample.handshake_no_token))
       = [].
Proof.
  refine (deleted_target_is_unknown Sample.env_no_auth Sample.verify connection
            Sample.handshake_no_token Sample.cfg_no_token
            (Sample.target "t1" "10.0.0.2") [] [Sample.target "t9" "10.0.0.9"]
            "t1" (Forall_nil _) _ eq_refl eq_refl eq_refl eq_refl).
  repeat constructor. exists (VStr "t9"). split; reflexivity.
Defined.

(** *** [requireAuth] *)

Lemma split_on_piece (sep : ascii) (t : string) :
  Str.contains sep t = false ->
  forall cur,
  split_on sep cur t = [Json.rev_string "" (Json.rev_string cur t)]
  /\ forall r,
      split_on sep cur (t ++ String sep r)
      = Json.rev_string "" (Json.rev_string cur t) :: split_on sep "" r.
Proof.
  induction t as [|c rest IH]; intros Hc cur; simpl in *.
  - split; [reflexivity|]. intros r. now rewrite Ascii.eqb_refl.
  - apply orb_false_iff in Hc. destruct Hc as [Hc Hrest].
    rewrite Hc. exact (IH Hrest (String c cur)).
Qed.

(** X21: [requireAuth] lets a request through exactly when its
    [Authorization] header begins with ["Bearer "] and the verifier takes
    the text between that and the next blank (or the end of the header);
    what follows a second blank is not looked at.  With no header, or
    another scheme, the reply is 401 ["No token"]; with a refused token,
    401 ["Invalid token"]; and a request that is refused reads no store
    and writes nothing, whatever the route. *)
Theorem requireAuth_reads_bearer_token (verify : value -> bool) :
  (forall t rest,
     Str.contains " " t = false ->
     rest = "" \/ (exists r, rest = String " " r) ->
     requireAuth verify (Some ("Bearer " ++ t ++ rest))
     = if verify (VStr t) then None
       else Some (Failure 401 (Said "Invalid token")))
  /\ (forall auth,
        String.prefix "Bearer " auth = false ->
        requireAuth verify (Some auth) = Some (Failure 401 (Said "No token")))
  /\ requireAuth verify None = Some (Failure 401 (Said "No token"))
  /\ (forall auth file id req refusal,
        requireAuth verify auth = Some refusal ->
        serve verify auth file id req = (refusal, None)
        /\ exists e, refusal = Failure 401 e).
Proof.
  split; [|split; [|split]].
  - intros t rest Ht Hrest.
    assert (E : nth 1 (split_on " " "" ("Bearer " ++ t ++ rest)) "" = t).
    { change ("Bearer " ++ t ++ rest)%string
        with ("Bearer" ++ String " " (t ++ rest))%string.
      rewrite (proj2 (split_on_piece " " "Bearer" eq_refl "")).
      cbn [nth]. destruct Hrest as [-> | (r & ->)].
      - rewrite string_app_empty, (proj1 (split_on_piece " " t Ht "")).
        apply rev_string_involutive.
      - rewrite (proj2 (split_on_piece " " t Ht "")).
        apply rev_string_involutive. }
    assert (P : String.prefix "Bearer " ("Bearer " ++ t ++ rest) = true).
    { cbn. now destruct (t ++ rest)%string. }
    unfold requireAuth. rewrite P, E. reflexivity.
  - intros auth Hpre. unfold requireAuth. now rewrite Hpre.
  - reflexivity.
  - intros auth file id req refusal H. unfold serve. rewrite H.
    split; [reflexivity|]. revert H. unfold requireAuth.
    destruct auth as [a|]; [|intros [= <-]; now eauto].
    destruct (String.prefix "Bearer " a); [|intros [= <-]; now eauto].
    destruct (verify _); [discriminate|]. intros [= <-]. now eauto.
Qed.

Lemma requireAuth_witness :
  requireAuth Sample.verify (Some "Bearer good and more") = None
  /\ requireAuth Sample.verify (Some "Basic good")
     = Some (Failure 401 (Said "No token"))
  /\ serve Sample.verify (Some "Bearer bad") Sample.store_file "k3x9w2ab"
       (DeleteServer "t1")
     = (Failure 401 (Said "Invalid token"), None).
Proof.
  destruct (requireAuth_reads_bearer_token Sample.verify)
    as (Hbearer & Hother & _ & Hrefused).
  split; [|split].
  - exact (Hbearer "good" " and more" eq_refl
             (or_intror (ex_intro _ "and more" eq_refl))).
  - exact (Hother "Basic good" eq_refl).
  - exact (proj1 (Hrefused (Some "Bearer bad") Sample.store_file "k3x9w2ab"
                    (DeleteServer "t1") _ eq_refl)).
Defined.

(** ** The register and login routes *)

Lemma find_user_absent (email : value) (l : list value) :
  Forall (Auth.other_email email) l -> Auth.find_user email l = Some VUndef.
Proof.
  induction 1 as [|u rest (e & He & Hne) _ IH]; simpl; [reflexivity|].
  now rewrite He, Hne.
Qed.

Lemma find_user_found (email e : value) (before after : list value) (u : value) :
  Forall (Auth.other_email email) before ->
  JS.get u "email" = Some e -> JS.strict_eq e email = true ->
  Auth.find_user email (before ++ u :: after) = Some u.
Proof.
  intros Hb He Heq. induction Hb as [|x l (e' & He' & Hne) _ IH]; simpl.
  - now rewrite He, Heq.
  - now rewrite He', Hne.
Qed.

Lemma find_user_cases (email : value) (l : list value) (u : value) :
  Auth.find_user email l = Some u ->
  (u = VUndef /\ Forall (Auth.other_email email) l)
  \/ (exists before after e,
         l = (before ++ u :: after)%list
         /\ Forall (Auth.other_email email) before
         /\ JS.get u "email" = Some e /\ JS.strict_eq e email = true).
Proof.
  induction l as [|x rest IH]; simpl.
  - intros [= <-]. left. split; [reflexivity | constructor].
  - destruct (JS.get x "email") as [e|] eqn:He; [|discriminate].
    destruct (JS.strict_eq e email) eqn:Heq.
    + intros [= <-]. right. exists [], rest, e.
      repeat split; [constructor | assumption ..].
    + intros H. destruct (IH H) as [[-> Hall] | (b & a & e' & -> & Hb & Hu & Hm)].
      * left. split; [reflexivity|]. constructor; [now exists e | assumption].
      * right. exists (x :: b), a, e'. repeat split; try assumption.
        constructor; [now exists e | assumption].
Qed.

(** An element whose [email] is a truthy value is an object. *)
Lemma matched_user_is_truthy (email e u : value) :
  JS.truthy email = true ->
  JS.get u "email" = Some e -> JS.strict_eq e email = true ->
  JS.truthy u = true.
Proof.
  intros Ht He Heq.
  destruct u; simpl in *; try discriminate; try reflexivity;
    injection He as <-; destruct email; discriminate.
Qed.

Lemma lookup_filter_none (f : string * value -> bool) (k : string)
    (m : list (string * value)) :
  JS.lookup k m = None -> JS.lookup k (filter f m) = None.
Proof.
  induction m as [|[k' v] rest IH]; simpl; [reflexivity|].
  destruct (JS.lookup k rest) eqn:L; [discriminate|].
  destruct (String.eqb k k') eqn:E; [discriminate|]. intros _.
  destruct (f (k', v)); simpl; rewrite (IH eq_refl); [now rewrite E | reflexivity].
Qed.

(** The public part of a user has an id, an email and a name, and no
    other member. *)
Lemma public_members (user : value) (k : string) :
  String.eqb k "id" = false -> String.eqb k "email" = false ->
  String.eqb k "name" = false ->
  JS.get_opt (Auth.public user) k = VUndef.
Proof.
  intros E1 E2 E3. unfold Auth.public, Auth.object.
  unfold JS.get_opt at 1. unfold JS.get.
  rewrite lookup_filter_none; [reflexivity|].
  simpl. now rewrite E1, E2, E3.
Qed.

(** X22: the login route answers an unknown email and a wrong password
    with the same reply, 401 ["Invalid credentials"]; it lets in only the
    first user of the list that has the email, and only when
    [bcrypt.compare] takes the password against that user's hash; the
    [user] of its reply has the id, email and name of that user and no
    [password]. *)
Theorem login_refuses_alike
    (compare : value -> value -> option bool) (sign : value -> option string)
    (members : list (string * value)) :
  (forall list,
     Forall (Auth.other_email (JS.get_opt (VObj members) "email")) list ->
     Auth.login compare sign (VArr list) (ObjectBody members)
     = Failure 401 (Said "Invalid credentials"))
  /\ (forall before after user e,
        Forall (Auth.other_email (JS.get_opt (VObj members) "email")) before ->
        JS.get user "email" = Some e ->
        JS.strict_eq e (JS.get_opt (VObj members) "email") = true ->
        compare (JS.get_opt (VObj members) "password") (JS.get_opt user "password")
        = Some false ->
        Auth.login compare sign (VArr (before ++ user :: after)) (ObjectBody members)
        = Failure 401 (Said "Invalid credentials"))
  /\ (forall users status reply,
        Auth.login compare sign users (ObjectBody members) = Sent status reply ->
        exists before user after token,
          users = VArr (before ++ user :: after)
          /\ Forall (Auth.other_email (JS.get_opt (VObj members) "email")) before
          /\ JS.strict_eq (JS.get_opt user "email") (JS.get_opt (VObj members) "email")
             = true
          /\ compare (JS.get_opt (VObj members) "password")
                     (JS.get_opt user "password") = Some true
          /\ status = 200
          /\ reply = VObj [("token", VStr token); ("user", Auth.public user)]
          /\ JS.get_opt (Auth.public user) "password" = VUndef).
Proof.
  split; [|split].
  - intros list Hl. unfold Auth.login. cbn [body_value]. cbv iota.
    now rewrite (find_user_absent _ list Hl).
  - intros before after user e Hb He Heq Hc. unfold Auth.login.
    cbn [body_value]. cbv iota.
    rewrite (find_user_found _ e before after user Hb He Heq), Hc.
    now destruct (JS.truthy user).
  - intros users status reply. unfold Auth.login. cbn [body_value]. cbv iota.
    destruct users as [| | | | |list| |]; try discriminate.
    destruct (Auth.find_user (JS.get_opt (VObj members) "email") list)
      as [user|] eqn:F; [|discriminate].
    destruct (JS.truthy user) eqn:T; [|discriminate]. simpl negb. cbv iota.
    destruct (compare _ _) as [[|]|] eqn:C; try discriminate.
    unfold Auth.welcome.
    destruct (sign (Auth.public user)) as [token|]; [|discriminate].
    intros [= <- <-].
    destruct (find_user_cases _ list user F)
      as [[-> _] | (b & a & e & -> & Hb & Hu & Hm)]; [discriminate T|].
    exists b, user, a, token.
    rewrite (get_opt_of_get _ _ _ Hu).
    repeat split; try assumption. now apply public_members.
Qed.

Lemma login_witness :
  Auth.login AuthSample.compare AuthSample.sign (VArr [AuthSample.ada])
    (AuthSample.credentials "bob@example.org" "secret")
  = Failure 401 (Said "Invalid credentials")
  /\ Auth.login AuthSample.compare AuthSample.sign (VArr [AuthSample.ada])
       (AuthSample.credentials "ada@example.org" "guess")
     = Failure 401 (Said "Invalid credentials").
Proof.
  split.
  - refine (proj1 (login_refuses_alike AuthSample.compare AuthSample.sign
                     [("email", VStr "bob@example.org"); ("password", VStr "secret")])
              [AuthSample.ada] _).
    repeat constructor. exists (VStr "ada@example.org"). split; reflexivity.
  - exact (proj1 (proj2 (login_refuses_alike AuthSample.compare AuthSample.sign
                           [("email", VStr "ada@example.org");
                            ("password", VStr "guess")]))
             [] [] AuthSample.ada (VStr "ada@example.org") (Forall_nil _)
             eq_refl eq_refl eq_refl).
Defined.

(** What the register route has checked when it writes. *)
Lemma register_written
    (hash : value -> option string) (sign : value -> option string)
    (users : value) (now : string) (body : Body) (r : reply)
    (written : list value) :
  Auth.register hash sign users now body = (r, Some written) ->
  exists list hashed,
    users = VArr list
    /\ JS.truthy (JS.get_opt (body_value body) "email") = true
    /\ JS.truthy (JS.get_opt (body_value body) "password") = true
    /\ Forall (Auth.other_email (JS.get_opt (body_value body) "email")) list
    /\ hash (JS.get_opt (body_value body) "password") = Some hashed
    /\ written
       = (list ++ [VObj [("id", VStr now);
                         ("email", JS.get_opt (body_value body) "email");
                         ("password", VStr hashed);
                         ("name", JS.or (JS.get_opt (body_value body) "name")
                                        (VStr ""))]])%list
    /\ r = Auth.welcome sign
             (VObj [("id", VStr now);
                    ("email", JS.get_opt (body_value body) "email");
                    ("password", VStr hashed);
                    ("name", JS.or (JS.get_opt (body_value body) "name")
                                   (VStr ""))])
    /\ body <> NoBody.
Proof.
  unfold Auth.register.
  destruct body as [|members|elems]; cbn [body_value]; [discriminate| |];
    cbv iota;
    match goal with
    | |- context [JS.get_opt ?v "email"] => set (b := v)
    end;
    (destruct (JS.truthy (JS.get_opt b "email")) eqn:Te; [|discriminate]);
    (destruct (JS.truthy (JS.get_opt b "password")) eqn:Tp; [|discriminate]);
    simpl negb; simpl orb; cbv iota;
    (destruct users as [| | | | |list| |]; try discriminate);
    (destruct (Auth.find_user (JS.get_opt b "email") list) as [found|] eqn:F;
     [|discriminate]);
    (destruct (JS.truthy found) eqn:Tf; [discriminate|]);
    (destruct (hash (JS.get_opt b "password")) as [hashed|] eqn:H;
     [|discriminate]);
    intros [= Hr <-]; exists list, hashed;
    (destruct (find_user_cases _ list found F)
       as [[-> Hall] | (bf & af & e & -> & _ & Hu & Hm)];
     [|rewrite (matched_user_is_truthy _ e found Te Hu Hm) in Tf;
       discriminate]);
    repeat split; try assumption; try reflexivity; try (now symmetry);
    discriminate.
Qed.

(** X23: the register route writes only by adding one user at the end of
    the list it read, and only when the request has an email and a
    password and no user of the list has that email.  The user it adds
    has the request's email, [Date.now()] as its id and, as its password,
    what [bcrypt.hash] returned; the reply, when one is sent, is a 200
    whose [user] has no [password].  An email that a user already has is
    refused with 409 and nothing is written. *)
Theorem register_stores_the_hash
    (hash : value -> option string) (sign : value -> option string)
    (now : string) (body : Body) :
  (forall users r written,
     Auth.register hash sign users now body = (r, Some written) ->
     exists list hashed,
       users = VArr list
       /\ JS.truthy (JS.get_opt (body_value body) "email") = true
       /\ JS.truthy (JS.get_opt (body_value body) "password") = true
       /\ Forall (Auth.other_email (JS.get_opt (body_value body) "email")) list
       /\ hash (JS.get_opt (body_value body) "password") = Some hashed
       /\ written
          = (list ++ [VObj [("id", VStr now);
                            ("email", JS.get_opt (body_value body) "email");
                            ("password", VStr hashed);
                            ("name", JS.or (JS.get_opt (body_value body) "name")
                                           (VStr ""))]])%list
       /\ (forall status reply,
             r = Sent status reply ->
             status = 200
             /\ JS.get_opt (JS.get_opt reply "user") "password" = VUndef
             /\ JS.get_opt (JS.get_opt reply "user") "email"
                = JS.get_opt (body_value body) "email"))
  /\ (forall before after user e,
        body <> NoBody ->
        JS.truthy (JS.get_opt (body_value body) "email") = true ->
        JS.truthy (JS.get_opt (body_value body) "password") = true ->
        Forall (Auth.other_email (JS.get_opt (body_value body) "email")) before ->
        JS.get user "email" = Some e ->
        JS.strict_eq e (JS.get_opt (body_value body) "email") = true ->
        Auth.register hash sign (VArr (before ++ user :: after)) now body
        = (Failure 409 (Said "Email already registered"), None)).
Proof.
  split.
  - intros users r written Hreg.
    destruct (register_written hash sign users now body r written Hreg)
      as (list & hashed & Hu & Te & Tp & Hall & Hh & Hw & Hr & _).
    exists list, hashed. repeat split; try assumption;
      subst r; unfold Auth.welcome in *;
      (destruct (sign _) as [token|]; [|discriminate]);
      match goal with
      | H : Sent _ _ = Sent _ _ |- _ => injection H as <- <-
      end; try reflexivity;
      try (now apply public_members);
      unfold Auth.public, Auth.object, JS.get_opt at 1 2; simpl;
      destruct (JS.get_opt (body_value body) "email") eqn:Em; try discriminate Te;
      destruct (JS.or (JS.get_opt (body_value body) "name") (VStr "")); reflexivity.
  - intros before after user e Hbody Te Tp Hb Hu Hm. unfold Auth.register.
    destruct body as [|members|elems]; [congruence| |];
      cbn [body_value] in *; rewrite Te, Tp; simpl negb; simpl orb; cbv iota;
      rewrite (find_user_found _ e before after user Hb Hu Hm);
      now rewrite (matched_user_is_truthy _ e user Te Hu Hm).
Qed.

Lemma register_witness :
  Auth.register AuthSample.hash AuthSample.sign
    (VArr ([] ++ AuthSample.ada :: [])) "1700000000000"
    (AuthSample.credentials "ada@example.org" "other")
  = (Failure 409 (Said "Email already registered"), None)
  /\ exists list hashed,
      VArr [AuthSample.ada] = VArr list
      /\ AuthSample.hash (VStr "pw") = Some hashed.
Proof.
  destruct (register_stores_the_hash AuthSample.hash AuthSample.sign
              "1700000000000" (AuthSample.credentials "ada@example.org" "other"))
    as [_ Htaken].
  split.
  - refine (Htaken [] [] AuthSample.ada (VStr "ada@example.org") _ eq_refl eq_refl
              (Forall_nil _) eq_refl eq_refl).
    discriminate.
  - destruct (proj1 (register_stores_the_hash AuthSample.hash AuthSample.sign
                       "1700000000000"
                       (AuthSample.credentials "bob@example.org" "pw"))
                (VArr [AuthSample.ada]) _ _ eq_refl)
      as (list & hashed & E & _ & _ & _ & H & _).
    exists list, hashed. split; [exact E | exact H].
Defined.

(** X24: the register route keeps the emails of the users distinct: if
    no two users of the list it read have the same email, no two users of
    the list it writes have. *)
Theorem register_keeps_emails_distinct
    (hash : value -> option string) (sign : value -> option string)
    (list written : list value) (now : string) (body : Body) (r : reply) :
  Auth.distinct_emails list ->
  Auth.register hash sign (VArr list) now body = (r, Some written) ->
  Auth.distinct_emails written.
Proof.
  intros Hd Hr.
  destruct (register_written hash sign (VArr list) now body r written Hr)
    as (l & hashed & E & _ & _ & Hall & _ & -> & _).
  injection E as <-.
  apply distinct_snoc; [exact Hd|].
  rewrite Forall_forall in *. intros u Hu.
  destruct (Hall u Hu) as (e & He & Hne).
  now rewrite (get_opt_of_get _ _ _ He).
Qed.

Lemma register_keeps_emails_witness :
  Auth.distinct_emails
    [AuthSample.ada;
     VObj [("id", VStr "1700000000000"); ("email", VStr "bob@example.org");
           ("password", VStr "#pw"); ("name", VStr "")]].
Proof.
  refine (register_keeps_emails_distinct AuthSample.hash AuthSample.sign
            [AuthSample.ada] _ "1700000000000"
            (AuthSample.credentials "bob@example.org" "pw") _ _ eq_refl).
  constructor; constructor.
Defined.



(** X26: [deleteServer] of store.js and the DELETE route of server.js do
    the same to the list they read: one returns an entry and writes a list
    exactly when the other replies 200 with that entry and writes that
    list, one throws ["Server inexistent"] exactly when the other replies
    404 with it, and neither writes then. *)
Theorem store_delete_agrees_with_route (data : value) (id : string) :
  (forall removed written,
     Rest.deleteServer data id = inr (removed, written)
     <-> delete_server data id = (Sent 200 removed, Some written))
  /\ (Rest.deleteServer data id = inl (Said "Server inexistent")
      <-> delete_server data id = (Failure 404 (Said "Server inexistent"), None)).
Proof.
  unfold Rest.deleteServer, delete_server.
  destruct data as [| | | | |list| |];
    try (split; [intros removed written|]; split; discriminate).
  destruct (findIndex id list) as [[idx|]|];
    (split; [intros removed written|]; split;
     try discriminate; try reflexivity; now intros [= <- <-]).
Qed.

Lemma store_delete_witness :
  delete_server Sample.store "t9"
  = (Sent 200 (Sample.target "t9" "10.0.0.9"),
     Some [Sample.target "t1" "10.0.0.2"]).
Proof.
  now apply (proj1 (store_delete_agrees_with_route Sample.store "t9")).
Defined.
